(** * Surname classification pipeline (chapter 4.2, [Learn.ipynb])

    A shallow embedding of the pure-Python part of the notebook: the
    [Vocabulary], the [SurnameVectorizer], the [SurnameDataset], the
    early-stopping bookkeeping of the training routine and the top-k
    inference cell.  The tensor engine (the classifier's forward pass,
    the loss and the optimizer) stays abstract.

    Conventions.
    - A Python [int] is a [Z]; a Python [float] (and a float32 tensor
      entry) is a rational [Q]: only comparisons, the constants 0 and 1 and
      the reciprocal of a count are used, and the reciprocal is kept
      symbolic, so no rounding is modelled.  The accuracy and the running
      means are the only arithmetic on floats; they are computed exactly,
      and what is proved of the running means is proved of the formula, up
      to rounding.
    - A Python [dict] is an insertion-ordered association list ([dict]
      below): the code iterates [.items()], so the order is observable.
    - A raised exception is the [Raise] branch of [result]. *)

From stdpp Require Import base tactics option list sorting strings.
From Stdlib Require Import ZArith QArith Lia Lqa.

Open Scope Z_scope.

(** ** Exceptions *)

Inductive exn : Set :=
| KeyError
| IndexError
| ValueError
| RuntimeError
| ZeroDivisionError.

Inductive result (A : Type) : Type :=
| Ok (a : A)
| Raise (e : exn).

Arguments Ok {A} a.
Arguments Raise {A} e.

#[global] Instance exn_eq_dec : EqDecision exn.
Proof. solve_decision. Defined.

#[global] Instance result_eq_dec {A : Type} `{EqDecision A} : EqDecision (result A).
Proof. solve_decision. Defined.

Definition bind {A B : Type} (r : result A) (k : A -> result B) : result B :=
  match r with
  | Ok a => k a
  | Raise e => Raise e
  end.

Notation "'let!' x ':=' r 'in' k" := (bind r (fun x => k))
  (at level 10, x name, r at level 100, k at level 200).

(** [for x in xs: acc = f acc x], stopping at the first exception. *)
Fixpoint for_each {A B : Type} (f : B -> A -> result B) (xs : list A) (acc : B)
  : result B :=
  match xs with
  | [] => Ok acc
  | x :: xs' => let! acc' := f acc x in for_each f xs' acc'
  end.

(** [[f x for x in xs]], stopping at the first exception. *)
Fixpoint map_each {A B : Type} (f : A -> result B) (xs : list A) : result (list B) :=
  match xs with
  | [] => Ok []
  | x :: xs' => let! y := f x in let! ys := map_each f xs' in Ok (y :: ys)
  end.

(** ** Python dictionaries, insertion ordered *)

Section PyDict.
Context {K V : Type} `{EqDecision K}.

Definition dict : Type := list (K * V).

(** [d.get(k)] without a default; [None] is a miss. *)
Fixpoint dict_get (d : dict) (k : K) : option V :=
  match d with
  | [] => None
  | (k', v) :: d' => if decide (k = k') then Some v else dict_get d' k
  end.

(** [d[k] = v]: an existing key keeps its position, a new key goes last. *)
Fixpoint dict_set (d : dict) (k : K) (v : V) : dict :=
  match d with
  | [] => [(k, v)]
  | (k', v') :: d' =>
      if decide (k = k') then (k, v) :: d' else (k', v') :: dict_set d' k v
  end.

(** [d[k]], raising [KeyError] on a miss. *)
Definition dict_getitem (d : dict) (k : K) : result V :=
  match dict_get d k with
  | Some v => Ok v
  | None => Raise KeyError
  end.

(** [k in d] *)
Definition dict_contains (d : dict) (k : K) : bool :=
  match dict_get d k with
  | Some _ => true
  | None => false
  end.

(** [len(d)] *)
Definition dict_len (d : dict) : Z := Z.of_nat (length d).

(** [d.items()] *)
Definition dict_items (d : dict) : list (K * V) := d.

(** [{k: v for ...}]: the pairs are stored one after the other. *)
Definition dict_comprehension (kvs : list (K * V)) : dict :=
  fold_left (fun d kv => dict_set d kv.1 kv.2) kvs [].
End PyDict.

Arguments dict K V : clear implicits.

(** ** The Vocabulary *)

(** Keys of [_idx_to_token]: the integers [add_token] stores, and the
    builtin function [id], which is what the comprehension of [__init__]
    uses as its key. *)
Inductive PyKey : Set :=
| KInt (i : Z)
| KBuiltinId.

#[global] Instance PyKey_eq_dec : EqDecision PyKey.
Proof. solve_decision. Defined.

Record Vocabulary : Type := mkVocabulary {
  _token_to_idx : dict string Z;
  _idx_to_token : dict PyKey string;
  _add_unk : bool;
  _unk_token : string;
  unk_index : Z
}.

Definition set_unk_index (self : Vocabulary) (i : Z) : Vocabulary :=
  mkVocabulary (_token_to_idx self) (_idx_to_token self)
               (_add_unk self) (_unk_token self) i.

(** [add_token]: the returned index and the updated vocabulary. *)
Definition add_token (self : Vocabulary) (token : string) : Z * Vocabulary :=
  match dict_getitem (_token_to_idx self) token with
  | Ok index => (index, self)
  | Raise _ =>
      let index := dict_len (_token_to_idx self) in
      (index,
       mkVocabulary (dict_set (_token_to_idx self) token index)
                    (dict_set (_idx_to_token self) (KInt index) token)
                    (_add_unk self) (_unk_token self) (unk_index self))
  end.

(** [add_many]: the indices in input order and the updated vocabulary. *)
Fixpoint add_many (self : Vocabulary) (tokens : list string)
  : list Z * Vocabulary :=
  match tokens with
  | [] => ([], self)
  | token :: tokens' =>
      let '(index, self1) := add_token self token in
      let '(indices, self2) := add_many self1 tokens' in
      (index :: indices, self2)
  end.

(** [Vocabulary.__init__(token_to_idx=None, add_unk=True, unk_token="<UNK>")].
    The comprehension binds [token, idx] but writes the key [id]. *)
Definition Vocabulary_init (token_to_idx : option (dict string Z))
    (add_unk : bool) (unk_token : string) : Vocabulary :=
  let token_to_idx := default [] token_to_idx in
  let self :=
    mkVocabulary token_to_idx
      (dict_comprehension
         ((fun '(token, idx) => (KBuiltinId, token)) <$> dict_items token_to_idx))
      add_unk unk_token (-1) in
  if add_unk then
    let '(index, self') := add_token self unk_token in
    set_unk_index self' index
  else self.

Definition default_unk_token : string := "<UNK>".

(** The record written by [to_serializable] and read by [from_serializable]. *)
Record VocabularyContents : Type := mkVocabularyContents {
  c_token_to_idx : dict string Z;
  c_add_unk : bool;
  c_unk_token : string
}.

Definition to_serializable (self : Vocabulary) : VocabularyContents :=
  mkVocabularyContents (_token_to_idx self) (_add_unk self) (_unk_token self).

Definition from_serializable (contents : VocabularyContents) : Vocabulary :=
  Vocabulary_init (Some (c_token_to_idx contents)) (c_add_unk contents)
                  (c_unk_token contents).

Definition lookup_token (self : Vocabulary) (token : string) : result Z :=
  if unk_index self >=? 0 then
    Ok (default (unk_index self) (dict_get (_token_to_idx self) token))
  else dict_getitem (_token_to_idx self) token.

Definition lookup_index (self : Vocabulary) (index : Z) : result string :=
  if negb (dict_contains (_idx_to_token self) (KInt index)) then Raise KeyError
  else dict_getitem (_idx_to_token self) (KInt index).

(** [len(vocab)] *)
Definition Vocabulary_len (self : Vocabulary) : Z := dict_len (_token_to_idx self).

(** ** The Vectorizer *)

(** Floats are rationals throughout. *)
Abbreviation float := Q (only parsing).

(** The characters of a Python [str], each a one-character [str]. *)
Fixpoint chars (s : string) : list string :=
  match s with
  | EmptyString => []
  | String c s' => String c EmptyString :: chars s'
  end.

(** [len] of a list or of a one-dimensional array. *)
Definition len {A : Type} (l : list A) : Z := Z.of_nat (length l).

(** [np.zeros(n, dtype=np.float32)] *)
Definition np_zeros (n : Z) : list float := replicate (Z.to_nat n) 0%Q.

(** Index normalisation of a sequence of [n] items: a negative index counts
    from the end, anything outside [-n, n) is an [IndexError]. *)
Definition normalize_index (n i : Z) : result nat :=
  if (0 <=? i) && (i <? n) then Ok (Z.to_nat i)
  else if (- n <=? i) && (i <? 0) then Ok (Z.to_nat (n + i))
  else Raise IndexError.

(** [a[i] = x] on a one-dimensional array. *)
Definition array_setitem {A : Type} (a : list A) (i : Z) (x : A) : result (list A) :=
  let! j := normalize_index (len a) i in Ok (<[j := x]> a).

(** [a[i]] on a one-dimensional array, tensor or positional frame. *)
Definition array_getitem {A : Type} (a : list A) (i : Z) : result A :=
  let! j := normalize_index (len a) i in
  match a !! j with
  | Some x => Ok x
  | None => Raise IndexError
  end.

Record SurnameVectorizer : Type := mkSurnameVectorizer {
  surname_vocab : Vocabulary;
  nationality_vocab : Vocabulary
}.

Definition vectorize (self : SurnameVectorizer) (surname : string)
  : result (list float) :=
  let vocab := surname_vocab self in
  let one_hot := np_zeros (Vocabulary_len vocab) in
  for_each
    (fun one_hot token =>
       let! index := lookup_token vocab token in array_setitem one_hot index 1%Q)
    (chars surname) one_hot.

(** ** Data frames *)

Record Row : Type := mkRow {
  surname : string;
  nationality : string;
  split : string
}.

Definition DataFrame : Type := list Row.

(** [df[df.split == name]] *)
Definition where_split (df : DataFrame) (name : string) : DataFrame :=
  filter (fun row => split row = name) df.

Definition from_dataframe (surname_df : DataFrame) : SurnameVectorizer :=
  let surname_vocab := Vocabulary_init None true "@" in
  let nationality_vocab := Vocabulary_init None false default_unk_token in
  let step (vs : Vocabulary * Vocabulary) (row : Row) :=
    let sv := fold_left (fun v letter => (add_token v letter).2)
                        (chars (surname row)) vs.1 in
    let nv := (add_token vs.2 (nationality row)).2 in
    (sv, nv) in
  let vs := fold_left step surname_df (surname_vocab, nationality_vocab) in
  mkSurnameVectorizer vs.1 vs.2.

Record VectorizerContents : Type := mkVectorizerContents {
  c_surname_vocab : VocabularyContents;
  c_nationality_vocab : VocabularyContents
}.

Definition vectorizer_from_serializable (contents : VectorizerContents)
  : SurnameVectorizer :=
  mkSurnameVectorizer (from_serializable (c_surname_vocab contents))
                      (from_serializable (c_nationality_vocab contents)).

Definition vectorizer_to_serializable (self : SurnameVectorizer)
  : VectorizerContents :=
  mkVectorizerContents (to_serializable (surname_vocab self))
                       (to_serializable (nationality_vocab self)).

(** ** Sorting and counting helpers *)

(** Stable insertion for an order [leb]: [x] goes before the first element
    that is not below it. *)
Fixpoint insert_by {A : Type} (leb : A -> A -> bool) (x : A) (l : list A) : list A :=
  match l with
  | [] => [x]
  | y :: l' => if leb x y then x :: l else y :: insert_by leb x l'
  end.

(** A stable sort (Python's sort, pandas' and torch's orderings below are
    described by their result only, which a stable sort determines). *)
Definition sort_by {A : Type} (leb : A -> A -> bool) (l : list A) : list A :=
  foldr (insert_by leb) [] l.

(** [sorted(l, key=key)]: the keys are computed first, in order, and the
    first exception of [key] is the exception of [sorted]. *)
Definition sorted {A : Type} (key : A -> result Z) (l : list A) : result (list A) :=
  let! keys := map_each key l in
  Ok ((sort_by (fun a b : Z * A => a.1 <=? b.1) (zip keys l)).*2).

(** One pass of counting, in first-seen order. *)
Definition tally (col : list string) : dict string Z :=
  fold_left (fun d x => dict_set d x (default 0 (dict_get d x) + 1)) col [].

(** [Series.value_counts().to_dict()]: the distinct values with their
    number of occurrences, the most frequent first.  Pandas does not fix
    the order of values with equal counts; here they stay in first-seen
    order. *)
Definition value_counts (col : list string) : dict string Z :=
  sort_by (fun a b : string * Z => b.2 <=? a.2) (tally col).

(** ** The Dataset *)

Record SurnameDataset : Type := mkSurnameDataset {
  surname_df : DataFrame;
  _vectorizer : SurnameVectorizer;
  train_df : DataFrame;
  train_size : Z;
  val_df : DataFrame;
  validation_size : Z;
  test_df : DataFrame;
  test_size : Z;
  _lookup_dict : dict string (DataFrame * Z);
  _target_split : string;
  _target_df : DataFrame;
  _target_size : Z;
  class_weights : list float
}.

(** [set_split(split="train")]; [None] is the call without an argument. *)
Definition set_split (self : SurnameDataset) (split : option string)
  : result SurnameDataset :=
  let split := default "train"%string split in
  let! entry := dict_getitem (_lookup_dict self) split in
  Ok (mkSurnameDataset (surname_df self) (_vectorizer self)
        (train_df self) (train_size self) (val_df self) (validation_size self)
        (test_df self) (test_size self) (_lookup_dict self)
        split entry.1 entry.2 (class_weights self)).

(** [self.class_weights = weights] *)
Definition set_class_weights (self : SurnameDataset) (weights : list float)
  : SurnameDataset :=
  mkSurnameDataset (surname_df self) (_vectorizer self)
    (train_df self) (train_size self) (val_df self) (validation_size self)
    (test_df self) (test_size self) (_lookup_dict self)
    (_target_split self) (_target_df self) (_target_size self) weights.

(** [1.0 / torch.tensor(frequencies, dtype=torch.float32)] *)
Definition reciprocals (frequencies : list Z) : list float :=
  (fun count => (1 / inject_Z count)%Q) <$> frequencies.

(** [SurnameDataset.__init__(surname_df, vectorizer)].  The attributes
    assigned after the call of [set_split] are empty until then. *)
Definition SurnameDataset_init (surname_df : DataFrame)
    (vectorizer : SurnameVectorizer) : result SurnameDataset :=
  let train_df := where_split surname_df "train" in
  let train_size := len train_df in
  let val_df := where_split surname_df "val" in
  let validation_size := len val_df in
  let test_df := where_split surname_df "test" in
  let test_size := len test_df in
  let lookup_dict : dict string (DataFrame * Z) :=
    [("train"%string, (train_df, train_size));
     ("val"%string, (val_df, validation_size));
     ("test"%string, (test_df, test_size))] in
  let self :=
    mkSurnameDataset surname_df vectorizer train_df train_size
      val_df validation_size test_df test_size lookup_dict
      ""%string [] 0 [] in
  let! self := set_split self (Some "train"%string) in
  let class_counts := value_counts (nationality <$> surname_df) in
  let sort_key (item : string * Z) :=
    lookup_token (nationality_vocab vectorizer) item.1 in
  let! sorted_counts := sorted sort_key (dict_items class_counts) in
  let frequencies := sorted_counts.*2 in
  Ok (set_class_weights self (reciprocals frequencies)).

(** [load_dataset_and_make_vectorizer], from the rows [pd.read_csv] loaded. *)
Definition load_dataset_and_make_vectorizer (surname_df : DataFrame)
  : result SurnameDataset :=
  let train_surname_df := where_split surname_df "train" in
  SurnameDataset_init surname_df (from_dataframe train_surname_df).

(** [load_dataset_and_load_vectorizer], from the loaded rows and the
    contents of the vectorizer file. *)
Definition load_dataset_and_load_vectorizer (surname_df : DataFrame)
    (contents : VectorizerContents) : result SurnameDataset :=
  SurnameDataset_init surname_df (vectorizer_from_serializable contents).

Definition get_vectorizer (self : SurnameDataset) : SurnameVectorizer :=
  _vectorizer self.

(** [len(dataset)] *)
Definition SurnameDataset_len (self : SurnameDataset) : Z := _target_size self.

(** [dataset[index]]: the pair of ['x_surname'] and ['y_nationality']. *)
Definition SurnameDataset_getitem (self : SurnameDataset) (index : Z)
  : result (list float * Z) :=
  let! row := array_getitem (_target_df self) index in
  let! surname_vector := vectorize (_vectorizer self) (surname row) in
  let! nationality_index :=
    lookup_token (nationality_vocab (_vectorizer self)) (nationality row) in
  Ok (surname_vector, nationality_index).

(** Python's [a // b] on integers: floor division, [ZeroDivisionError]
    when [b] is 0. *)
Definition floordiv (a b : Z) : result Z :=
  if b =? 0 then Raise ZeroDivisionError else Ok (a / b).

Definition get_num_batches (self : SurnameDataset) (batch_size : Z) : result Z :=
  floordiv (SurnameDataset_len self) batch_size.

(** ** Training state and early stopping *)

(** [a >= b] and [a < b] on floats. *)
Definition float_ge (a b : float) : bool := Qle_bool b a.
Definition float_lt (a b : float) : bool := negb (Qle_bool b a).

Record Args : Type := mkArgs {
  model_state_file : string;
  num_epochs : Z;
  early_stopping_criteria : Z;
  args_learning_rate : float;
  batch_size : Z
}.

Record TrainState : Type := mkTrainState {
  stop_early : bool;
  early_stopping_step : Z;
  early_stopping_best_val : float;
  learning_rate : float;
  epoch_index : Z;
  train_loss : list float;
  train_acc : list float;
  val_loss : list float;
  val_acc : list float;
  test_loss : float;
  test_acc : float;
  model_filename : string
}.

Definition make_train_state (args : Args) : TrainState :=
  mkTrainState false 0 (100000000 # 1) (args_learning_rate args) 0
               [] [] [] [] (- 1 # 1) (- 1 # 1) (model_state_file args).

Definition set_stop_early (st : TrainState) (b : bool) : TrainState :=
  mkTrainState b (early_stopping_step st) (early_stopping_best_val st)
    (learning_rate st) (epoch_index st) (train_loss st) (train_acc st)
    (val_loss st) (val_acc st) (test_loss st) (test_acc st) (model_filename st).

Definition set_early_stopping_step (st : TrainState) (n : Z) : TrainState :=
  mkTrainState (stop_early st) n (early_stopping_best_val st)
    (learning_rate st) (epoch_index st) (train_loss st) (train_acc st)
    (val_loss st) (val_acc st) (test_loss st) (test_acc st) (model_filename st).

Definition set_epoch_index (st : TrainState) (e : Z) : TrainState :=
  mkTrainState (stop_early st) (early_stopping_step st)
    (early_stopping_best_val st) (learning_rate st) e (train_loss st)
    (train_acc st) (val_loss st) (val_acc st) (test_loss st) (test_acc st)
    (model_filename st).

(** The four [append]s at the end of the two phases of an epoch. *)
Definition append_metrics (st : TrainState) (tl ta vl va : float) : TrainState :=
  mkTrainState (stop_early st) (early_stopping_step st)
    (early_stopping_best_val st) (learning_rate st) (epoch_index st)
    (train_loss st ++ [tl]) (train_acc st ++ [ta])
    (val_loss st ++ [vl]) (val_acc st ++ [va])
    (test_loss st) (test_acc st) (model_filename st).

(** [l[-2:]] *)
Definition last_two {A : Type} (l : list A) : list A :=
  drop (length l - 2)%nat l.

(** [a, b = l]: exactly two items, [ValueError] otherwise. *)
Definition unpack2 {A : Type} (l : list A) : result (A * A) :=
  match l with
  | [a; b] => Ok (a, b)
  | _ => Raise ValueError
  end.

Section Training.
(** What [model.state_dict()] returns: the parameters of the model. *)
Context {Params : Type}.

(** The files written by [torch.save], every write in order. *)
Definition Disk : Type := list (string * Params).

Definition torch_save (obj : Params) (filename : string) (disk : Disk) : Disk :=
  disk ++ [(filename, obj)].

(** The contents of a file: the latest write to it. *)
Definition torch_load (filename : string) (disk : Disk) : option Params :=
  dict_get (reverse disk) filename.

Definition update_train_state (args : Args) (model : Params)
    (train_state : TrainState) (disk : Disk) : result (TrainState * Disk) :=
  if epoch_index train_state =? 0 then
    let disk := torch_save model (model_filename train_state) disk in
    Ok (set_stop_early train_state false, disk)
  else if epoch_index train_state >=? 1 then
    let! losses := unpack2 (last_two (val_loss train_state)) in
    let loss_t := losses.2 in
    let '(train_state, disk) :=
      if float_ge loss_t (early_stopping_best_val train_state) then
        (set_early_stopping_step train_state
           (early_stopping_step train_state + 1), disk)
      else
        let disk :=
          if float_lt loss_t (early_stopping_best_val train_state) then
            torch_save model (model_filename train_state) disk
          else disk in
        (set_early_stopping_step train_state 0, disk) in
    Ok (set_stop_early train_state
          (early_stopping_step train_state >=? early_stopping_criteria args),
        disk)
  else Ok (train_state, disk).

(** What the two phases of one epoch hand to the bookkeeping: the
    parameters after the optimizer steps and the running means. *)
Record EpochOutcome : Type := mkEpochOutcome {
  o_params : Params;
  o_train_loss : float;
  o_train_acc : float;
  o_val_loss : float;
  o_val_acc : float
}.

(** The body of [for epoch_index in range(args.num_epochs)], from
    [epoch_index] on, with the outcomes of the epochs still to run. *)
Fixpoint epoch_loop (args : Args) (outcomes : list EpochOutcome)
    (epoch : Z) (train_state : TrainState) (disk : Disk)
  : result (TrainState * Disk) :=
  match outcomes with
  | [] => Ok (train_state, disk)
  | o :: outcomes' =>
      let train_state := set_epoch_index train_state epoch in
      let train_state :=
        append_metrics train_state (o_train_loss o) (o_train_acc o)
                       (o_val_loss o) (o_val_acc o) in
      let! r := update_train_state args (o_params o) train_state disk in
      if stop_early r.1 then Ok r
      else epoch_loop args outcomes' (epoch + 1) r.1 r.2
  end.

Definition training_loop (args : Args) (outcomes : list EpochOutcome)
  : result (TrainState * Disk) :=
  epoch_loop args (take (Z.to_nat (num_epochs args)) outcomes) 0
             (make_train_state args) [].
End Training.

Arguments Disk Params : clear implicits.
Arguments EpochOutcome Params : clear implicits.

(** ** Inference *)

(** [torch.topk(v, k)] on one row: the [k] largest values, largest first,
    with their positions; [RuntimeError] when [k] is out of range. *)
Definition torch_topk (v : list float) (k : Z) : result (list float * list Z) :=
  if (k <? 0) || (len v <? k) then Raise RuntimeError
  else
    let indexed := zip v (Z.of_nat <$> seq 0 (length v)) in
    let top := take (Z.to_nat k)
                 (sort_by (fun a b : float * Z => Qle_bool b.1 a.1) indexed) in
    Ok (top.*1, top.*2).

Section Inference.
(** [classifier(x, apply_softmax=True)] on a batch of one row: the row of
    probabilities. *)
Variable classifier : list float -> list float.

Definition predict_topk_nationality (name : string)
    (vectorizer : SurnameVectorizer) (k : Z) : result (list (string * float)) :=
  let! vectorized_name := vectorize vectorizer name in
  let prediction_vector := classifier vectorized_name in
  let! top := torch_topk prediction_vector k in
  map_each
    (fun pi : float * Z =>
       let! nationality := lookup_index (nationality_vocab vectorizer) pi.2 in
       Ok (nationality, pi.1))
    (zip top.1 top.2).

(** The notebook cell that asks for [k] and calls the function above. *)
Definition topk_cell (new_surname : string) (vectorizer : SurnameVectorizer)
    (k : Z) : result (list (string * float)) :=
  let k :=
    if k >? Vocabulary_len (nationality_vocab vectorizer)
    then Vocabulary_len (nationality_vocab vectorizer) else k in
  predict_topk_nationality new_surname vectorizer k.
End Inference.

(** ** Batches *)

(** A collated batch: the ['x_surname'] vectors and the ['y_nationality']
    labels of its rows, in order. *)
Record Batch : Type := mkBatch {
  x_surname : list (list float);
  y_nationality : list Z
}.

(** The grouping the [DataLoader] does ([BatchSampler]): the indices come
    from the sampler one by one, a group is handed out as soon as it holds
    [batch_size] indices, and what is left at the end is handed out unless
    [drop_last] is set. *)
Fixpoint batch_sampler (batch_size : Z) (drop_last : bool) (sampler : list Z)
    (batch : list Z) : list (list Z) :=
  match sampler with
  | [] => if (0 <? len batch) && negb drop_last then [batch] else []
  | idx :: sampler' =>
      let batch := batch ++ [idx] in
      if len batch =? batch_size
      then batch :: batch_sampler batch_size drop_last sampler' []
      else batch_sampler batch_size drop_last sampler' batch
  end.

(** [[dataset[i] for i in indices]], collated key by key. *)
Definition fetch_batch (dataset : SurnameDataset) (indices : list Z)
  : result Batch :=
  let! items := map_each (SurnameDataset_getitem dataset) indices in
  Ok (mkBatch items.*1 items.*2).

(** A generator: what it yields, and the exception that ends it, if any. *)
Fixpoint yield_each {A B : Type} (f : A -> result B) (xs : list A)
  : list B * option exn :=
  match xs with
  | [] => ([], None)
  | x :: xs' =>
      match f x with
      | Raise e => ([], Some e)
      | Ok y => let r := yield_each f xs' in (y :: r.1, r.2)
      end
  end.

(** [generate_batches(dataset, batch_size, shuffle, drop_last)].  The order
    of the indices is the parameter [sampler]: [range(len(dataset))]
    without [shuffle], a random permutation of it with [shuffle] (the
    random sampler wants a dataset with at least one item).  Moving the
    tensors to the device does not change them. *)
Definition generate_batches (dataset : SurnameDataset) (batch_size : Z)
    (sampler : list Z) (drop_last : bool) : list Batch * option exn :=
  if batch_size <=? 0 then ([], Some ValueError)
  else yield_each (fetch_batch dataset)
                  (batch_sampler batch_size drop_last sampler []).

(** ** Accuracy and running means *)

(** The maximum of a row and the position of its first occurrence, from
    the maximum [best] of the values before [index]. *)
Fixpoint torch_max_from (best : float) (best_index index : Z) (v : list float)
  : float * Z :=
  match v with
  | [] => (best, best_index)
  | x :: v' =>
      if float_lt best x then torch_max_from x index (index + 1) v'
      else torch_max_from best best_index (index + 1) v'
  end.

(** [v.max()] along a row: the maximal value and the index of its first
    occurrence; an empty row has no maximum. *)
Definition torch_max (v : list float) : result (float * Z) :=
  match v with
  | [] => Raise RuntimeError
  | x :: v' => Ok (torch_max_from x 0 1 v')
  end.

(** The number of positions where two lists agree. *)
Definition count_equal (a b : list Z) : Z :=
  len (filter (fun p : Z * Z => p.1 = p.2) (zip a b)).

(** [torch.eq(a, b).sum().item()] on one-dimensional tensors: elementwise
    when the sizes agree, a tensor of size 1 is compared with every entry of
    the other, other sizes do not go together. *)
Definition torch_eq_sum (a b : list Z) : result Z :=
  if len a =? len b then Ok (count_equal a b)
  else if len b =? 1 then
    Ok (count_equal a (replicate (length a) (default 0 (head b))))
  else if len a =? 1 then
    Ok (count_equal (replicate (length b) (default 0 (head a))) b)
  else Raise RuntimeError.

(** [compute_accuracy(y_pred, y_target)], [y_pred] row by row.  (A batch
    without rows is taken to have columns.) *)
Definition compute_accuracy (y_pred : list (list float)) (y_target : list Z)
  : result float :=
  let! maxima := map_each torch_max y_pred in
  let y_pred_indices := maxima.*2 in
  let! n_correct := torch_eq_sum y_pred_indices y_target in
  if len y_pred_indices =? 0 then Raise ZeroDivisionError
  else Ok (inject_Z n_correct / inject_Z (len y_pred_indices) * 100)%Q.

(** [for batch_index, value in enumerate(values):
       running += (value - running) / (batch_index + 1)],
    from the state before batch [batch_index]. *)
Fixpoint running_from (running : float) (batch_index : Z) (values : list float)
  : float :=
  match values with
  | [] => running
  | value :: values' =>
      running_from (running + (value - running) / inject_Z (batch_index + 1))%Q
                   (batch_index + 1) values'
  end.

(** The running loss or accuracy at the end of a phase, from 0. *)
Definition running_mean (values : list float) : float :=
  running_from 0%Q 0 values.

(** ** Inference of the best guess *)

Section BestGuess.
(** [classifier(x, apply_softmax=True)] on a batch of one row, as above. *)
Variable classifier : list float -> list float.

Definition predict_nationality (surname : string)
    (vectorizer : SurnameVectorizer) : result (string * float) :=
  let! vectorized_surname := vectorize vectorizer surname in
  let result := classifier vectorized_surname in
  let! maximum := torch_max result in
  let! predicted_nationality :=
    lookup_index (nationality_vocab vectorizer) maximum.2 in
  Ok (predicted_nationality, maximum.1).
End BestGuess.

(** ** Vocabulary: the invariant of the data model *)

(** The forward map gives the tokens the indices 0, 1, ... in order of
    registration, no token twice; the inverse map is its exact inverse; the
    unknown index is the index of the unknown token, or -1 without one. *)
Record vocab_inv (v : Vocabulary) : Prop := mk_vocab_inv {
  inv_indices :
    (_token_to_idx v).*2 = Z.of_nat <$> seq 0 (length (_token_to_idx v));
  inv_tokens : NoDup (_token_to_idx v).*1;
  inv_inverse :
    _idx_to_token v = (fun kv => (KInt kv.2, kv.1)) <$> _token_to_idx v;
  inv_unk :
    if _add_unk v then dict_get (_token_to_idx v) (_unk_token v) = Some (unk_index v)
    else unk_index v = -1
}.

(** The weaker fact that vectorization needs: every index of the forward
    map, and the unknown index, is a position of the vector. *)
Definition indices_in_range (v : Vocabulary) : Prop :=
  Forall (fun kv : string * Z => 0 <= kv.2 < Vocabulary_len v) (_token_to_idx v).

Definition unk_in_range (v : Vocabulary) : Prop :=
  0 <= unk_index v < Vocabulary_len v.

(** ** The invariant of the dataset *)

(** The table of the three views is the one [__init__] builds from the
    rows, and the active view and its size are the entry of the active
    split. *)
Record dataset_inv (ds : SurnameDataset) : Prop := mk_dataset_inv {
  inv_lookup_dict :
    _lookup_dict ds =
    [("train"%string,
      (where_split (surname_df ds) "train", len (where_split (surname_df ds) "train")));
     ("val"%string,
      (where_split (surname_df ds) "val", len (where_split (surname_df ds) "val")));
     ("test"%string,
      (where_split (surname_df ds) "test", len (where_split (surname_df ds) "test")))];
  inv_target_df : _target_df ds = where_split (surname_df ds) (_target_split ds);
  inv_target_size : _target_size ds = len (_target_df ds)
}.

(** ** Auxiliary functions of the proofs *)

(** The position [vectorize] writes for a character when the unknown token
    is enabled: the index of the character, or the unknown index. *)
Definition position (v : Vocabulary) (c : string) : nat :=
  Z.to_nat (default (unk_index v) (dict_get (_token_to_idx v) c)).

(** Writing 1 at each of a list of positions, one after the other. *)
Definition mark_all (positions : list nat) (a : list float) : list float :=
  fold_left (fun a j => <[j := 1%Q]> a) positions a.

(** Registering a list of tokens, one after the other. *)
Definition register_all (tokens : list string) (v : Vocabulary) : Vocabulary :=
  fold_left (fun v t => (add_token v t).2) tokens v.

(** The key [sorted] computes for an item of the class counts when no
    lookup raises. *)
Definition label_index (v : Vocabulary) (item : string * Z) : Z :=
  default 0 (dict_get (_token_to_idx v) item.1).

(** The distinct elements of a list, in the order of their first
    occurrence. *)
Fixpoint first_seen (l : list string) : list string :=
  match l with
  | [] => []
  | x :: l' => x :: filter (fun y => y <> x) (first_seen l')
  end.

(** The forward map that gives a list of distinct tokens the indices 0, 1,
    ... in order. *)
Definition numbered (tokens : list string) : dict string Z :=
  imap (fun i t => (t, Z.of_nat i)) tokens.

(** The sum of a list of floats. *)
Definition float_sum (values : list float) : float :=
  foldr Qplus 0%Q values.

(** A dataset with another vectorizer in place of its own. *)
Definition with_vectorizer (self : SurnameDataset) (vectorizer : SurnameVectorizer)
  : SurnameDataset :=
  mkSurnameDataset (surname_df self) vectorizer
    (train_df self) (train_size self) (val_df self) (validation_size self)
    (test_df self) (test_size self) (_lookup_dict self)
    (_target_split self) (_target_df self) (_target_size self)
    (class_weights self).

(** The number of rows of a frame with a given nationality. *)
Definition nationality_count (rows : DataFrame) (n : string) : Z :=
  len (filter (fun row => nationality row = n) rows).

(** The number of occurrences of a value in a column. *)
Definition occurrences (col : list string) (x : string) : Z :=
  len (filter (fun y => y = x) col).

(** ** Concrete inputs used to exercise the theorems *)

Definition example_rows : DataFrame :=
  [mkRow "ab" "X" "train"; mkRow "ba" "Y" "train"; mkRow "b" "Y" "val";
   mkRow "a" "X" "test"; mkRow "a" "Y" "test"].

Definition example_vectorizer : SurnameVectorizer := from_dataframe example_rows.

(** The run of the early-stopping example: patience 5 and the validation
    losses 1.0, 1.1, ..., 1.5, one per epoch; the parameters of the model
    after epoch [e] are represented by the number [e]. *)
Definition example_args : Args := mkArgs "model.pth" 100 5 (1 # 1000) 64.

Definition example_outcomes : list (EpochOutcome nat) :=
  imap (fun e loss => mkEpochOutcome e 0%Q 0%Q loss 0%Q)
       [(10 # 10)%Q; (11 # 10)%Q; (12 # 10)%Q; (13 # 10)%Q; (14 # 10)%Q;
        (15 # 10)%Q].

(** * Properties *)

(** ** The error monad *)

Lemma bind_Ok {A B : Type} (r : result A) (k : A -> result B) (b : B) :
  bind r k = Ok b -> exists a, r = Ok a /\ k a = Ok b.
Proof. destruct r as [a|e]; cbn; [eauto | discriminate]. Qed.

Lemma map_each_Ok {A B : Type} (f : A -> result B) (l : list A) (ys : list B) :
  map_each f l = Ok ys -> Forall2 (fun x y => f x = Ok y) l ys.
Proof.
  revert ys. induction l as [|x l IH]; intros ys; cbn.
  - intros [= <-]. constructor.
  - intros Hrun. apply bind_Ok in Hrun as (y & Hy & Hrun).
    apply bind_Ok in Hrun as (ys' & Hys & [= <-]). constructor; auto.
Qed.

Lemma map_each_total {A B : Type} (f : A -> result B) (l : list A) :
  Forall (fun x => exists y, f x = Ok y) l ->
  exists ys, map_each f l = Ok ys.
Proof.
  induction 1 as [|x l [y Hy] _ [ys Hys]]; cbn; [by eexists|].
  rewrite Hy. cbn. rewrite Hys. cbn. by eexists.
Qed.

(** ** Dictionaries *)

Section PyDictFacts.
Context {K V : Type} `{EqDecision K}.
Implicit Types (d : dict K V) (k : K) (v : V).

Lemma dict_get_set_eq d k v : dict_get (dict_set d k v) k = Some v.
Proof.
  induction d as [|[k' v'] d IH]; simpl.
  - by rewrite decide_True.
  - destruct (decide (k = k')) as [->|Hne]; simpl.
    + by rewrite decide_True.
    + by rewrite decide_False.
Qed.

Lemma dict_get_set_ne d k k' v :
  k <> k' -> dict_get (dict_set d k v) k' = dict_get d k'.
Proof.
  intros Hne. induction d as [|[k0 v0] d IH]; simpl.
  - by rewrite decide_False.
  - destruct (decide (k = k0)) as [->|Hne0]; simpl.
    + by rewrite !decide_False.
    + destruct (decide (k' = k0)); [done | apply IH].
Qed.

Lemma dict_set_fresh d k v :
  dict_get d k = None -> dict_set d k v = d ++ [(k, v)].
Proof.
  induction d as [|[k' v'] d IH]; simpl; [done|].
  destruct (decide (k = k')); [done|]. intros Hd. by rewrite IH.
Qed.

Lemma dict_get_None d k : dict_get d k = None <-> k ∉ d.*1.
Proof.
  induction d as [|[k' v'] d IH]; simpl.
  - split; [intros _; apply not_elem_of_nil | done].
  - rewrite not_elem_of_cons. destruct (decide (k = k')) as [->|Hne].
    + split; [done | by intros [? _]].
    + rewrite IH. tauto.
Qed.

Lemma dict_get_Some_elem d k v : dict_get d k = Some v -> (k, v) ∈ d.
Proof.
  induction d as [|[k' v'] d IH]; simpl; [done|].
  destruct (decide (k = k')) as [->|Hne].
  - intros [= ->]. apply elem_of_cons. by left.
  - intros Hd. apply elem_of_cons. right. by apply IH.
Qed.

Lemma dict_get_elem d k v : NoDup d.*1 -> (k, v) ∈ d -> dict_get d k = Some v.
Proof.
  induction d as [|[k' v'] d IH]; simpl.
  - intros _ Hin. by apply elem_of_nil in Hin.
  - rewrite NoDup_cons. intros [Hk' Hnd] Hin.
    apply elem_of_cons in Hin as [[= -> ->]|Hin].
    + by rewrite decide_True.
    + destruct (decide (k = k')) as [->|Hne]; [|by apply IH].
      exfalso. apply Hk'. apply (list_elem_of_fmap_2 fst) in Hin. exact Hin.
Qed.

Lemma dict_get_app_fresh d k k' v :
  dict_get (d ++ [(k, v)]) k' =
  match dict_get d k' with
  | Some v' => Some v'
  | None => if decide (k' = k) then Some v else None
  end.
Proof.
  induction d as [|[k0 v0] d IH]; simpl; [done|].
  destruct (decide (k' = k0)); [done | apply IH].
Qed.

Lemma dict_get_Permutation d d' k :
  NoDup d.*1 -> d ≡ₚ d' -> dict_get d k = dict_get d' k.
Proof.
  intros Hnd Hp.
  assert (Hnd' : NoDup d'.*1) by (by rewrite <- Hp).
  destruct (dict_get d k) as [v|] eqn:Hg.
  - symmetry. apply dict_get_elem; [done|].
    rewrite <- Hp. by apply dict_get_Some_elem.
  - symmetry. apply dict_get_None. rewrite <- Hp. by apply dict_get_None.
Qed.
End PyDictFacts.

(** ** Sorting *)

Section SortFacts.
Context {A : Type} (leb : A -> A -> bool).
Hypothesis leb_total : forall a b, leb a b = false -> leb b a = true.

Lemma insert_by_Permutation (x : A) (l : list A) : insert_by leb x l ≡ₚ x :: l.
Proof.
  induction l as [|y l IH]; cbn; [done|].
  destruct (leb x y); [done|]. by rewrite IH, Permutation_swap.
Qed.

Lemma sort_by_Permutation (l : list A) : sort_by leb l ≡ₚ l.
Proof.
  induction l as [|x l IH]; cbn; [done|].
  by rewrite insert_by_Permutation, IH.
Qed.

Lemma insert_by_HdRel (x a : A) (l : list A) :
  leb a x = true -> HdRel (fun a b => leb a b = true) a l ->
  HdRel (fun a b => leb a b = true) a (insert_by leb x l).
Proof.
  intros Hax Hhd. destruct l as [|y l]; cbn.
  - by constructor.
  - destruct (leb x y); constructor; [done|]. by inversion Hhd.
Qed.

Lemma insert_by_Sorted (x : A) (l : list A) :
  Sorted (fun a b => leb a b = true) l ->
  Sorted (fun a b => leb a b = true) (insert_by leb x l).
Proof.
  induction 1 as [|y l Hsorted IH Hhd]; cbn.
  - by repeat constructor.
  - destruct (leb x y) eqn:Hxy.
    + constructor; [by constructor|]. by constructor.
    + constructor; [done|]. apply insert_by_HdRel; [|done]. by apply leb_total.
Qed.

Lemma sort_by_Sorted (l : list A) :
  Sorted (fun a b => leb a b = true) (sort_by leb l).
Proof.
  induction l as [|x l IH]; cbn; [constructor|]. by apply insert_by_Sorted.
Qed.
End SortFacts.

Lemma Sorted_seq_Z (a n : nat) : Sorted Z.le (Z.of_nat <$> seq a n).
Proof.
  revert a. induction n as [|n IH]; intros a; cbn; [constructor|].
  constructor; [apply IH|]. destruct n; cbn; constructor. lia.
Qed.

(** ** Counting *)

Lemma dict_set_keys {V : Type} (d : dict string V) (k : string) (v : V) :
  (dict_set d k v).*1 = if decide (k ∈ d.*1) then d.*1 else d.*1 ++ [k].
Proof.
  induction d as [|[k' v'] d IH]; cbn.
  - rewrite decide_False; [done | apply not_elem_of_nil].
  - destruct (decide (k = k')) as [->|Hne]; cbn.
    + rewrite decide_True; [done | apply elem_of_cons; by left].
    + rewrite IH. destruct (decide (k ∈ d.*1)) as [Hin|Hnin].
      * rewrite decide_True; [done | apply elem_of_cons; by right].
      * rewrite decide_False; [done|]. rewrite not_elem_of_cons. by split.
Qed.

Lemma occurrences_cons (col : list string) (x y : string) :
  occurrences (y :: col) x = (if decide (y = x) then 1 else 0) + occurrences col x.
Proof.
  unfold occurrences, len. rewrite filter_cons.
  destruct (decide (y = x)); cbn; lia.
Qed.

Lemma occurrences_pos (col : list string) (x : string) :
  x ∈ col -> 0 < occurrences col x.
Proof.
  intros Hin. unfold occurrences, len.
  assert (x ∈ filter (fun y => y = x) col) as Hf by (by apply list_elem_of_filter).
  destruct (filter (fun y => y = x) col); [by apply elem_of_nil in Hf | cbn; lia].
Qed.

Lemma tally_fold (col : list string) (d : dict string Z) :
  NoDup d.*1 ->
  let d' := fold_left (fun d x => dict_set d x (default 0 (dict_get d x) + 1)) col d in
  NoDup d'.*1
  /\ (forall x, x ∈ d'.*1 <-> x ∈ d.*1 \/ x ∈ col)
  /\ (forall x, default 0 (dict_get d' x) = default 0 (dict_get d x) + occurrences col x).
Proof.
  revert d. induction col as [|y col IH]; intros d Hnd; cbn.
  { split; [done|]. split.
    - intros x. rewrite elem_of_nil. tauto.
    - intros x. unfold occurrences, len. rewrite filter_nil. cbn. lia. }
  set (d1 := dict_set d y (default 0 (dict_get d y) + 1)).
  assert (Hnd1 : NoDup d1.*1).
  { unfold d1. rewrite dict_set_keys. destruct (decide (y ∈ d.*1)); [done|].
    apply NoDup_app. split; [done|]. split; [|apply NoDup_singleton].
    intros x Hx Hx'. apply list_elem_of_singleton in Hx' as ->. done. }
  destruct (IH d1 Hnd1) as (Hnd' & Hkeys & Hcount). split; [done|]. split.
  - intros x. rewrite Hkeys. unfold d1. rewrite dict_set_keys, elem_of_cons.
    destruct (decide (y ∈ d.*1)) as [Hy|Hy].
    + split; [tauto|]. intros [?|[->|?]]; tauto.
    + rewrite elem_of_app, list_elem_of_singleton. tauto.
  - intros x. rewrite Hcount, occurrences_cons. unfold d1.
    destruct (decide (y = x)) as [->|Hne].
    + rewrite dict_get_set_eq. cbn. lia.
    + rewrite dict_get_set_ne by done. lia.
Qed.

(** [value_counts] lists every value of the column once, with the number
    of its occurrences. *)
Lemma value_counts_spec (col : list string) :
  NoDup (value_counts col).*1
  /\ (forall x, x ∈ (value_counts col).*1 <-> x ∈ col)
  /\ (forall x c, (x, c) ∈ value_counts col -> c = occurrences col x).
Proof.
  destruct (tally_fold col [] (NoDup_nil_2)) as (Hnd & Hkeys & Hcount).
  fold (tally col) in Hnd, Hkeys, Hcount.
  assert (Hperm : value_counts col ≡ₚ tally col) by apply sort_by_Permutation.
  split; [by rewrite Hperm|]. split.
  - intros x. rewrite Hperm, Hkeys, elem_of_nil. tauto.
  - intros x c Hin. rewrite Hperm in Hin.
    apply (dict_get_elem _ _ _ Hnd) in Hin.
    specialize (Hcount x). rewrite Hin in Hcount. cbn in Hcount. lia.
Qed.

(** ** Vocabulary: registration *)

Lemma add_token_known (v : Vocabulary) (t : string) (i : Z) :
  dict_get (_token_to_idx v) t = Some i -> add_token v t = (i, v).
Proof. intros Hg. unfold add_token, dict_getitem. by rewrite Hg. Qed.

Lemma add_token_fresh (v : Vocabulary) (t : string) :
  dict_get (_token_to_idx v) t = None ->
  add_token v t =
  (Vocabulary_len v,
   mkVocabulary (_token_to_idx v ++ [(t, Vocabulary_len v)])
                (dict_set (_idx_to_token v) (KInt (Vocabulary_len v)) t)
                (_add_unk v) (_unk_token v) (unk_index v)).
Proof.
  intros Hg. unfold add_token, dict_getitem. rewrite Hg.
  by rewrite (dict_set_fresh _ _ _ Hg).
Qed.

Lemma add_token_registers (v : Vocabulary) (t : string) :
  dict_get (_token_to_idx (add_token v t).2) t = Some (add_token v t).1.
Proof.
  destruct (dict_get (_token_to_idx v) t) as [i|] eqn:Hg.
  - by rewrite (add_token_known _ _ _ Hg).
  - unfold add_token, dict_getitem. rewrite Hg. simpl. apply dict_get_set_eq.
Qed.

Lemma lookup_token_known (v : Vocabulary) (t : string) (i : Z) :
  dict_get (_token_to_idx v) t = Some i -> lookup_token v t = Ok i.
Proof.
  intros Hg. unfold lookup_token, dict_getitem. rewrite Hg.
  by destruct (unk_index v >=? 0).
Qed.

Lemma lookup_index_get (v : Vocabulary) (i : Z) :
  lookup_index v i =
  match dict_get (_idx_to_token v) (KInt i) with
  | Some t => Ok t
  | None => Raise KeyError
  end.
Proof.
  unfold lookup_index, dict_contains, dict_getitem.
  by destruct (dict_get (_idx_to_token v) (KInt i)).
Qed.

(** C9. Registering a token twice returns the index of the first
    registration and changes nothing more; looking the token up afterwards
    returns that index; a token seen for the first time gets the index
    [len(forward map)] and is entered in both maps. *)
Theorem add_token_idempotent (v : Vocabulary) (t : string) :
  (add_token (add_token v t).2 t).1 = (add_token v t).1
  /\ (add_token (add_token v t).2 t).2 = (add_token v t).2
  /\ lookup_token (add_token v t).2 t = Ok (add_token v t).1
  /\ match dict_get (_token_to_idx v) t with
     | Some i => add_token v t = (i, v)
     | None =>
         (add_token v t).1 = dict_len (_token_to_idx v)
         /\ dict_get (_token_to_idx (add_token v t).2) t
            = Some (dict_len (_token_to_idx v))
         /\ dict_get (_idx_to_token (add_token v t).2)
                     (KInt (dict_len (_token_to_idx v))) = Some t
         /\ lookup_index (add_token v t).2 (dict_len (_token_to_idx v)) = Ok t
         /\ Vocabulary_len (add_token v t).2 = Vocabulary_len v + 1
     end.
Proof.
  pose proof (add_token_registers v t) as Hreg.
  rewrite (add_token_known _ _ _ Hreg). simpl.
  split; [done|]. split; [done|].
  split; [by apply lookup_token_known|].
  destruct (dict_get (_token_to_idx v) t) as [i|] eqn:Hg.
  - by apply add_token_known.
  - rewrite (add_token_fresh _ _ Hg). simpl.
    split; [done|]. split.
    { rewrite dict_get_app_fresh, Hg. by rewrite decide_True. }
    split; [apply dict_get_set_eq|]. split.
    { rewrite lookup_index_get. simpl. by rewrite dict_get_set_eq. }
    unfold Vocabulary_len, dict_len. simpl. rewrite length_app. simpl. lia.
Qed.

(** ** Vocabulary: the invariant holds for every vocabulary the code builds *)

Lemma vocab_inv_init_empty (add_unk : bool) (unk_token : string) :
  vocab_inv (Vocabulary_init None add_unk unk_token).
Proof.
  destruct add_unk; cbn.
  - split; cbn; [done | apply NoDup_singleton | done | by rewrite decide_True].
  - split; cbn; [done | apply NoDup_nil_2 | done | done].
Qed.

Lemma inv_inverse_keys (v : Vocabulary) :
  vocab_inv v ->
  (_idx_to_token v).*1 = KInt <$> (Z.of_nat <$> seq 0 (length (_token_to_idx v))).
Proof.
  intros Hinv. rewrite (inv_inverse v Hinv), <- (inv_indices v Hinv).
  rewrite <- !list_fmap_compose. by apply list_fmap_ext.
Qed.

Lemma inv_inverse_fresh (v : Vocabulary) :
  vocab_inv v -> dict_get (_idx_to_token v) (KInt (Vocabulary_len v)) = None.
Proof.
  intros Hinv. apply dict_get_None. rewrite (inv_inverse_keys v Hinv).
  intros Hin. apply list_elem_of_fmap in Hin as (i & [= Hi] & Hin).
  apply list_elem_of_fmap in Hin as (j & -> & Hin).
  apply elem_of_seq in Hin. unfold Vocabulary_len, dict_len in Hi. lia.
Qed.

Lemma vocab_inv_add_token (v : Vocabulary) (t : string) :
  vocab_inv v -> vocab_inv (add_token v t).2.
Proof.
  intros Hinv.
  destruct (dict_get (_token_to_idx v) t) as [i|] eqn:Hg.
  { by rewrite (add_token_known _ _ _ Hg). }
  rewrite (add_token_fresh _ _ Hg). destruct Hinv as [Hidx Hnd Hitt Hunk].
  split; cbn.
  - by rewrite fmap_app, length_app, seq_app, fmap_app, <- Hidx.
  - rewrite fmap_app. apply NoDup_app. split; [done|]. split.
    + intros x Hx Hx'. apply list_elem_of_singleton in Hx' as ->.
      by apply dict_get_None in Hg.
    + apply NoDup_singleton.
  - rewrite dict_set_fresh.
    + by rewrite fmap_app, Hitt.
    + by apply inv_inverse_fresh.
  - destruct (_add_unk v); [|done].
    by rewrite dict_get_app_fresh, Hunk.
Qed.

Lemma vocab_inv_add_tokens (v : Vocabulary) (ts : list string) :
  vocab_inv v -> vocab_inv (fold_left (fun v t => (add_token v t).2) ts v).
Proof.
  revert v. induction ts as [|t ts IH]; intros v Hinv; cbn; [done|].
  by apply IH, vocab_inv_add_token.
Qed.

Lemma inv_forward_range (v : Vocabulary) (t : string) (i : Z) :
  vocab_inv v -> dict_get (_token_to_idx v) t = Some i ->
  0 <= i < Vocabulary_len v.
Proof.
  intros Hinv Hg. apply dict_get_Some_elem in Hg.
  apply (list_elem_of_fmap_2 snd) in Hg. rewrite (inv_indices v Hinv) in Hg.
  apply list_elem_of_fmap in Hg as (j & Hj & Hin). apply elem_of_seq in Hin.
  cbn in Hj. unfold Vocabulary_len, dict_len. lia.
Qed.

Lemma inv_forward_surj (v : Vocabulary) (i : Z) :
  vocab_inv v -> 0 <= i < Vocabulary_len v ->
  exists t, dict_get (_token_to_idx v) t = Some i.
Proof.
  intros Hinv Hi.
  assert (Hin : i ∈ (_token_to_idx v).*2).
  { rewrite (inv_indices v Hinv). apply list_elem_of_fmap.
    exists (Z.to_nat i). split; [lia|].
    apply elem_of_seq. unfold Vocabulary_len, dict_len in Hi. lia. }
  apply list_elem_of_fmap in Hin as ([t i'] & -> & Hin).
  exists t. apply dict_get_elem; [apply (inv_tokens v Hinv) | done].
Qed.

Lemma inv_inverse_get (v : Vocabulary) (t : string) (i : Z) :
  vocab_inv v ->
  dict_get (_idx_to_token v) (KInt i) = Some t <->
  dict_get (_token_to_idx v) t = Some i.
Proof.
  intros Hinv. split; intros Hg.
  - apply dict_get_Some_elem in Hg. rewrite (inv_inverse v Hinv) in Hg.
    apply list_elem_of_fmap in Hg as ([t' i'] & [= -> ->] & Hin).
    apply dict_get_elem; [apply (inv_tokens v Hinv) | done].
  - apply dict_get_elem.
    + rewrite (inv_inverse_keys v Hinv). apply NoDup_fmap_2.
      { intros x y [= ->]. done. }
      apply NoDup_fmap_2; [apply _ | apply NoDup_seq].
    + rewrite (inv_inverse v Hinv). apply dict_get_Some_elem in Hg.
      by apply (list_elem_of_fmap_2 (fun kv : string * Z => (KInt kv.2, kv.1))) in Hg.
Qed.

Lemma inv_forward_inj (v : Vocabulary) (t1 t2 : string) (i : Z) :
  vocab_inv v -> dict_get (_token_to_idx v) t1 = Some i ->
  dict_get (_token_to_idx v) t2 = Some i -> t1 = t2.
Proof.
  intros Hinv H1 H2.
  apply (inv_inverse_get v _ _ Hinv) in H1, H2. congruence.
Qed.

Lemma inv_indices_in_range (v : Vocabulary) : vocab_inv v -> indices_in_range v.
Proof.
  intros Hinv. apply Forall_forall. intros [t i] Hin. cbn.
  apply (inv_forward_range v t); [done|].
  apply dict_get_elem; [apply (inv_tokens v Hinv) | done].
Qed.

Lemma inv_unk_in_range (v : Vocabulary) :
  vocab_inv v -> _add_unk v = true -> unk_in_range v.
Proof.
  intros Hinv Hunk. pose proof (inv_unk v Hinv) as Hu. rewrite Hunk in Hu.
  by apply (inv_forward_range v (_unk_token v)).
Qed.

(** ** Vocabulary: lookups *)

Lemma lookup_token_miss_unk (v : Vocabulary) (t : string) :
  vocab_inv v -> _add_unk v = true -> dict_get (_token_to_idx v) t = None ->
  lookup_token v t = Ok (unk_index v).
Proof.
  intros Hinv Hunk Hg. pose proof (inv_unk_in_range v Hinv Hunk) as [Hu _].
  unfold lookup_token. rewrite Hg.
  by destruct (Z.geb_spec (unk_index v) 0); [|lia].
Qed.

Lemma lookup_token_miss_no_unk (v : Vocabulary) (t : string) :
  vocab_inv v -> _add_unk v = false -> dict_get (_token_to_idx v) t = None ->
  lookup_token v t = Raise KeyError.
Proof.
  intros Hinv Hunk Hg. pose proof (inv_unk v Hinv) as Hu. rewrite Hunk in Hu.
  unfold lookup_token, dict_getitem. by rewrite Hu, Hg.
Qed.

(** For a vocabulary filled by [add_token] alone the inverse lookup is
    exact: it returns the token registered at the index and raises on every
    index that was never assigned. *)
Lemma lookup_index_exact (v : Vocabulary) (i : Z) :
  vocab_inv v ->
  match lookup_index v i with
  | Ok t => dict_get (_token_to_idx v) t = Some i
  | Raise e => e = KeyError /\ forall t, dict_get (_token_to_idx v) t <> Some i
  end.
Proof.
  intros Hinv. rewrite lookup_index_get.
  destruct (dict_get (_idx_to_token v) (KInt i)) as [t|] eqn:Hg.
  - by apply (inv_inverse_get v t i Hinv).
  - split; [done|]. intros t Ht.
    apply (inv_inverse_get v t i Hinv) in Ht. congruence.
Qed.

(** ** Vocabulary: what survives [from_serializable (to_serializable v)] *)

Lemma comprehension_has_no_int_key (tokens : list (string * Z))
    (d : dict PyKey string) (i : Z) :
  dict_get d (KInt i) = None ->
  dict_get (fold_left (fun d kv => dict_set d kv.1 kv.2)
              ((fun '(token, idx) => (KBuiltinId, token)) <$> tokens) d)
           (KInt i) = None.
Proof.
  revert d. induction tokens as [|[t j] tokens IH]; intros d Hd; cbn; [done|].
  apply IH. by rewrite dict_get_set_ne.
Qed.

(** The forward map and the unknown index come back unchanged, but the
    rebuilt inverse map has no integer key at all. *)
Lemma reload_fields (v : Vocabulary) :
  vocab_inv v ->
  let v' := from_serializable (to_serializable v) in
  _token_to_idx v' = _token_to_idx v
  /\ unk_index v' = unk_index v
  /\ forall i, dict_get (_idx_to_token v') (KInt i) = None.
Proof.
  intros Hinv. pose proof (inv_unk v Hinv) as Hunk.
  unfold from_serializable, to_serializable, Vocabulary_init. cbn.
  destruct (_add_unk v).
  - unfold add_token, dict_getitem. cbn. rewrite Hunk. cbn.
    repeat split. intros i. by apply comprehension_has_no_int_key.
  - cbn. repeat split; [done|]. intros i. by apply comprehension_has_no_int_key.
Qed.

Lemma roundtrip_lookup_token (v : Vocabulary) (t : string) :
  vocab_inv v ->
  lookup_token (from_serializable (to_serializable v)) t = lookup_token v t.
Proof.
  intros Hinv. destruct (reload_fields v Hinv) as (Htti & Hunk & _).
  unfold lookup_token. by rewrite Htti, Hunk.
Qed.

Lemma roundtrip_lookup_index_raises (v : Vocabulary) (i : Z) :
  vocab_inv v ->
  lookup_index (from_serializable (to_serializable v)) i = Raise KeyError.
Proof.
  intros Hinv. destruct (reload_fields v Hinv) as (_ & _ & Hitt).
  rewrite lookup_index_get. by rewrite Hitt.
Qed.

(** Vectorization needs the forward map and the unknown index only, so it
    is unaffected by the round trip. *)
Lemma reload_keeps_ranges (v : Vocabulary) :
  vocab_inv v -> _add_unk v = true ->
  indices_in_range (from_serializable (to_serializable v))
  /\ unk_in_range (from_serializable (to_serializable v)).
Proof.
  intros Hinv Hunk. destruct (reload_fields v Hinv) as (Htti & Hidx & _).
  unfold indices_in_range, unk_in_range, Vocabulary_len.
  rewrite Htti, Hidx. split.
  - by apply inv_indices_in_range.
  - by apply inv_unk_in_range.
Qed.

(** C2. The vocabulary with the unknown token "@" and the letter "a",
    filled by [add_token], answers [lookup_index 1] with "a"; after
    [from_serializable (to_serializable v)] the forward lookups agree but
    [lookup_index 1] raises [KeyError]: the rebuilt inverse map has the
    single key [id]. *)
Theorem roundtrip_loses_inverse_map :
  let v := (add_token (Vocabulary_init None true "@") "a").2 in
  let v' := from_serializable (to_serializable v) in
  lookup_token v "a" = Ok 1 /\ lookup_token v' "a" = Ok 1
  /\ lookup_token v "z" = Ok 0 /\ lookup_token v' "z" = Ok 0
  /\ lookup_index v 1 = Ok "a"%string
  /\ lookup_index v' 1 = Raise KeyError
  /\ _idx_to_token v' = [(KBuiltinId, "a"%string)].
Proof. cbv. repeat split. Qed.

(** C7. The label vocabulary read back from the record
    [{"X": 0, "Y": 1}] without unknown token has "X" registered at index 0
    and "Y" at index 1, and [lookup_token] finds both and raises on a
    miss, yet [lookup_index] raises [KeyError] at the assigned indices 0
    and 1 as it does at the unassigned index 2. *)
Theorem lookup_index_raises_on_assigned_index :
  let v := from_serializable
             (mkVocabularyContents [("X"%string, 0); ("Y"%string, 1)] false
                                   default_unk_token) in
  lookup_token v "X" = Ok 0 /\ lookup_token v "Y" = Ok 1
  /\ lookup_token v "Z" = Raise KeyError
  /\ lookup_index v 0 = Raise KeyError
  /\ lookup_index v 1 = Raise KeyError
  /\ lookup_index v 2 = Raise KeyError.
Proof. cbv. repeat split. Qed.

(** ** Vectorization *)

Lemma normalize_index_in_range (n i : Z) :
  0 <= i < n -> normalize_index n i = Ok (Z.to_nat i).
Proof.
  intros Hi. unfold normalize_index.
  destruct (Z.leb_spec 0 i); [|lia]. by destruct (Z.ltb_spec i n); [|lia].
Qed.

Lemma array_getitem_in_range {A : Type} (a : list A) (i : Z) (x : A) :
  0 <= i -> a !! Z.to_nat i = Some x -> array_getitem a i = Ok x.
Proof.
  intros Hi Hx. unfold array_getitem.
  rewrite normalize_index_in_range; cbn; [by rewrite Hx|].
  apply lookup_lt_Some in Hx. unfold len. lia.
Qed.

Lemma lookup_token_position (v : Vocabulary) (c : string) :
  indices_in_range v -> unk_in_range v ->
  lookup_token v c = Ok (Z.of_nat (position v c))
  /\ (position v c < length (_token_to_idx v))%nat.
Proof.
  intros Hrange [Hu0 Hu1]. unfold lookup_token, position.
  destruct (Z.geb_spec (unk_index v) 0); [|lia].
  assert (0 <= default (unk_index v) (dict_get (_token_to_idx v) c)
          < Vocabulary_len v) as Hd.
  { destruct (dict_get (_token_to_idx v) c) as [i|] eqn:Hg; cbn; [|done].
    apply dict_get_Some_elem in Hg.
    by apply (proj1 (Forall_forall _ _) Hrange) in Hg. }
  unfold Vocabulary_len, dict_len in Hd. split; [f_equal|]; lia.
Qed.

Lemma length_mark_all (ps : list nat) (a : list float) :
  length (mark_all ps a) = length a.
Proof.
  revert a. induction ps as [|p ps IH]; intros a; cbn; [done|].
  unfold mark_all in IH. by rewrite IH, length_insert.
Qed.

Lemma lookup_mark_all (ps : list nat) (a : list float) (i : nat) :
  mark_all ps a !! i =
  if bool_decide (i ∈ ps) then (fun _ => 1%Q) <$> a !! i else a !! i.
Proof.
  unfold mark_all.
  revert a. induction ps as [|p ps IH]; intros a; cbn.
  { rewrite bool_decide_eq_false_2; [done | apply not_elem_of_nil]. }
  rewrite IH. destruct (decide (i = p)) as [->|Hne].
  - rewrite (bool_decide_eq_true_2 (p ∈ p :: ps)); [|apply elem_of_cons; by left].
    destruct (decide (p < length a)%nat) as [Hlt|Hge].
    + rewrite list_lookup_insert_eq by done.
      destruct (lookup_lt_is_Some_2 a p Hlt) as [x ->]. by case_bool_decide.
    + rewrite list_insert_ge by lia.
      rewrite (lookup_ge_None_2 a p) by lia. by case_bool_decide.
  - rewrite list_lookup_insert_ne by done.
    destruct (decide (i ∈ ps)) as [Hin|Hnin].
    + rewrite !bool_decide_eq_true_2; [done | apply elem_of_cons; by right | done].
    + rewrite !bool_decide_eq_false_2; [done | | done].
      rewrite not_elem_of_cons. by split.
Qed.

(** With the unknown token enabled and every index a position of the
    vector, the loop of [vectorize] never raises. *)
Lemma vectorize_mark_all (vz : SurnameVectorizer) (s : string) :
  indices_in_range (surname_vocab vz) -> unk_in_range (surname_vocab vz) ->
  vectorize vz s =
  Ok (mark_all (position (surname_vocab vz) <$> chars s)
               (np_zeros (Vocabulary_len (surname_vocab vz)))).
Proof.
  intros Hrange Hunk. unfold vectorize.
  assert (Hlen : length (np_zeros (Vocabulary_len (surname_vocab vz)))
                 = length (_token_to_idx (surname_vocab vz))).
  { unfold np_zeros, Vocabulary_len, dict_len.
    by rewrite length_replicate, Nat2Z.id. }
  revert Hlen. generalize (np_zeros (Vocabulary_len (surname_vocab vz))).
  induction (chars s) as [|c cs IH]; intros a Hlen; cbn; [done|].
  destruct (lookup_token_position _ c Hrange Hunk) as [-> Hlt]. cbn.
  unfold array_setitem. rewrite normalize_index_in_range by (unfold len; lia).
  cbn. rewrite Nat2Z.id. apply IH. by rewrite length_insert.
Qed.

Lemma position_elem (v : Vocabulary) (cs : list string) (i : Z) :
  indices_in_range v -> unk_in_range v -> 0 <= i ->
  Z.to_nat i ∈ position v <$> cs <-> Ok i ∈ lookup_token v <$> cs.
Proof.
  intros Hrange Hunk Hi. rewrite !list_elem_of_fmap.
  split; intros (c & Hc & Hin); exists c; (split; [|done]).
  - destruct (lookup_token_position v c Hrange Hunk) as [-> _].
    f_equal. lia.
  - destruct (lookup_token_position v c Hrange Hunk) as [Hl _].
    rewrite Hl in Hc. injection Hc as ->. by rewrite Nat2Z.id.
Qed.

(** C5. With the unknown token enabled and every index of the character
    vocabulary below its size, [vectorize] returns for every surname a
    vector as long as the vocabulary, with 1 exactly at the positions
    [lookup_token] gives for the characters of the surname and 0 elsewhere;
    two surnames with the same set of characters get equal vectors, in
    particular "ab" and "ba", and "aab" and "ab". *)
Theorem vectorize_multi_hot (vz : SurnameVectorizer) :
  indices_in_range (surname_vocab vz) -> unk_in_range (surname_vocab vz) ->
  (forall s : string, exists vec : list float,
      vectorize vz s = Ok vec
      /\ len vec = Vocabulary_len (surname_vocab vz)
      /\ forall i : Z, 0 <= i < Vocabulary_len (surname_vocab vz) ->
           array_getitem vec i =
           Ok (if bool_decide (Ok i ∈ lookup_token (surname_vocab vz) <$> chars s)
               then 1%Q else 0%Q))
  /\ (forall s1 s2 : string,
        (forall c, c ∈ chars s1 <-> c ∈ chars s2) ->
        vectorize vz s1 = vectorize vz s2)
  /\ vectorize vz "ab" = vectorize vz "ba"
  /\ vectorize vz "aab" = vectorize vz "ab".
Proof.
  intros Hrange Hunk.
  assert (Hsame : forall s1 s2 : string,
             (forall c, c ∈ chars s1 <-> c ∈ chars s2) ->
             vectorize vz s1 = vectorize vz s2).
  { intros s1 s2 Hchars. rewrite !vectorize_mark_all by done. f_equal.
    apply list_eq. intros i. rewrite !lookup_mark_all.
    rewrite (bool_decide_ext (i ∈ position (surname_vocab vz) <$> chars s1)
                             (i ∈ position (surname_vocab vz) <$> chars s2));
      [done|].
    rewrite !list_elem_of_fmap. split; intros (c & -> & Hin); exists c;
      (split; [done | by apply Hchars]). }
  split; [|split; [exact Hsame|split]].
  - intros s. eexists. split; [by apply vectorize_mark_all|].
    assert (Hlen : length (mark_all (position (surname_vocab vz) <$> chars s)
                     (np_zeros (Vocabulary_len (surname_vocab vz))))
                   = length (_token_to_idx (surname_vocab vz))).
    { unfold np_zeros, Vocabulary_len, dict_len.
      by rewrite length_mark_all, length_replicate, Nat2Z.id. }
    split; [unfold len; by rewrite Hlen|].
    intros i Hi. apply array_getitem_in_range; [lia|].
    rewrite lookup_mark_all. unfold np_zeros.
    rewrite lookup_replicate_2 by lia. cbn.
    rewrite (bool_decide_ext _ _ (position_elem _ (chars s) i Hrange Hunk
                                    (proj1 Hi))).
    by case_bool_decide.
  - apply Hsame. intros c. cbn. rewrite !elem_of_cons, !elem_of_nil. tauto.
  - apply Hsame. intros c. cbn. rewrite !elem_of_cons, !elem_of_nil. tauto.
Qed.

Lemma vectorize_multi_hot_witness :
  vectorize example_vectorizer "ab" = vectorize example_vectorizer "ba".
Proof.
  refine (proj1 (proj2 (proj2 (vectorize_multi_hot example_vectorizer _ _)))).
  - apply (bool_decide_unpack _). vm_compute. reflexivity.
  - apply (bool_decide_unpack _). vm_compute. reflexivity.
Defined.

(** C6. With the unknown token enabled and every index of the character
    vocabulary below its size, [vectorize] of the empty surname is the
    all-zero vector of the size of the vocabulary, and [vectorize] of a
    non-empty surname none of whose characters is registered is the vector
    whose single 1 is at the unknown index; neither raises. *)
Theorem vectorize_degenerate (vz : SurnameVectorizer) :
  indices_in_range (surname_vocab vz) -> unk_in_range (surname_vocab vz) ->
  vectorize vz "" = Ok (np_zeros (Vocabulary_len (surname_vocab vz)))
  /\ forall s : string,
       s <> ""%string ->
       (forall c, c ∈ chars s -> dict_get (_token_to_idx (surname_vocab vz)) c = None) ->
       vectorize vz s =
       Ok (<[Z.to_nat (unk_index (surname_vocab vz)) := 1%Q]>
             (np_zeros (Vocabulary_len (surname_vocab vz)))).
Proof.
  intros Hrange Hunk. split; [done|].
  intros s Hne Hunseen. rewrite vectorize_mark_all by done. f_equal.
  apply list_eq. intros i. rewrite lookup_mark_all.
  assert (Hpos : forall c, c ∈ chars s ->
             position (surname_vocab vz) c = Z.to_nat (unk_index (surname_vocab vz))).
  { intros c Hc. unfold position. by rewrite (Hunseen c Hc). }
  destruct (decide (i = Z.to_nat (unk_index (surname_vocab vz)))) as [->|Hi].
  - rewrite bool_decide_eq_true_2.
    + destruct Hunk as [Hu0 Hu1]. unfold np_zeros, Vocabulary_len, dict_len in *.
      rewrite list_lookup_insert_eq by (rewrite length_replicate; lia).
      by rewrite lookup_replicate_2 by lia.
    + destruct s as [|a s']; [done|]. cbn. apply elem_of_cons. left.
      symmetry. apply Hpos. cbn. apply elem_of_cons. by left.
  - rewrite list_lookup_insert_ne by done.
    rewrite bool_decide_eq_false_2; [done|].
    intros Hin. apply list_elem_of_fmap in Hin as (c & -> & Hc).
    by apply Hi, Hpos.
Qed.

Lemma vectorize_degenerate_witness :
  vectorize example_vectorizer "" = Ok [0%Q; 0%Q; 0%Q]
  /\ vectorize example_vectorizer "xyz" = Ok [1%Q; 0%Q; 0%Q].
Proof.
  assert (Hrange : indices_in_range (surname_vocab example_vectorizer))
    by (apply (bool_decide_unpack _); vm_compute; reflexivity).
  assert (Hunk : unk_in_range (surname_vocab example_vectorizer))
    by (apply (bool_decide_unpack _); vm_compute; reflexivity).
  destruct (vectorize_degenerate example_vectorizer Hrange Hunk) as [Hempty Hunseen].
  split; [exact Hempty|].
  apply (Hunseen "xyz"%string); [discriminate|].
  intros c Hc. cbn in Hc. rewrite !elem_of_cons, elem_of_nil in Hc.
  destruct Hc as [->|[->|[->|[]]]]; reflexivity.
Defined.

(** ** The dataset: construction and the active split *)

Lemma SurnameDataset_init_Ok (rows : DataFrame) (vz : SurnameVectorizer)
    (ds : SurnameDataset) :
  SurnameDataset_init rows vz = Ok ds ->
  exists sorted_counts,
    sorted (fun item : string * Z => lookup_token (nationality_vocab vz) item.1)
           (value_counts (nationality <$> rows)) = Ok sorted_counts
    /\ ds = mkSurnameDataset rows vz
              (where_split rows "train") (len (where_split rows "train"))
              (where_split rows "val") (len (where_split rows "val"))
              (where_split rows "test") (len (where_split rows "test"))
              [("train"%string,
                (where_split rows "train", len (where_split rows "train")));
               ("val"%string,
                (where_split rows "val", len (where_split rows "val")));
               ("test"%string,
                (where_split rows "test", len (where_split rows "test")))]
              "train" (where_split rows "train")
              (len (where_split rows "train"))
              (reciprocals sorted_counts.*2).
Proof.
  unfold SurnameDataset_init. intros Hinit.
  apply bind_Ok in Hinit as (ds1 & Hset & Hinit).
  unfold set_split, dict_getitem in Hset. cbn in Hset.
  rewrite decide_True in Hset by done. injection Hset as <-.
  apply bind_Ok in Hinit as (sorted_counts & Hsorted & [= Hds]).
  exists sorted_counts. split; [exact Hsorted | by rewrite <- Hds].
Qed.

Lemma SurnameDataset_init_inv (rows : DataFrame) (vz : SurnameVectorizer)
    (ds : SurnameDataset) :
  SurnameDataset_init rows vz = Ok ds ->
  dataset_inv ds /\ surname_df ds = rows /\ _vectorizer ds = vz
  /\ _target_split ds = "train"%string.
Proof.
  intros Hinit. apply SurnameDataset_init_Ok in Hinit as (sc & _ & ->).
  repeat split.
Qed.

Lemma set_split_inv (ds ds' : SurnameDataset) (name : option string) :
  dataset_inv ds -> set_split ds name = Ok ds' ->
  dataset_inv ds' /\ surname_df ds' = surname_df ds
  /\ _vectorizer ds' = _vectorizer ds
  /\ _target_split ds' = default "train"%string name.
Proof.
  intros [Hdict Hdf Hsize]. unfold set_split, dict_getitem. rewrite Hdict.
  set (split := default "train"%string name). cbn.
  destruct (decide (split = "train"%string)) as [->|Htrain].
  { cbn. intros [= <-]. repeat split; done. }
  destruct (decide (split = "val"%string)) as [->|Hval].
  { cbn. intros [= <-]. repeat split; done. }
  destruct (decide (split = "test"%string)) as [->|Htest].
  { cbn. intros [= <-]. repeat split; done. }
  discriminate.
Qed.

Lemma set_splits_inv (names : list (option string)) (ds ds' : SurnameDataset) :
  dataset_inv ds -> for_each set_split names ds = Ok ds' ->
  dataset_inv ds' /\ surname_df ds' = surname_df ds
  /\ _vectorizer ds' = _vectorizer ds.
Proof.
  revert ds. induction names as [|name names IH]; intros ds Hinv; cbn.
  { intros [= <-]. done. }
  intros Hrun. apply bind_Ok in Hrun as (ds1 & Hset & Hrun).
  destruct (set_split_inv ds ds1 name Hinv Hset) as (Hinv1 & Hdf1 & Hvz1 & _).
  destruct (IH ds1 Hinv1 Hrun) as (Hinv' & Hdf' & Hvz').
  split; [done | split; congruence].
Qed.

Lemma dataset_inv_len (ds : SurnameDataset) :
  dataset_inv ds ->
  SurnameDataset_len ds = len (where_split (surname_df ds) (_target_split ds)).
Proof.
  intros [_ Hdf Hsize]. unfold SurnameDataset_len. by rewrite Hsize, Hdf.
Qed.

Lemma floordiv_positive (a b : Z) : 0 < b -> floordiv a b = Ok (a / b).
Proof. intros Hb. unfold floordiv. by destruct (Z.eqb_spec b 0); [lia|]. Qed.

(** C8. For a dataset built by [__init__] and moved between its splits by
    [set_split], and a positive batch size, [get_num_batches] is the floor
    of the number of rows of the active split divided by the batch size, so
    the rows of a trailing incomplete batch are not counted; 120 rows and
    batches of 64 give 1, 128 rows give 2. *)
Theorem get_num_batches_floor :
  (forall (rows : DataFrame) (vz : SurnameVectorizer) (ds0 ds : SurnameDataset)
          (names : list (option string)) (batch_size : Z),
      SurnameDataset_init rows vz = Ok ds0 ->
      for_each set_split names ds0 = Ok ds ->
      0 < batch_size ->
      let n := len (where_split rows (_target_split ds)) in
      get_num_batches ds batch_size = Ok (n / batch_size)
      /\ (n / batch_size) * batch_size <= n < (n / batch_size + 1) * batch_size)
  /\ (forall self : SurnameDataset,
        SurnameDataset_len self = 120 -> get_num_batches self 64 = Ok 1)
  /\ (forall self : SurnameDataset,
        SurnameDataset_len self = 128 -> get_num_batches self 64 = Ok 2).
Proof.
  split; [|split].
  - intros rows vz ds0 ds names batch_size Hinit Hrun Hpos n.
    destruct (SurnameDataset_init_inv rows vz ds0 Hinit) as (Hinv0 & Hdf0 & _).
    destruct (set_splits_inv names ds0 ds Hinv0 Hrun) as (Hinv & Hdf & _).
    unfold get_num_batches. rewrite floordiv_positive by done.
    rewrite (dataset_inv_len ds Hinv), Hdf, Hdf0. fold n. split; [done|].
    pose proof (Z.mul_div_le n batch_size Hpos).
    pose proof (Z.mul_succ_div_gt n batch_size Hpos). lia.
  - intros self Hlen. unfold get_num_batches. by rewrite Hlen.
  - intros self Hlen. unfold get_num_batches. by rewrite Hlen.
Qed.

Lemma get_num_batches_floor_witness :
  exists ds0 ds : SurnameDataset,
    SurnameDataset_init example_rows example_vectorizer = Ok ds0
    /\ for_each set_split [Some "val"%string; Some "test"%string] ds0 = Ok ds
    /\ 0 < 2
    /\ get_num_batches ds 2 = Ok 1.
Proof.
  eexists _, _.
  split; [vm_compute; reflexivity|].
  split; [vm_compute; reflexivity|].
  split; [reflexivity|].
  exact (proj1 (proj1 get_num_batches_floor example_rows example_vectorizer _ _
                  [Some "val"%string; Some "test"%string] 2
                  eq_refl eq_refl eq_refl)).
Defined.

(** C10. Right after [__init__] the active split is "train": the size and
    the items of the dataset are those of the training rows; and
    [set_split] without an argument, on the new dataset or after any
    number of [set_split] calls, succeeds and selects "train" as
    [set_split("train")] does. *)
Theorem init_selects_train (rows : DataFrame) (vz : SurnameVectorizer)
    (ds : SurnameDataset) :
  SurnameDataset_init rows vz = Ok ds ->
  _target_split ds = "train"%string
  /\ _target_df ds = where_split rows "train"
  /\ SurnameDataset_len ds = len (where_split rows "train")
  /\ (forall i : Z,
        SurnameDataset_getitem ds i =
        let! row := array_getitem (where_split rows "train") i in
        let! surname_vector := vectorize vz (surname row) in
        let! nationality_index :=
          lookup_token (nationality_vocab vz) (nationality row) in
        Ok (surname_vector, nationality_index))
  /\ (forall (names : list (option string)) (ds1 : SurnameDataset),
        for_each set_split names ds = Ok ds1 ->
        exists ds2 : SurnameDataset,
          set_split ds1 None = Ok ds2
          /\ set_split ds1 (Some "train"%string) = Ok ds2
          /\ _target_split ds2 = "train"%string
          /\ _target_df ds2 = where_split rows "train"
          /\ SurnameDataset_len ds2 = len (where_split rows "train")).
Proof.
  intros Hinit.
  destruct (SurnameDataset_init_inv rows vz ds Hinit) as (Hinv & Hdf & Hvz & Hsplit).
  pose proof (dataset_inv_len ds Hinv) as Hlen. rewrite Hdf, Hsplit in Hlen.
  pose proof (inv_target_df ds Hinv) as Htarget. rewrite Hdf, Hsplit in Htarget.
  split; [done|]. split; [done|]. split; [done|]. split.
  - intros i. unfold SurnameDataset_getitem. by rewrite Htarget, Hvz.
  - intros names ds1 Hrun.
    destruct (set_splits_inv names ds ds1 Hinv Hrun) as (Hinv1 & Hdf1 & _).
    assert (exists ds2, set_split ds1 None = Ok ds2) as [ds2 Hset].
    { unfold set_split, dict_getitem. rewrite (inv_lookup_dict ds1 Hinv1). cbn.
      rewrite decide_True by done. eauto. }
    exists ds2.
    destruct (set_split_inv ds1 ds2 None Hinv1 Hset) as (Hinv2 & Hdf2 & _ & Hsplit2).
    cbn in Hsplit2.
    pose proof (dataset_inv_len ds2 Hinv2) as Hlen2.
    pose proof (inv_target_df ds2 Hinv2) as Htarget2.
    rewrite Hdf2, Hdf1, Hdf, Hsplit2 in Hlen2, Htarget2.
    repeat split; done.
Qed.

Lemma init_selects_train_witness :
  exists ds : SurnameDataset,
    SurnameDataset_init example_rows example_vectorizer = Ok ds
    /\ _target_split ds = "train"%string
    /\ SurnameDataset_len ds = 2.
Proof.
  eexists. split; [vm_compute; reflexivity|].
  pose proof (init_selects_train example_rows example_vectorizer _ eq_refl)
    as (Hsplit & _ & Hlen & _).
  split; [exact Hsplit | exact Hlen].
Defined.

(** ** The vocabularies of [from_dataframe] *)

Lemma add_token_keys (v : Vocabulary) (t : string) :
  (_token_to_idx (add_token v t).2).*1 =
  if decide (t ∈ (_token_to_idx v).*1) then (_token_to_idx v).*1
  else (_token_to_idx v).*1 ++ [t].
Proof.
  destruct (dict_get (_token_to_idx v) t) as [i|] eqn:Hg.
  - rewrite (add_token_known _ _ _ Hg). rewrite decide_True; [done|].
    apply dict_get_Some_elem in Hg. by apply (list_elem_of_fmap_2 fst) in Hg.
  - rewrite (add_token_fresh _ _ Hg). cbn. rewrite fmap_app.
    rewrite decide_False; [done | by apply dict_get_None].
Qed.

Lemma add_token_flags (v : Vocabulary) (t : string) :
  _add_unk (add_token v t).2 = _add_unk v
  /\ unk_index (add_token v t).2 = unk_index v.
Proof.
  unfold add_token. by destruct (dict_getitem (_token_to_idx v) t).
Qed.

Lemma register_all_spec (tokens : list string) (v : Vocabulary) :
  vocab_inv v ->
  vocab_inv (register_all tokens v)
  /\ _add_unk (register_all tokens v) = _add_unk v
  /\ unk_index (register_all tokens v) = unk_index v
  /\ forall t, t ∈ (_token_to_idx (register_all tokens v)).*1 <->
                t ∈ (_token_to_idx v).*1 \/ t ∈ tokens.
Proof.
  revert v. induction tokens as [|t0 tokens IH]; intros v Hinv.
  { split; [done|]. split; [done|]. split; [done|]. intros t. cbn.
    rewrite elem_of_nil. tauto. }
  change (register_all (t0 :: tokens) v)
    with (register_all tokens (add_token v t0).2).
  destruct (IH _ (vocab_inv_add_token v t0 Hinv)) as (Hinv' & Hflag & Hunk & Hkeys).
  destruct (add_token_flags v t0) as [Hflag0 Hunk0].
  split; [done|]. split; [congruence|]. split; [congruence|].
  intros t. rewrite Hkeys, add_token_keys, elem_of_cons.
  destruct (decide (t0 ∈ (_token_to_idx v).*1)) as [Hin|Hnin].
  - split; [tauto|]. intros [?|[->|?]]; tauto.
  - rewrite elem_of_app, list_elem_of_singleton. tauto.
Qed.

Lemma from_dataframe_fold (rows : DataFrame) (sv nv : Vocabulary) :
  fold_left
    (fun (vs : Vocabulary * Vocabulary) (row : Row) =>
       (fold_left (fun v letter => (add_token v letter).2)
                  (chars (surname row)) vs.1,
        (add_token vs.2 (nationality row)).2))
    rows (sv, nv)
  = (register_all (mjoin ((fun row => chars (surname row)) <$> rows)) sv,
     register_all (nationality <$> rows) nv).
Proof.
  revert sv nv. induction rows as [|row rows IH]; intros sv nv; cbn; [done|].
  rewrite IH. unfold register_all. by rewrite fold_left_app.
Qed.

Lemma from_dataframe_vocabs (rows : DataFrame) :
  surname_vocab (from_dataframe rows)
  = register_all (mjoin ((fun row => chars (surname row)) <$> rows))
                 (Vocabulary_init None true "@")
  /\ nationality_vocab (from_dataframe rows)
     = register_all (nationality <$> rows)
                    (Vocabulary_init None false default_unk_token).
Proof. unfold from_dataframe. by rewrite from_dataframe_fold. Qed.

(** Both vocabularies of a vectorizer built from rows satisfy the
    invariant; the characters have an unknown token, at index 0, the labels
    have none, and the labels registered are the labels of the rows. *)
Lemma from_dataframe_inv (rows : DataFrame) :
  let vz := from_dataframe rows in
  vocab_inv (surname_vocab vz) /\ _add_unk (surname_vocab vz) = true
  /\ vocab_inv (nationality_vocab vz) /\ unk_index (nationality_vocab vz) = -1
  /\ forall n, n ∈ (_token_to_idx (nationality_vocab vz)).*1 <->
                n ∈ nationality <$> rows.
Proof.
  intros vz. subst vz. destruct (from_dataframe_vocabs rows) as [-> ->].
  destruct (register_all_spec
              (mjoin ((fun row => chars (surname row)) <$> rows))
              _ (vocab_inv_init_empty true "@")) as (Hs & Hsflag & _ & _).
  destruct (register_all_spec (nationality <$> rows)
              _ (vocab_inv_init_empty false default_unk_token))
    as (Hn & _ & Hnunk & Hnkeys).
  split; [done|]. split; [done|]. split; [done|]. split; [done|].
  intros n. rewrite Hnkeys. cbn. rewrite elem_of_nil. tauto.
Qed.

(** ** Class weights *)

Lemma sort_decorated_positions {A : Type} (h : A -> Z) (items : list A) (N : nat) :
  h <$> items ≡ₚ Z.of_nat <$> seq 0 N ->
  let sd := sort_by (fun a b : Z * A => a.1 <=? b.1)
                    ((fun it => (h it, it)) <$> items) in
  sd.*1 = Z.of_nat <$> seq 0 N
  /\ sd.*2 ≡ₚ items
  /\ forall j it, sd.*2 !! j = Some it -> h it = Z.of_nat j.
Proof.
  intros Hperm sd.
  assert (Hsd : sd ≡ₚ (fun it => (h it, it)) <$> items)
    by apply sort_by_Permutation.
  assert (Hfst : sd.*1 = Z.of_nat <$> seq 0 N).
  { apply (Sorted_unique Z.le).
    - apply (Sorted_fmap fst (fun a b : Z * A => (a.1 <=? b.1) = true) Z.le).
      + intros x y Hxy. by apply Z.leb_le.
      + apply sort_by_Sorted. intros a b Hab.
        apply Z.leb_gt in Hab. apply Z.leb_le. lia.
    - apply Sorted_seq_Z.
    - rewrite Hsd, <- list_fmap_compose. exact Hperm. }
  split; [exact Hfst|]. split.
  { rewrite Hsd, <- list_fmap_compose. cbn. by rewrite list_fmap_id. }
  intros j it Hj.
  assert (Hform : Forall (fun p : Z * A => p.1 = h p.2) sd).
  { rewrite Hsd. apply Forall_fmap, Forall_forall. by intros x _. }
  rewrite list_lookup_fmap in Hj.
  destruct (sd !! j) as [[k it']|] eqn:Hsdj; [|done]. injection Hj as ->.
  pose proof (proj1 (Forall_lookup _ _) Hform j _ Hsdj) as Hk. cbn in Hk.
  assert (Hkj : sd.*1 !! j = Some k) by (by rewrite list_lookup_fmap, Hsdj).
  rewrite Hfst, list_lookup_fmap in Hkj.
  destruct (seq 0 N !! j) as [j'|] eqn:Hseq; [|done].
  apply lookup_seq in Hseq as [-> _]. injection Hkj as <-. by rewrite <- Hk.
Qed.

Lemma lookup_token_no_unk (v : Vocabulary) (t : string) (k : Z) :
  unk_index v = -1 -> lookup_token v t = Ok k ->
  dict_get (_token_to_idx v) t = Some k.
Proof.
  intros Hunk. unfold lookup_token, dict_getitem. rewrite Hunk. cbn.
  destruct (dict_get (_token_to_idx v) t); [by intros [= ->] | discriminate].
Qed.

Lemma decorate_items (v : Vocabulary) (items : list (string * Z)) (keys : list Z) :
  unk_index v = -1 ->
  Forall2 (fun (item : string * Z) k => lookup_token v item.1 = Ok k) items keys ->
  zip keys items = (fun item => (label_index v item, item)) <$> items
  /\ Forall (fun item : string * Z =>
               dict_get (_token_to_idx v) item.1 = Some (label_index v item)) items.
Proof.
  intros Hunk. induction 1 as [|item k items keys Hk _ [IHzip IHall]]; cbn.
  { split; [done | constructor]. }
  apply (lookup_token_no_unk v _ _ Hunk) in Hk.
  assert (label_index v item = k) as Hl by (unfold label_index; by rewrite Hk).
  split; [by rewrite IHzip, Hl|]. constructor; [by rewrite Hl | done].
Qed.

Lemma nationality_count_occurrences (rows : DataFrame) (n : string) :
  occurrences (nationality <$> rows) n = nationality_count rows n.
Proof.
  unfold occurrences, nationality_count, len. f_equal.
  induction rows as [|row rows IH]; [done|].
  rewrite fmap_cons.
  destruct (decide (nationality row = n)) as [Heq|Hne].
  - rewrite filter_cons_True by done. cbn.
    rewrite decide_True by done. cbn. by rewrite IH.
  - rewrite filter_cons_False by done. cbn.
    by rewrite decide_False by done.
Qed.

Lemma sorted_all_known (v : Vocabulary) (items : list (string * Z)) :
  Forall (fun item : string * Z =>
            dict_get (_token_to_idx v) item.1 = Some (label_index v item)) items ->
  sorted (fun item : string * Z => lookup_token v item.1) items
  = Ok (sort_by (fun a b : Z * (string * Z) => a.1 <=? b.1)
          ((fun item => (label_index v item, item)) <$> items)).*2.
Proof.
  intros Hall. unfold sorted.
  assert (map_each (fun item : string * Z => lookup_token v item.1) items
          = Ok (label_index v <$> items)) as ->.
  { induction Hall as [|item items Hitem _ IH]; cbn; [done|].
    rewrite (lookup_token_known _ _ _ Hitem). cbn. by rewrite IH. }
  cbn [bind]. do 3 f_equal.
  clear Hall. induction items as [|item items IH]; cbn; [done|]. by rewrite IH.
Qed.

(** The indices of the labels counted are exactly 0, ..., N-1 when the
    labels counted and the labels of the vocabulary are the same. *)
Lemma label_indices_cover (v : Vocabulary) (items : list (string * Z)) :
  vocab_inv v -> NoDup items.*1 ->
  Forall (fun item : string * Z =>
            dict_get (_token_to_idx v) item.1 = Some (label_index v item)) items ->
  (forall n, n ∈ (_token_to_idx v).*1 -> n ∈ items.*1) ->
  label_index v <$> items ≡ₚ Z.of_nat <$> seq 0 (length (_token_to_idx v)).
Proof.
  intros Hinv Hnd Hall Hsub.
  assert (Hitems : NoDup items) by (by apply (NoDup_fmap_1 fst)).
  apply NoDup_Permutation.
  - apply NoDup_fmap_2_strong; [|done]. intros x y Hx Hy Hxy.
    pose proof (proj1 (Forall_forall _ _) Hall x Hx) as Hgx.
    pose proof (proj1 (Forall_forall _ _) Hall y Hy) as Hgy.
    cbn in Hgx, Hgy. rewrite Hxy in Hgx.
    pose proof (inv_forward_inj v _ _ _ Hinv Hgx Hgy) as Hfst.
    destruct x as [x1 x2], y as [y1 y2]. cbn in Hfst. subst y1.
    apply (dict_get_elem _ _ _ Hnd) in Hx, Hy. congruence.
  - apply NoDup_fmap_2; [apply _ | apply NoDup_seq].
  - intros i. rewrite !list_elem_of_fmap. split.
    + intros (item & -> & Hin).
      pose proof (proj1 (Forall_forall _ _) Hall item Hin) as Hg. cbn in Hg.
      apply (inv_forward_range v _ _ Hinv) in Hg.
      exists (Z.to_nat (label_index v item)). split; [lia|].
      apply elem_of_seq. unfold Vocabulary_len, dict_len in Hg. lia.
    + intros (j & -> & Hj). apply elem_of_seq in Hj.
      destruct (inv_forward_surj v (Z.of_nat j) Hinv) as [t Ht].
      { unfold Vocabulary_len, dict_len. lia. }
      assert (t ∈ items.*1) as Hin.
      { apply Hsub. apply dict_get_Some_elem in Ht.
        by apply (list_elem_of_fmap_2 fst) in Ht. }
      apply list_elem_of_fmap in Hin as (item & -> & Hin).
      exists item. split; [|done]. unfold label_index. by rewrite Ht.
Qed.

(** Pandas leaves the order of equally frequent values open; the sorted
    counts, and so the weights, are the same for every order in which the
    counts may be listed. *)
Lemma sorted_counts_any_order (v : Vocabulary) (items items' : list (string * Z))
    (sorted_counts : list (string * Z)) :
  vocab_inv v -> unk_index v = -1 -> NoDup items.*1 ->
  (forall n, n ∈ (_token_to_idx v).*1 -> n ∈ items.*1) ->
  items ≡ₚ items' ->
  sorted (fun item : string * Z => lookup_token v item.1) items = Ok sorted_counts ->
  sorted (fun item : string * Z => lookup_token v item.1) items' = Ok sorted_counts.
Proof.
  intros Hinv Hunk Hnd Hsub Hperm Hsorted.
  assert (Hall : Forall (fun item : string * Z =>
             dict_get (_token_to_idx v) item.1 = Some (label_index v item)) items).
  { unfold sorted in Hsorted. apply bind_Ok in Hsorted as (keys & Hrun & _).
    apply map_each_Ok in Hrun. by destruct (decorate_items v _ _ Hunk Hrun). }
  assert (Hall' : Forall (fun item : string * Z =>
             dict_get (_token_to_idx v) item.1 = Some (label_index v item)) items')
    by (by rewrite <- Hperm).
  rewrite (sorted_all_known v items Hall) in Hsorted. injection Hsorted as <-.
  rewrite (sorted_all_known v items' Hall'). f_equal.
  pose proof (label_indices_cover v items Hinv Hnd Hall Hsub) as Hcover.
  assert (Hcover' : label_index v <$> items'
                    ≡ₚ Z.of_nat <$> seq 0 (length (_token_to_idx v)))
    by (by rewrite <- Hperm).
  destruct (sort_decorated_positions (label_index v) _ _ Hcover)
    as (Hfst & Hsnd & Hpos).
  destruct (sort_decorated_positions (label_index v) _ _ Hcover')
    as (Hfst' & Hsnd' & Hpos').
  set (sd := sort_by _ (_ <$> items)) in *.
  set (sd' := sort_by _ (_ <$> items')) in *.
  assert (Hinj : forall x y, x ∈ items -> y ∈ items ->
                             label_index v x = label_index v y -> x = y).
  { intros x y Hx Hy Hxy.
    pose proof (proj1 (Forall_forall _ _) Hall x Hx) as Hgx.
    pose proof (proj1 (Forall_forall _ _) Hall y Hy) as Hgy.
    cbn in Hgx, Hgy. rewrite Hxy in Hgx.
    pose proof (inv_forward_inj v _ _ _ Hinv Hgx Hgy) as Hfst0.
    destruct x as [x1 x2], y as [y1 y2]. cbn in Hfst0. subst y1.
    apply (dict_get_elem _ _ _ Hnd) in Hx, Hy. congruence. }
  apply list_eq. intros j. symmetry.
  destruct (sd'.*2 !! j) as [it'|] eqn:Hj'.
  - assert (is_Some (sd.*2 !! j)) as [it Hj].
    { apply lookup_lt_is_Some. apply lookup_lt_Some in Hj'.
      rewrite !length_fmap in *.
      rewrite <- (length_fmap fst sd), Hfst, <- Hfst'. by rewrite length_fmap. }
    rewrite Hj. f_equal. apply Hinj.
    + rewrite <- Hsnd. by apply list_elem_of_lookup_2 in Hj.
    + rewrite Hperm, <- Hsnd'. by apply list_elem_of_lookup_2 in Hj'.
    + by rewrite (Hpos _ _ Hj), (Hpos' _ _ Hj').
  - apply lookup_ge_None. apply lookup_ge_None in Hj'.
    rewrite !length_fmap in *.
    rewrite <- (length_fmap fst sd), Hfst, <- Hfst'. by rewrite length_fmap.
Qed.

(** When the label vocabulary is one filled by [add_token], has no unknown
    token and holds only labels of the frame, a successful [__init__]
    leaves one weight per label of the vocabulary, at the index of the
    label, equal to the reciprocal of the number of rows with that label. *)
Lemma class_weights_of_init (rows : DataFrame) (vz : SurnameVectorizer)
    (ds : SurnameDataset) :
  vocab_inv (nationality_vocab vz) ->
  unk_index (nationality_vocab vz) = -1 ->
  (forall n, n ∈ (_token_to_idx (nationality_vocab vz)).*1 ->
             n ∈ nationality <$> rows) ->
  SurnameDataset_init rows vz = Ok ds ->
  len (class_weights ds) = Vocabulary_len (nationality_vocab vz)
  /\ forall n, n ∈ nationality <$> rows ->
       exists i, lookup_token (nationality_vocab vz) n = Ok i
                 /\ array_getitem (class_weights ds) i
                    = Ok (1 / inject_Z (nationality_count rows n))%Q.
Proof.
  intros Hinv Hunk Hsub Hinit.
  apply SurnameDataset_init_Ok in Hinit as (sc & Hsorted & ->). cbn.
  set (nv := nationality_vocab vz) in *.
  set (col := nationality <$> rows) in *.
  destruct (value_counts_spec col) as (Hnd & Hkeys & Hcount).
  unfold sorted, dict_items in Hsorted.
  apply bind_Ok in Hsorted as (keys & Hrun & [= <-]).
  apply map_each_Ok in Hrun.
  destruct (decorate_items nv _ _ Hunk Hrun) as [-> Hall].
  assert (Hperm : label_index nv <$> value_counts col
                  ≡ₚ Z.of_nat <$> seq 0 (length (_token_to_idx nv))).
  { apply label_indices_cover; try done. intros n Hn. by apply Hkeys, Hsub. }
  destruct (sort_decorated_positions (label_index nv) _ _ Hperm)
    as (Hfst & Hsnd & Hpos).
  set (sd := sort_by (fun a b : Z * (string * Z) => a.1 <=? b.1)
               ((fun item => (label_index nv item, item)) <$> value_counts col))
    in *.
  split.
  { unfold reciprocals, len, Vocabulary_len, dict_len.
    rewrite !length_fmap. f_equal.
    rewrite <- (length_fmap fst sd), Hfst. by rewrite length_fmap, length_seq. }
  intros n Hn. apply Hkeys in Hn.
  apply list_elem_of_fmap in Hn as ([n' c] & -> & Hin). cbn.
  pose proof (Hcount _ _ Hin) as Hc.
  pose proof (proj1 (Forall_forall _ _) Hall _ Hin) as Hg. cbn in Hg.
  exists (label_index nv (n', c)). split.
  { by apply lookup_token_known. }
  assert ((n', c) ∈ sd.*2) as Hsd by (by rewrite Hsnd).
  apply list_elem_of_lookup in Hsd as [j Hj].
  rewrite (Hpos j _ Hj). apply array_getitem_in_range; [lia|].
  rewrite Nat2Z.id. unfold reciprocals.
  rewrite 2!list_lookup_fmap, Hj. cbn.
  rewrite Hc. unfold col. by rewrite nationality_count_occurrences.
Qed.

(** C4. When [load_dataset_and_make_vectorizer] succeeds on a collection
    of rows, [class_weights] has as many entries as the label vocabulary
    has labels, and for every nationality of the collection the entry at
    [lookup_token] of the nationality is 1 divided by the number of rows of
    the whole collection, all splits together, with that nationality. *)
Theorem class_weights_inverse_frequency (rows : DataFrame) (ds : SurnameDataset) :
  load_dataset_and_make_vectorizer rows = Ok ds ->
  let nationality_vocab := nationality_vocab (get_vectorizer ds) in
  len (class_weights ds) = Vocabulary_len nationality_vocab
  /\ forall n : string,
       n ∈ nationality <$> rows ->
       exists i : Z,
         lookup_token nationality_vocab n = Ok i
         /\ array_getitem (class_weights ds) i
            = Ok (1 / inject_Z (nationality_count rows n))%Q.
Proof.
  unfold load_dataset_and_make_vectorizer. intros Hinit.
  destruct (SurnameDataset_init_inv _ _ _ Hinit) as (_ & _ & Hvz & _).
  unfold get_vectorizer. rewrite Hvz. cbn zeta.
  destruct (from_dataframe_inv (where_split rows "train"))
    as (_ & _ & Hinv & Hunk & Hkeys).
  apply (class_weights_of_init rows _ ds Hinv Hunk); [|done].
  intros n Hn. apply Hkeys in Hn.
  apply list_elem_of_fmap in Hn as (row & -> & Hrow).
  apply list_elem_of_filter in Hrow as [_ Hrow].
  by apply list_elem_of_fmap_2.
Qed.

Lemma class_weights_inverse_frequency_witness :
  exists ds : SurnameDataset,
    load_dataset_and_make_vectorizer example_rows = Ok ds
    /\ len (class_weights ds) = 2
    /\ exists i : Z,
         lookup_token (nationality_vocab (get_vectorizer ds)) "Y" = Ok i
         /\ array_getitem (class_weights ds) i = Ok (1 # 3)%Q.
Proof.
  eexists. split; [vm_compute; reflexivity|].
  pose proof (class_weights_inverse_frequency example_rows _ eq_refl)
    as [Hlen Hweights].
  split; [exact Hlen|].
  apply (Hweights "Y"%string).
  apply list_elem_of_fmap. exists (mkRow "ba" "Y" "train").
  split; [reflexivity|]. unfold example_rows. rewrite !elem_of_cons. tauto.
Defined.

(** A nationality that occurs only outside the train split is not in the
    label vocabulary, and the construction raises. *)
Lemma load_raises_on_label_outside_train :
  load_dataset_and_make_vectorizer
    [mkRow "a" "X" "train"; mkRow "b" "Y" "val"] = Raise KeyError.
Proof. reflexivity. Qed.

(** [__init__] with a vectorizer that was not built from the rows: a label
    of the vocabulary without a row gets no weight. *)
Lemma init_with_foreign_vectorizer :
  let vz := mkSurnameVectorizer
              (Vocabulary_init None true "@")
              (register_all ["X"; "Y"; "Z"]%string
                            (Vocabulary_init None false default_unk_token)) in
  exists ds,
    SurnameDataset_init [mkRow "a" "X" "train"; mkRow "b" "Z" "train"] vz = Ok ds
    /\ class_weights ds = [1%Q; 1%Q]
    /\ Vocabulary_len (nationality_vocab vz) = 3.
Proof. eexists. split; [vm_compute; reflexivity|]. by split. Qed.

(** ** Top-k inference *)

Lemma lookup_index_assigned (v : Vocabulary) (i : Z) :
  vocab_inv v -> 0 <= i < Vocabulary_len v -> exists t, lookup_index v i = Ok t.
Proof.
  intros Hinv Hi. destruct (inv_forward_surj v i Hinv Hi) as [t Ht].
  exists t. rewrite lookup_index_get.
  by rewrite (proj2 (inv_inverse_get v t i Hinv) Ht).
Qed.

Lemma torch_topk_all (v : list float) :
  exists top : list (float * Z),
    torch_topk v (len v) = Ok (top.*1, top.*2)
    /\ length top = length v
    /\ Sorted (fun p q : float => (q <= p)%Q) top.*1
    /\ Forall (fun i => 0 <= i < len v) top.*2.
Proof.
  set (indexed := zip v (Z.of_nat <$> seq 0 (length v))).
  set (sd := sort_by (fun a b : float * Z => Qle_bool b.1 a.1) indexed).
  assert (Hperm : sd ≡ₚ indexed) by apply sort_by_Permutation.
  assert (Hlen : length sd = length v).
  { rewrite Hperm. unfold indexed.
    rewrite length_zip_with, length_fmap, length_seq. lia. }
  exists sd. split; [|split; [done|split]].
  - unfold torch_topk, len.
    destruct (Z.ltb_spec (Z.of_nat (length v)) 0); [lia|].
    rewrite Z.ltb_irrefl. cbn. fold indexed. fold sd.
    by rewrite Nat2Z.id, take_ge by lia.
  - apply (Sorted_fmap fst (fun a b : float * Z => Qle_bool b.1 a.1 = true)).
    + intros x y Hxy. by apply Qle_bool_iff.
    + apply sort_by_Sorted. intros a b Hab.
      apply Qle_bool_iff. destruct (Qlt_le_dec a.1 b.1) as [Hlt|Hle].
      * by apply Qlt_le_weak.
      * apply Qle_bool_iff in Hle. congruence.
  - rewrite Hperm. unfold indexed. rewrite snd_zip.
    + apply Forall_fmap, Forall_forall. intros j Hj. apply elem_of_seq in Hj.
      cbn. unfold len. lia.
    + rewrite length_fmap, length_seq. lia.
Qed.

Lemma topk_results_probabilities (v : Vocabulary) (top : list (float * Z))
    (results : list (string * float)) :
  Forall2 (fun (pi : float * Z) (r : string * float) =>
             (let! nationality := lookup_index v pi.2 in Ok (nationality, pi.1))
             = Ok r) top results ->
  results.*2 = top.*1.
Proof.
  induction 1 as [|pi r top results Hr _ IH]; cbn; [done|].
  apply bind_Ok in Hr as (t & _ & [= <-]). cbn. by rewrite IH.
Qed.

(** Without the guard of the cell the function raises when asked for more
    predictions than there are nationalities. *)
Lemma predict_topk_nationality_raises (classifier : list float -> list float)
    (rows : DataFrame) (name : string) (k : Z) :
  let vectorizer := from_dataframe rows in
  (forall x, len (classifier x) = Vocabulary_len (nationality_vocab vectorizer)) ->
  k > Vocabulary_len (nationality_vocab vectorizer) ->
  predict_topk_nationality classifier name vectorizer k = Raise RuntimeError.
Proof.
  intros vectorizer Hdim Hk.
  destruct (from_dataframe_inv rows) as (Hsv & Hsunk & _).
  fold vectorizer in Hsv, Hsunk.
  pose proof (inv_indices_in_range _ Hsv) as Hrange.
  pose proof (inv_unk_in_range _ Hsv Hsunk) as Hunk.
  unfold predict_topk_nationality. rewrite vectorize_mark_all by done.
  cbn. unfold torch_topk. rewrite Hdim.
  destruct (Z.ltb_spec (Vocabulary_len (nationality_vocab vectorizer)) k); [|lia].
  by rewrite orb_true_r.
Qed.

(** As long as the vectorizer is the one built from rows in the same
    session, the guard of the cell does what it is there for: with a
    classifier with one output per nationality, every surname and every
    [k] above the number of nationalities, the cell does not raise and
    returns as many predictions as there are nationalities, with the
    probabilities in descending order. *)
Lemma topk_cell_clamps (classifier : list float -> list float)
    (rows : DataFrame) (new_surname : string) (k : Z) :
  let vectorizer := from_dataframe rows in
  (forall x, len (classifier x) = Vocabulary_len (nationality_vocab vectorizer)) ->
  k > Vocabulary_len (nationality_vocab vectorizer) ->
  exists results : list (string * float),
    topk_cell classifier new_surname vectorizer k = Ok results
    /\ len results = Vocabulary_len (nationality_vocab vectorizer)
    /\ Sorted (fun p q : float => (q <= p)%Q) results.*2.
Proof.
  intros vectorizer Hdim Hk.
  destruct (from_dataframe_inv rows) as (Hsv & Hsunk & Hnv & _).
  fold vectorizer in Hsv, Hsunk, Hnv.
  unfold topk_cell.
  destruct (Z.gtb_spec k (Vocabulary_len (nationality_vocab vectorizer))); [|lia].
  pose proof (inv_indices_in_range _ Hsv) as Hsrange.
  pose proof (inv_unk_in_range _ Hsv Hsunk) as Hsunk'.
  unfold predict_topk_nationality. rewrite vectorize_mark_all by done.
  cbn [bind].
  set (pv := classifier _). rewrite <- (Hdim (mark_all
    (position (surname_vocab vectorizer) <$> chars new_surname)
    (np_zeros (Vocabulary_len (surname_vocab vectorizer))))).
  fold pv. destruct (torch_topk_all pv) as (top & -> & Hlen & Hsorted & Hrange).
  cbn [bind fst snd]. rewrite zip_fst_snd.
  destruct (map_each_total
              (fun pi : float * Z =>
                 let! nationality := lookup_index (nationality_vocab vectorizer) pi.2 in
                 Ok (nationality, pi.1)) top) as [results Hresults].
  { apply Forall_fmap in Hrange. apply (Forall_impl _ _ _ Hrange).
    intros [p i] Hi. cbn in Hi. unfold pv in Hi. rewrite Hdim in Hi.
    destruct (lookup_index_assigned _ i Hnv Hi) as [t Ht].
    exists (t, p). cbn [fst snd]. by rewrite Ht. }
  exists results. split; [done|].
  pose proof (map_each_Ok _ _ _ Hresults) as Hall.
  split.
  - unfold len. by rewrite <- (Forall2_length _ _ _ Hall), Hlen.
  - by rewrite (topk_results_probabilities _ _ _ Hall).
Qed.

Lemma topk_cell_clamps_witness :
  exists results : list (string * float),
    topk_cell (fun _ => [(1 # 10)%Q; (7 # 10)%Q]) "ab" example_vectorizer 5
    = Ok results
    /\ len results = 2
    /\ Sorted (fun p q : float => (q <= p)%Q) results.*2.
Proof.
  exact (topk_cell_clamps (fun _ => [(1 # 10)%Q; (7 # 10)%Q]) example_rows
           "ab" 5 (fun _ => eq_refl) eq_refl).
Defined.

(** With a vectorizer read back from its record the same cell raises
    [KeyError]: [lookup_index] finds no index in the rebuilt inverse map. *)
Lemma topk_cell_after_reload_raises :
  topk_cell (fun _ => [(1 # 10)%Q; (7 # 10)%Q]) "ab"
    (vectorizer_from_serializable (vectorizer_to_serializable example_vectorizer))
    5
  = Raise KeyError.
Proof. reflexivity. Qed.

(** Above the number of nationalities the cell is the call with that
    number, whatever the vectorizer. *)
Lemma topk_cell_clamped_call (classifier : list float -> list float)
    (new_surname : string) (vectorizer : SurnameVectorizer) (k : Z) :
  k > Vocabulary_len (nationality_vocab vectorizer) ->
  topk_cell classifier new_surname vectorizer k
  = predict_topk_nationality classifier new_surname vectorizer
      (Vocabulary_len (nationality_vocab vectorizer)).
Proof.
  intros Hk. unfold topk_cell.
  by destruct (Z.gtb_spec k (Vocabulary_len (nationality_vocab vectorizer)));
    [|lia].
Qed.

Lemma map_each_raises_at_head {A B : Type} (f : A -> result B) (x : A)
    (xs : list A) (e : exn) :
  f x = Raise e -> map_each f (x :: xs) = Raise e.
Proof. intros Hx. cbn. by rewrite Hx. Qed.

(** The same holds of every vectorizer that was written to its record and
    read back, as soon as there is one nationality: the top-k call gets as
    far as the first [lookup_index], which raises [KeyError]. *)
Lemma reloaded_topk_cell_raises (classifier : list float -> list float)
    (rows : DataFrame) (new_surname : string) (k : Z) :
  let vectorizer :=
    vectorizer_from_serializable (vectorizer_to_serializable (from_dataframe rows)) in
  rows <> [] ->
  (forall x, len (classifier x) = Vocabulary_len (nationality_vocab vectorizer)) ->
  k > Vocabulary_len (nationality_vocab vectorizer) ->
  topk_cell classifier new_surname vectorizer k = Raise KeyError.
Proof.
  intros vectorizer Hrows Hdim Hk.
  destruct (from_dataframe_inv rows) as (Hsv & Hsunk & Hnv & _ & Hlabels).
  destruct (reload_keeps_ranges _ Hsv Hsunk) as [Hrange Hunk].
  destruct (reload_fields _ Hnv) as (Hforward & _ & _).
  assert (Hsome : 0 < Vocabulary_len (nationality_vocab vectorizer)).
  { destruct rows as [|r rows]; [done|].
    assert (Hin : nationality r
                  ∈ (_token_to_idx (nationality_vocab vectorizer)).*1).
    { unfold vectorizer. cbn [nationality_vocab vectorizer_from_serializable
        vectorizer_to_serializable c_nationality_vocab].
      rewrite Hforward. apply Hlabels. cbn. apply elem_of_cons. by left. }
    unfold Vocabulary_len, dict_len, len.
    destruct (_token_to_idx (nationality_vocab vectorizer)); [|cbn; lia].
    by apply elem_of_nil in Hin. }
  rewrite topk_cell_clamped_call by done.
  unfold predict_topk_nationality.
  rewrite (vectorize_mark_all vectorizer) by done. cbn [bind].
  set (pv := classifier _). rewrite <- (Hdim (mark_all
    (position (surname_vocab vectorizer) <$> chars new_surname)
    (np_zeros (Vocabulary_len (surname_vocab vectorizer))))).
  fold pv. destruct (torch_topk_all pv) as (top & -> & Hlen & _ & _).
  cbn [bind fst snd]. rewrite zip_fst_snd.
  destruct top as [|pi top].
  { unfold pv in Hlen. specialize (Hdim (mark_all
      (position (surname_vocab vectorizer) <$> chars new_surname)
      (np_zeros (Vocabulary_len (surname_vocab vectorizer))))).
    unfold len in Hdim. cbn [length] in Hlen. lia. }
  apply map_each_raises_at_head.
  unfold vectorizer. cbn [nationality_vocab vectorizer_from_serializable
    vectorizer_to_serializable c_nationality_vocab].
  by rewrite roundtrip_lookup_index_raises.
Qed.

(** C3. The run of the notebook that reloads its files: the dataset is made
    with [load_dataset_and_load_vectorizer] from the record that an earlier
    run saved of the vectorizer of the same rows, there are two
    nationalities and the classifier gives them the probabilities 0.1 and
    0.7.  Asked for 5 predictions for "ab", the cell with the vectorizer of
    the earlier run returns the two nationalities, most probable first;
    with the reloaded vectorizer it raises [KeyError], for 5 as for 3. *)
Theorem topk_cell_reload_path_raises :
  let classifier := fun _ : list float => [(1 # 10)%Q; (7 # 10)%Q] in
  exists ds ds' : SurnameDataset,
    load_dataset_and_make_vectorizer example_rows = Ok ds
    /\ load_dataset_and_load_vectorizer example_rows
         (vectorizer_to_serializable (get_vectorizer ds)) = Ok ds'
    /\ Vocabulary_len (nationality_vocab (get_vectorizer ds')) = 2
    /\ topk_cell classifier "ab" (get_vectorizer ds) 5
       = Ok [("Y"%string, (7 # 10)%Q); ("X"%string, (1 # 10)%Q)]
    /\ topk_cell classifier "ab" (get_vectorizer ds') 5 = Raise KeyError
    /\ topk_cell classifier "ab" (get_vectorizer ds') 3 = Raise KeyError.
Proof.
  intros classifier. eexists. eexists.
  split; [vm_compute; reflexivity|].
  split; [vm_compute; reflexivity|].
  split; [reflexivity|]. split; [reflexivity|]. split; reflexivity.
Qed.

(** ** Early stopping *)

(** No branch of [update_train_state] assigns the best validation loss: it
    keeps the value [make_train_state] gave it. *)
Lemma update_train_state_keeps_best_val {Params : Type} (args : Args)
    (model : Params) (st : TrainState) (disk : Disk Params)
    (r : TrainState * Disk Params) :
  update_train_state args model st disk = Ok r ->
  early_stopping_best_val r.1 = early_stopping_best_val st.
Proof.
  unfold update_train_state.
  destruct (epoch_index st =? 0); [by intros [= <-]|].
  destruct (epoch_index st >=? 1); [|by intros [= <-]].
  intros Hrun. apply bind_Ok in Hrun as (losses & _ & Hrun).
  destruct (float_ge losses.2 (early_stopping_best_val st));
    by injection Hrun as <-.
Qed.

(** After epoch 0 every epoch whose validation loss is below the initial
    value 1e8 of the best loss is saved and resets the counter, whatever the
    losses of the epochs before it. *)
Lemma update_train_state_below_initial {Params : Type} (args : Args)
    (model : Params) (st : TrainState) (disk : Disk Params)
    (losses : float * float) :
  1 <= epoch_index st ->
  unpack2 (last_two (val_loss st)) = Ok losses ->
  float_lt losses.2 (early_stopping_best_val st) = true ->
  update_train_state args model st disk =
  Ok (set_stop_early (set_early_stopping_step st 0)
        (0 >=? early_stopping_criteria args),
      torch_save model (model_filename st) disk).
Proof.
  intros Hepoch Hlosses Hlt. unfold update_train_state.
  destruct (Z.eqb_spec (epoch_index st) 0); [lia|].
  destruct (Z.geb_spec (epoch_index st) 1); [|lia].
  rewrite Hlosses. cbn [bind].
  unfold float_ge, float_lt in *.
  by destruct (Qle_bool (early_stopping_best_val st) losses.2).
Qed.

(** C1. With patience 5 and the validation losses 1.0, 1.1, 1.2, 1.3, 1.4,
    1.5 the loop runs all six epochs and does not stop: every loss is
    compared with the initial best value 1e8, so the counter stays 0, the
    stop flag stays clear and the parameters of every epoch are saved, those
    of epoch 5 last. *)
Theorem early_stopping_example_does_not_stop :
  exists (st : TrainState) (disk : Disk nat),
    training_loop example_args example_outcomes = Ok (st, disk)
    /\ stop_early st = false
    /\ early_stopping_step st = 0
    /\ epoch_index st = 5
    /\ early_stopping_best_val st = (100000000 # 1)%Q
    /\ disk.*2 = [0; 1; 2; 3; 4; 5]%nat
    /\ torch_load (model_filename st) disk = Some 5%nat.
Proof. eexists _, _. split; [vm_compute; reflexivity|]. by repeat split. Qed.

Lemma last_two_snoc {A : Type} (l : list A) (y x : A) :
  last_two ((l ++ [y]) ++ [x]) = [y; x].
Proof.
  unfold last_two. rewrite <- app_assoc, !length_app. cbn.
  replace (length l + 2 - 2)%nat with (length l) by lia.
  by rewrite drop_app_length.
Qed.

Lemma float_lt_true (a b : float) : (a < b)%Q -> float_lt a b = true.
Proof.
  intros Hlt. unfold float_lt. destruct (Qle_bool b a) eqn:Hle; [|done].
  apply Qle_bool_iff in Hle. by apply Qlt_not_le in Hlt.
Qed.

(** As long as the validation losses stay below 1e8 the loop saves the
    parameters of every epoch and never raises the stop flag, for every
    positive patience. *)
Lemma epoch_loop_saves_every_epoch {Params : Type} (args : Args)
    (outcomes : list (EpochOutcome Params)) (epoch : Z) (st : TrainState)
    (disk : Disk Params) :
  0 < early_stopping_criteria args ->
  Forall (fun o => (o_val_loss o < early_stopping_best_val st)%Q) outcomes ->
  (epoch = 0 \/ 1 <= epoch /\ val_loss st <> []) ->
  stop_early st = false -> early_stopping_step st = 0 ->
  exists st',
    epoch_loop args outcomes epoch st disk
    = Ok (st', disk ++ ((fun o => (model_filename st, o_params o)) <$> outcomes))
    /\ stop_early st' = false /\ early_stopping_step st' = 0.
Proof.
  intros Hpatience. revert epoch st disk.
  induction outcomes as [|o outcomes IH]; intros epoch st disk Hall Hepoch Hstop Hstep.
  { exists st. cbn. by rewrite app_nil_r. }
  apply Forall_cons in Hall as [Ho Hall]. cbn [epoch_loop].
  set (st1 := append_metrics (set_epoch_index st epoch) _ _ _ _).
  assert (exists st2,
             update_train_state args (o_params o) st1 disk
             = Ok (st2, torch_save (o_params o) (model_filename st) disk)
             /\ stop_early st2 = false /\ early_stopping_step st2 = 0
             /\ early_stopping_best_val st2 = early_stopping_best_val st
             /\ model_filename st2 = model_filename st
             /\ val_loss st2 = val_loss st ++ [o_val_loss o])
    as (st2 & Hrun & Hstop2 & Hstep2 & Hbest2 & Hfile2 & Hloss2).
  { destruct Hepoch as [->|[Hepoch Hlosses]].
    - eexists. split; [reflexivity|]. by repeat split.
    - destruct (exists_last Hlosses) as (l & y & Hl).
      rewrite (update_train_state_below_initial args _ st1 disk (y, o_val_loss o)).
      + eexists. split; [reflexivity|]. cbn.
        destruct (Z.geb_spec 0 (early_stopping_criteria args)); [lia|].
        by repeat split.
      + exact Hepoch.
      + change (val_loss st1) with (val_loss st ++ [o_val_loss o]).
        by rewrite Hl, last_two_snoc.
      + by apply float_lt_true. }
  rewrite Hrun. cbn [bind fst snd]. rewrite Hstop2.
  destruct (IH (epoch + 1) st2 (torch_save (o_params o) (model_filename st) disk))
    as (st' & Hloop & Hstop' & Hstep'); try done.
  { by rewrite Hbest2. }
  { right. split; [destruct Hepoch as [->|[? _]]; lia|].
    rewrite Hloss2. by destruct (val_loss st). }
  exists st'. split; [|done]. rewrite Hloop, Hfile2. unfold torch_save.
  by rewrite <- app_assoc.
Qed.

(** * Further properties of the code *)

(** ** Vocabulary: registering many tokens *)

Lemma add_many_snd (v : Vocabulary) (ts : list string) :
  (add_many v ts).2 = register_all ts v.
Proof.
  revert v. induction ts as [|t ts IH]; intros v; [done|].
  cbn [add_many]. destruct (add_token v t) as [i v1] eqn:Hadd.
  specialize (IH v1). destruct (add_many v1 ts) as [idxs v2]. cbn in *.
  rewrite IH. unfold register_all. cbn. by rewrite Hadd.
Qed.

Lemma add_token_get_mono (v : Vocabulary) (t t' : string) (i : Z) :
  dict_get (_token_to_idx v) t' = Some i ->
  dict_get (_token_to_idx (add_token v t).2) t' = Some i.
Proof.
  intros Hg. destruct (dict_get (_token_to_idx v) t) as [j|] eqn:Ht.
  - by rewrite (add_token_known _ _ _ Ht).
  - rewrite (add_token_fresh _ _ Ht). cbn. by rewrite dict_get_app_fresh, Hg.
Qed.

Lemma register_all_get_mono (ts : list string) (v : Vocabulary) (t : string)
    (i : Z) :
  dict_get (_token_to_idx v) t = Some i ->
  dict_get (_token_to_idx (register_all ts v)) t = Some i.
Proof.
  revert v. induction ts as [|t0 ts IH]; intros v Hg; [done|].
  apply (IH (add_token v t0).2). by apply add_token_get_mono.
Qed.

Lemma add_token_len (v : Vocabulary) (t : string) :
  Vocabulary_len v <= Vocabulary_len (add_token v t).2 <= Vocabulary_len v + 1.
Proof.
  destruct (dict_get (_token_to_idx v) t) as [j|] eqn:Ht.
  - rewrite (add_token_known _ _ _ Ht). cbn. lia.
  - rewrite (add_token_fresh _ _ Ht). unfold Vocabulary_len, dict_len. cbn.
    rewrite length_app. cbn. lia.
Qed.

Lemma register_all_len (ts : list string) (v : Vocabulary) :
  Vocabulary_len v <= Vocabulary_len (register_all ts v)
  <= Vocabulary_len v + len ts.
Proof.
  revert v. induction ts as [|t0 ts IH]; intros v.
  { unfold len. cbn. lia. }
  change (register_all (t0 :: ts) v) with (register_all ts (add_token v t0).2).
  pose proof (IH (add_token v t0).2). pose proof (add_token_len v t0).
  unfold len in *. cbn [length]. lia.
Qed.

(** X1. [add_many] returns one index per token, in the order of the
    tokens, and each is the index [lookup_token] gives for the token in the
    vocabulary after the call, whatever the vocabulary held before. *)
Theorem add_many_indices (v : Vocabulary) (ts : list string) :
  Forall2 (fun t i => lookup_token (add_many v ts).2 t = Ok i)
          ts (add_many v ts).1.
Proof.
  revert v. induction ts as [|t ts IH]; intros v; [constructor|].
  pose proof (add_many_snd v (t :: ts)) as Hsnd.
  cbn [add_many] in *. pose proof (add_token_registers v t) as Hreg.
  destruct (add_token v t) as [i v1]. specialize (IH v1).
  pose proof (add_many_snd v1 ts) as Hsnd1.
  destruct (add_many v1 ts) as [idxs v2]. cbn in *. constructor; [|done].
  apply lookup_token_known. rewrite Hsnd1. by apply register_all_get_mono.
Qed.

(** X2. Registrations are never changed or lost: in a vocabulary that
    satisfies the invariant, whatever [lookup_index] returned before
    [add_many] it returns afterwards, the token still has that index, and
    the size grows by at most the number of tokens given. *)
Theorem registrations_are_kept (v : Vocabulary) (ts : list string) :
  vocab_inv v ->
  (forall i t, lookup_index v i = Ok t ->
               lookup_index (add_many v ts).2 i = Ok t
               /\ lookup_token (add_many v ts).2 t = Ok i)
  /\ Vocabulary_len v <= Vocabulary_len (add_many v ts).2
     <= Vocabulary_len v + len ts.
Proof.
  intros Hinv. rewrite add_many_snd.
  destruct (register_all_spec ts v Hinv) as (Hinv' & _). split.
  - intros i t Hi. rewrite lookup_index_get in Hi.
    destruct (dict_get (_idx_to_token v) (KInt i)) as [t'|] eqn:Hg; [|done].
    injection Hi as ->. apply (inv_inverse_get v t i Hinv) in Hg.
    apply (register_all_get_mono ts) in Hg. split.
    + rewrite lookup_index_get.
      by rewrite (proj2 (inv_inverse_get _ t i Hinv') Hg).
    + by apply lookup_token_known.
  - apply register_all_len.
Qed.

Lemma registrations_are_kept_witness :
  lookup_index (add_many (surname_vocab example_vectorizer) ["z"; "a"]%string).2 1
  = Ok "a"%string.
Proof.
  assert (Hinv : vocab_inv (surname_vocab example_vectorizer)).
  { split; [reflexivity | | reflexivity | reflexivity].
    apply (bool_decide_unpack _). vm_compute. reflexivity. }
  destruct (registrations_are_kept (surname_vocab example_vectorizer)
              ["z"; "a"]%string Hinv) as [Hkept _].
  apply (Hkept 1 "a"%string). reflexivity.
Defined.

(** ** Vocabulary: what a vocabulary built from nothing looks like *)

Lemma built_vocabulary_inv (add_unk : bool) (unk_token : string)
    (ts : list string) :
  let v := (add_many (Vocabulary_init None add_unk unk_token) ts).2 in
  vocab_inv v
  /\ _add_unk v = add_unk
  /\ (forall t, t ∈ (_token_to_idx v).*1 <->
                t ∈ (if add_unk then [unk_token] else []) ++ ts).
Proof.
  intros v. subst v. rewrite add_many_snd.
  destruct (register_all_spec ts _ (vocab_inv_init_empty add_unk unk_token))
    as (Hinv & Hflag & _ & Hkeys).
  split; [done|]. split.
  - rewrite Hflag. by destruct add_unk.
  - intros t. rewrite Hkeys, elem_of_app. by destruct add_unk.
Qed.

Lemma register_all_unk_token (ts : list string) (v : Vocabulary) :
  _unk_token (register_all ts v) = _unk_token v.
Proof.
  revert v. induction ts as [|t0 ts IH]; intros v; [done|].
  change (register_all (t0 :: ts) v) with (register_all ts (add_token v t0).2).
  rewrite IH. unfold add_token. by destruct (dict_getitem _ _).
Qed.

(** X3. In a vocabulary made by the constructor without a forward map and
    filled by [add_many], the two lookups are inverse to each other: every
    token given has an index below the size, [lookup_index] of that index
    is the token, every index from 0 below the size has a token whose index
    it is, and [lookup_index] raises [KeyError] on every other index. *)
Theorem built_vocabulary_is_bijective (add_unk : bool) (unk_token : string)
    (ts : list string) :
  let v := (add_many (Vocabulary_init None add_unk unk_token) ts).2 in
  (forall t, t ∈ ts ->
     exists i, 0 <= i < Vocabulary_len v
               /\ lookup_token v t = Ok i /\ lookup_index v i = Ok t)
  /\ (forall i, 0 <= i < Vocabulary_len v ->
        exists t, lookup_index v i = Ok t /\ lookup_token v t = Ok i)
  /\ (forall i, ~ (0 <= i < Vocabulary_len v) ->
        lookup_index v i = Raise KeyError).
Proof.
  intros v. destruct (built_vocabulary_inv add_unk unk_token ts)
    as (Hinv & _ & Hkeys). fold v in Hinv, Hkeys.
  split; [|split].
  - intros t Ht.
    assert (t ∈ (_token_to_idx v).*1) as Hin
      by (apply Hkeys, elem_of_app; by right).
    destruct (dict_get (_token_to_idx v) t) as [i|] eqn:Hg.
    2: { by apply dict_get_None in Hg. }
    exists i. split; [by apply (inv_forward_range v t)|].
    split; [by apply lookup_token_known|].
    rewrite lookup_index_get. by rewrite (proj2 (inv_inverse_get v t i Hinv) Hg).
  - intros i Hi. destruct (inv_forward_surj v i Hinv Hi) as [t Ht].
    exists t. split; [|by apply lookup_token_known].
    rewrite lookup_index_get. by rewrite (proj2 (inv_inverse_get v t i Hinv) Ht).
  - intros i Hi. pose proof (lookup_index_exact v i Hinv) as Hexact.
    destruct (lookup_index v i) as [t|e]; [|by destruct Hexact as [-> _]].
    by apply (inv_forward_range v t i Hinv) in Hexact.
Qed.

(** X4. In such a vocabulary with the unknown token, the unknown index is 0
    and [lookup_token] never raises: it returns an index below the size,
    and 0 for every token that was not registered.  Without the unknown
    token [lookup_token] raises [KeyError] exactly on the tokens that were
    not registered. *)
Theorem built_vocabulary_lookup_token (unk_token : string) (ts : list string)
    (t : string) :
  let with_unk := (add_many (Vocabulary_init None true unk_token) ts).2 in
  let without := (add_many (Vocabulary_init None false unk_token) ts).2 in
  unk_index with_unk = 0
  /\ lookup_token with_unk unk_token = Ok 0
  /\ (exists i, lookup_token with_unk t = Ok i
                /\ 0 <= i < Vocabulary_len with_unk
                /\ (t ∉ unk_token :: ts -> i = 0))
  /\ (lookup_token without t = Raise KeyError <-> t ∉ ts).
Proof.
  intros with_unk without.
  destruct (built_vocabulary_inv true unk_token ts) as (Hinv & Hflag & Hkeys).
  destruct (built_vocabulary_inv false unk_token ts) as (Hinv' & Hflag' & Hkeys').
  fold with_unk in Hinv, Hflag, Hkeys. fold without in Hinv', Hflag', Hkeys'.
  assert (Hunk : unk_index with_unk = 0).
  { unfold with_unk. rewrite add_many_snd.
    by destruct (register_all_spec ts _ (vocab_inv_init_empty true unk_token))
      as (_ & _ & -> & _). }
  pose proof (inv_unk with_unk Hinv) as Hu. rewrite Hflag, Hunk in Hu.
  assert (unk_token = _unk_token with_unk) as Htok.
  { unfold with_unk. by rewrite add_many_snd, register_all_unk_token. }
  rewrite <- Htok in Hu.
  split; [done|]. split; [by apply lookup_token_known|]. split.
  - destruct (dict_get (_token_to_idx with_unk) t) as [i|] eqn:Hg.
    + exists i. split; [by apply lookup_token_known|].
      split; [by apply (inv_forward_range with_unk t)|].
      intros Hnot. exfalso. apply Hnot. apply dict_get_Some_elem in Hg.
      apply (list_elem_of_fmap_2 fst) in Hg. by apply Hkeys in Hg.
    + exists 0. rewrite (lookup_token_miss_unk _ _ Hinv Hflag Hg), Hunk.
      split; [done|]. split; [|done].
      by apply (inv_forward_range with_unk unk_token).
  - destruct (dict_get (_token_to_idx without) t) as [i|] eqn:Hg.
    + rewrite (lookup_token_known _ _ _ Hg). split; [done|].
      intros Hnot. exfalso. apply Hnot. apply dict_get_Some_elem in Hg.
      apply (list_elem_of_fmap_2 fst) in Hg. by apply Hkeys' in Hg.
    + rewrite (lookup_token_miss_no_unk _ _ Hinv' Hflag' Hg). split; [|done].
      intros _ Hin. apply dict_get_None in Hg. apply Hg, Hkeys'. by cbn.
Qed.

(** ** Vocabulary: the order of the indices *)

Lemma inv_numbered (v : Vocabulary) :
  vocab_inv v -> _token_to_idx v = numbered (_token_to_idx v).*1.
Proof.
  intros Hinv. apply list_eq. intros i. unfold numbered.
  rewrite list_lookup_imap, list_lookup_fmap.
  destruct ((_token_to_idx v : list (string * Z)) !! i) as [[t k]|] eqn:Hi;
    cbn; [|done].
  assert ((_token_to_idx v).*2 !! i = Some k) as Hk
    by (by rewrite list_lookup_fmap, Hi).
  rewrite (inv_indices v Hinv), list_lookup_fmap in Hk.
  apply lookup_lt_Some in Hi. rewrite lookup_seq_lt in Hk by done.
  cbn in Hk. by injection Hk as <-.
Qed.

Lemma filter_all {A : Type} (P : A -> Prop) `{!forall x, Decision (P x)}
    (l : list A) :
  (forall x, x ∈ l -> P x) -> filter P l = l.
Proof.
  induction l as [|x l IH]; intros Hall; [done|].
  rewrite filter_cons_True by (apply Hall, elem_of_cons; by left).
  f_equal. apply IH. intros y Hy. apply Hall, elem_of_cons. by right.
Qed.

Lemma register_all_keys (ts : list string) (v : Vocabulary) :
  (_token_to_idx (register_all ts v)).*1
  = (_token_to_idx v).*1
    ++ filter (fun t => t ∉ (_token_to_idx v).*1) (first_seen ts).
Proof.
  revert v. induction ts as [|t0 ts IH]; intros v.
  { cbn. by rewrite app_nil_r. }
  change (register_all (t0 :: ts) v) with (register_all ts (add_token v t0).2).
  rewrite IH, add_token_keys. cbn [first_seen].
  destruct (decide (t0 ∈ (_token_to_idx v).*1)) as [Hin|Hnin].
  - rewrite filter_cons_False by (intros Hn; by apply Hn).
    rewrite list_filter_filter. f_equal. apply list_filter_iff.
    intros x. split; [|tauto]. intros Hx. split; [done|]. by intros ->.
  - rewrite filter_cons_True by done.
    rewrite list_filter_filter, <- app_assoc. cbn. do 2 f_equal.
    apply list_filter_iff. intros x.
    rewrite elem_of_app, list_elem_of_singleton. tauto.
Qed.

(** X5. [from_dataframe] numbers the tokens in the order in which it first
    sees them: the forward map of the characters is the unknown token "@"
    followed by the distinct characters of the surnames, row after row, with
    the indices 0, 1, ...; the forward map of the labels is the distinct
    nationalities in the order of the rows, with the indices 0, 1, .... *)
Theorem from_dataframe_first_seen (rows : DataFrame) :
  _token_to_idx (surname_vocab (from_dataframe rows))
  = numbered (first_seen
                ("@"%string :: mjoin ((fun row => chars (surname row)) <$> rows)))
  /\ _token_to_idx (nationality_vocab (from_dataframe rows))
     = numbered (first_seen (nationality <$> rows))
  /\ Vocabulary_len (nationality_vocab (from_dataframe rows))
     = len (first_seen (nationality <$> rows)).
Proof.
  destruct (from_dataframe_inv rows) as (Hs & _ & Hn & _).
  assert (Hnat : _token_to_idx (nationality_vocab (from_dataframe rows))
                 = numbered (first_seen (nationality <$> rows))).
  { rewrite (inv_numbered _ Hn). f_equal.
    destruct (from_dataframe_vocabs rows) as [_ ->].
    rewrite register_all_keys. cbn.
    apply filter_all. intros x _. apply not_elem_of_nil. }
  split; [|split; [exact Hnat|]].
  - rewrite (inv_numbered _ Hs). f_equal.
    destruct (from_dataframe_vocabs rows) as [-> _].
    rewrite register_all_keys. cbn. f_equal.
    apply list_filter_iff. intros x. rewrite list_elem_of_singleton. tauto.
  - unfold Vocabulary_len, dict_len, len. rewrite Hnat. unfold numbered.
    by rewrite length_imap.
Qed.

(** ** The vectorizer and the dataset after saving and loading *)

Lemma for_each_ext {A B : Type} (f g : B -> A -> result B) (xs : list A) (acc : B) :
  (forall b x, f b x = g b x) -> for_each f xs acc = for_each g xs acc.
Proof.
  intros Hfg. revert acc. induction xs as [|x xs IH]; intros acc; cbn; [done|].
  rewrite Hfg. destruct (g acc x); cbn; [apply IH | done].
Qed.

Lemma map_each_ext {A B : Type} (f g : A -> result B) (xs : list A) :
  (forall x, f x = g x) -> map_each f xs = map_each g xs.
Proof.
  intros Hfg. induction xs as [|x xs IH]; cbn; [done|]. by rewrite Hfg, IH.
Qed.

(** Vectorization reads the forward map and the unknown index only. *)
Lemma vectorize_ext (vz vz' : SurnameVectorizer) (s : string) :
  _token_to_idx (surname_vocab vz') = _token_to_idx (surname_vocab vz) ->
  unk_index (surname_vocab vz') = unk_index (surname_vocab vz) ->
  vectorize vz' s = vectorize vz s.
Proof.
  intros Htti Hunk. unfold vectorize, Vocabulary_len. rewrite Htti.
  apply for_each_ext. intros a c. unfold lookup_token. by rewrite Htti, Hunk.
Qed.

Lemma reload_from_dataframe (rows : DataFrame) :
  let vz := from_dataframe rows in
  let vz' := vectorizer_from_serializable (vectorizer_to_serializable vz) in
  _token_to_idx (surname_vocab vz') = _token_to_idx (surname_vocab vz)
  /\ unk_index (surname_vocab vz') = unk_index (surname_vocab vz)
  /\ _token_to_idx (nationality_vocab vz') = _token_to_idx (nationality_vocab vz)
  /\ unk_index (nationality_vocab vz') = unk_index (nationality_vocab vz).
Proof.
  intros vz vz'. destruct (from_dataframe_inv rows) as (Hs & _ & Hn & _).
  destruct (reload_fields _ Hs) as (Hs1 & Hs2 & _).
  destruct (reload_fields _ Hn) as (Hn1 & Hn2 & _). done.
Qed.

(** X6. Writing the vectorizer of [from_dataframe] to its record and reading
    it back changes neither the vector of any surname nor the index of any
    nationality nor the sizes of the two vocabularies. *)
Theorem vectorizer_roundtrip_forward (rows : DataFrame) (s n : string) :
  let vz := from_dataframe rows in
  let vz' := vectorizer_from_serializable (vectorizer_to_serializable vz) in
  vectorize vz' s = vectorize vz s
  /\ lookup_token (nationality_vocab vz') n = lookup_token (nationality_vocab vz) n
  /\ Vocabulary_len (surname_vocab vz') = Vocabulary_len (surname_vocab vz)
  /\ Vocabulary_len (nationality_vocab vz') = Vocabulary_len (nationality_vocab vz).
Proof.
  intros vz vz'. destruct (reload_from_dataframe rows) as (Hs1 & Hs2 & Hn1 & Hn2).
  fold vz vz' in Hs1, Hs2, Hn1, Hn2.
  split; [by apply vectorize_ext|]. unfold lookup_token, Vocabulary_len.
  by rewrite Hs1, Hn1, Hn2.
Qed.

Lemma SurnameDataset_init_ext (rows : DataFrame) (vz vz' : SurnameVectorizer)
    (ds : SurnameDataset) :
  (forall n, lookup_token (nationality_vocab vz') n
             = lookup_token (nationality_vocab vz) n) ->
  SurnameDataset_init rows vz = Ok ds ->
  SurnameDataset_init rows vz' = Ok (with_vectorizer ds vz').
Proof.
  intros Hlookup Hinit.
  apply SurnameDataset_init_Ok in Hinit as (sc & Hsorted & ->).
  unfold SurnameDataset_init, set_split, dict_getitem. cbn.
  rewrite decide_True by done. cbn.
  unfold sorted in *.
  rewrite (map_each_ext _ (fun item : string * Z =>
             lookup_token (nationality_vocab vz) item.1)) by (intros; apply Hlookup).
  unfold dict_items.
  destruct (map_each _ (value_counts (nationality <$> rows))) as [keys|e];
    [|done].
  cbn in *. by injection Hsorted as <-.
Qed.

Lemma set_split_with_vectorizer (ds ds1 : SurnameDataset) (vz' : SurnameVectorizer)
    (name : option string) :
  set_split ds name = Ok ds1 ->
  set_split (with_vectorizer ds vz') name = Ok (with_vectorizer ds1 vz').
Proof.
  unfold set_split. cbn.
  destruct (dict_getitem (_lookup_dict ds) (default "train"%string name));
    cbn; [|done]. by intros [= <-].
Qed.

Lemma set_splits_with_vectorizer (names : list (option string))
    (ds ds1 : SurnameDataset) (vz' : SurnameVectorizer) :
  for_each set_split names ds = Ok ds1 ->
  for_each set_split names (with_vectorizer ds vz') = Ok (with_vectorizer ds1 vz').
Proof.
  revert ds. induction names as [|name names IH]; intros ds; cbn.
  { by intros [= <-]. }
  intros Hrun. apply bind_Ok in Hrun as (ds0 & Hset & Hrun).
  rewrite (set_split_with_vectorizer _ _ vz' _ Hset). cbn. by apply IH.
Qed.

(** X7. A dataset made with [load_dataset_and_make_vectorizer] and one made
    from the same rows with the vectorizer the first one saves have the same
    class weights, and after the same [set_split] calls the same size and
    the same items. *)
Theorem reloaded_dataset_is_the_same (rows : DataFrame) (ds : SurnameDataset) :
  load_dataset_and_make_vectorizer rows = Ok ds ->
  exists ds' : SurnameDataset,
    load_dataset_and_load_vectorizer rows
      (vectorizer_to_serializable (get_vectorizer ds)) = Ok ds'
    /\ class_weights ds' = class_weights ds
    /\ forall (names : list (option string)) (ds1 : SurnameDataset),
         for_each set_split names ds = Ok ds1 ->
         exists ds1' : SurnameDataset,
           for_each set_split names ds' = Ok ds1'
           /\ SurnameDataset_len ds1' = SurnameDataset_len ds1
           /\ forall i, SurnameDataset_getitem ds1' i = SurnameDataset_getitem ds1 i.
Proof.
  unfold load_dataset_and_make_vectorizer, load_dataset_and_load_vectorizer.
  intros Hinit.
  destruct (SurnameDataset_init_inv _ _ _ Hinit) as (Hinv & _ & Hvz & _).
  unfold get_vectorizer. rewrite Hvz.
  set (vz := from_dataframe (where_split rows "train")) in *.
  set (vz' := vectorizer_from_serializable (vectorizer_to_serializable vz)).
  destruct (reload_from_dataframe (where_split rows "train"))
    as (Hs1 & Hs2 & Hn1 & Hn2). fold vz vz' in Hs1, Hs2, Hn1, Hn2.
  assert (Hlookup : forall n, lookup_token (nationality_vocab vz') n
                              = lookup_token (nationality_vocab vz) n).
  { intros n. unfold lookup_token. by rewrite Hn1, Hn2. }
  exists (with_vectorizer ds vz').
  split; [exact (SurnameDataset_init_ext rows vz vz' ds Hlookup Hinit)|].
  split; [done|].
  intros names ds1 Hrun. exists (with_vectorizer ds1 vz').
  split; [by apply set_splits_with_vectorizer|]. split; [done|].
  intros i. destruct (set_splits_inv names ds ds1 Hinv Hrun) as (_ & _ & Hvz1).
  unfold SurnameDataset_getitem. cbn. rewrite Hvz1, Hvz.
  destruct (array_getitem (_target_df ds1) i) as [row|e]; cbn; [|done].
  by rewrite (vectorize_ext vz vz'), Hlookup.
Qed.

Lemma reloaded_dataset_is_the_same_witness :
  exists ds ds' : SurnameDataset,
    load_dataset_and_make_vectorizer example_rows = Ok ds
    /\ load_dataset_and_load_vectorizer example_rows
         (vectorizer_to_serializable (get_vectorizer ds)) = Ok ds'
    /\ class_weights ds' = class_weights ds.
Proof.
  eexists.
  destruct (reloaded_dataset_is_the_same example_rows _ eq_refl)
    as (ds' & Hload & Hweights & _).
  exists ds'. split; [reflexivity|]. split; [exact Hload | exact Hweights].
Defined.

(** ** Vectorization of a concatenation *)

Lemma chars_app (s1 s2 : string) : chars (s1 ++ s2) = chars s1 ++ chars s2.
Proof.
  induction s1 as [|c s1 IH]; [done|].
  change (String c s1 +:+ s2) with (String c (s1 +:+ s2)). cbn [chars].
  by rewrite IH.
Qed.

Lemma lookup_marked_zeros (ps : list nat) (n : Z) (i : nat) :
  mark_all ps (np_zeros n) !! i =
  if decide (i < Z.to_nat n)%nat
  then Some (if bool_decide (i ∈ ps) then 1%Q else 0%Q)
  else None.
Proof.
  rewrite lookup_mark_all. unfold np_zeros.
  destruct (decide (i < Z.to_nat n)%nat) as [Hlt|Hge].
  - rewrite lookup_replicate_2 by done. by case_bool_decide.
  - rewrite (proj1 (lookup_replicate_None _ _ _)) by lia. by case_bool_decide.
Qed.

(** X8. With the unknown token enabled and every index of the character
    vocabulary below its size, the vector of a concatenation is the union of
    the vectors of the parts: it has a 1 exactly where one of them has, and
    every entry of a vector is 0 or 1. *)
Theorem vectorize_concatenation (vz : SurnameVectorizer) (s1 s2 : string) :
  indices_in_range (surname_vocab vz) -> unk_in_range (surname_vocab vz) ->
  exists v1 v2 v : list float,
    vectorize vz s1 = Ok v1 /\ vectorize vz s2 = Ok v2
    /\ vectorize vz (s1 ++ s2) = Ok v
    /\ (forall i : nat,
          v !! i = Some 1%Q <-> v1 !! i = Some 1%Q \/ v2 !! i = Some 1%Q)
    /\ Forall (fun x => x = 0%Q \/ x = 1%Q) v.
Proof.
  intros Hrange Hunk. do 3 eexists.
  split; [by apply vectorize_mark_all|].
  split; [by apply vectorize_mark_all|].
  split; [by apply vectorize_mark_all|].
  rewrite chars_app, fmap_app. split.
  - intros i. rewrite !lookup_marked_zeros.
    destruct (decide (i < Z.to_nat (Vocabulary_len (surname_vocab vz)))%nat);
      [|by intuition].
    repeat case_bool_decide; rewrite ?elem_of_app in *;
      split; intros; try done; intuition; try discriminate.
  - apply Forall_lookup. intros i x. rewrite lookup_marked_zeros.
    destruct (decide _); [|done]. intros [= <-]. case_bool_decide; by eauto.
Qed.

Lemma vectorize_concatenation_witness :
  exists v1 v2 v : list float,
    vectorize example_vectorizer "a" = Ok v1
    /\ vectorize example_vectorizer "bz" = Ok v2
    /\ vectorize example_vectorizer "abz" = Ok v
    /\ (forall i : nat,
          v !! i = Some 1%Q <-> v1 !! i = Some 1%Q \/ v2 !! i = Some 1%Q)
    /\ Forall (fun x => x = 0%Q \/ x = 1%Q) v.
Proof.
  apply (vectorize_concatenation example_vectorizer "a" "bz").
  - apply (bool_decide_unpack _). vm_compute. reflexivity.
  - apply (bool_decide_unpack _). vm_compute. reflexivity.
Defined.

(** ** The dataset: splits, items and weights *)

(** X9. On a dataset built by [__init__] and moved between its splits,
    [set_split] with one of the names "train", "val" and "test" succeeds and
    makes the rows with that split the active view; with any other name it
    raises [KeyError]. *)
Theorem set_split_names (rows : DataFrame) (vz : SurnameVectorizer)
    (ds0 ds : SurnameDataset) (names : list (option string)) (name : string) :
  SurnameDataset_init rows vz = Ok ds0 ->
  for_each set_split names ds0 = Ok ds ->
  (name ∈ ["train"; "val"; "test"]%string ->
     exists ds' : SurnameDataset,
       set_split ds (Some name) = Ok ds'
       /\ _target_split ds' = name
       /\ _target_df ds' = where_split rows name
       /\ SurnameDataset_len ds' = len (where_split rows name))
  /\ (name ∉ ["train"; "val"; "test"]%string ->
        set_split ds (Some name) = Raise KeyError).
Proof.
  intros Hinit Hrun.
  destruct (SurnameDataset_init_inv rows vz ds0 Hinit) as (Hinv0 & Hdf0 & _).
  destruct (set_splits_inv names ds0 ds Hinv0 Hrun) as (Hinv & Hdf & _).
  split.
  - intros Hname.
    assert (exists ds', set_split ds (Some name) = Ok ds') as [ds' Hset].
    { unfold set_split, dict_getitem. rewrite (inv_lookup_dict ds Hinv). cbn.
      rewrite !elem_of_cons, elem_of_nil in Hname.
      destruct Hname as [->|[->|[->|[]]]]; cbn; eauto. }
    exists ds'. split; [done|].
    destruct (set_split_inv ds ds' (Some name) Hinv Hset)
      as (Hinv' & Hdf' & _ & Hsplit'). cbn in Hsplit'.
    pose proof (dataset_inv_len ds' Hinv') as Hlen.
    pose proof (inv_target_df ds' Hinv') as Htarget.
    rewrite Hdf', Hdf, Hdf0, Hsplit' in Hlen, Htarget. done.
  - intros Hname. rewrite !not_elem_of_cons in Hname.
    destruct Hname as (Htrain & Hval & Htest & _).
    unfold set_split, dict_getitem. rewrite (inv_lookup_dict ds Hinv). cbn.
    by rewrite !decide_False by done.
Qed.

Lemma set_split_names_witness :
  exists ds0 ds' : SurnameDataset,
    SurnameDataset_init example_rows example_vectorizer = Ok ds0
    /\ set_split ds0 (Some "test"%string) = Ok ds'
    /\ SurnameDataset_len ds' = 2
    /\ set_split ds0 (Some "dev"%string) = Raise KeyError.
Proof.
  eexists.
  destruct (set_split_names example_rows example_vectorizer _ _ [] "test"
              eq_refl eq_refl) as [Hok _].
  destruct (set_split_names example_rows example_vectorizer _ _ [] "dev"
              eq_refl eq_refl) as [_ Hbad].
  destruct Hok as (ds' & Hset & _ & _ & Hlen).
  { rewrite !elem_of_cons. tauto. }
  exists ds'. split; [reflexivity|]. split; [exact Hset|]. split; [exact Hlen|].
  apply Hbad. rewrite !not_elem_of_cons. repeat split; try discriminate.
  apply not_elem_of_nil.
Defined.

Lemma length_where_split_cons (row : Row) (rows : DataFrame) (name : string) :
  len (where_split (row :: rows) name)
  = (if decide (split row = name) then 1 else 0) + len (where_split rows name).
Proof.
  unfold where_split, len, DataFrame.
  destruct (decide (split row = name)) as [Heq|Hne].
  - rewrite filter_cons_True by done. cbn. lia.
  - rewrite filter_cons_False by done. lia.
Qed.

Lemma split_sizes_sum (rows : list Row) :
  len (where_split rows "train") + len (where_split rows "val")
  + len (where_split rows "test")
  = len (filter (fun row => split row ∈ ["train"; "val"; "test"]%string) rows).
Proof.
  induction rows as [|row rows IH]; [done|].
  rewrite !length_where_split_cons. unfold len in *.
  destruct (decide (split row ∈ ["train"; "val"; "test"]%string)) as [Hin|Hnin].
  - rewrite filter_cons_True by done. cbn [length].
    rewrite !elem_of_cons, elem_of_nil in Hin.
    destruct Hin as [Hs|[Hs|[Hs|[]]]]; rewrite Hs;
      repeat case_decide; first [discriminate | done | lia].
  - rewrite filter_cons_False by done.
    rewrite !not_elem_of_cons in Hnin. destruct Hnin as (H1 & H2 & H3 & _).
    rewrite !decide_False by done. lia.
Qed.

(** X10. After [__init__] the three sizes are the numbers of rows with the
    splits "train", "val" and "test"; a row with any other split is in no
    view, so the sizes add up to the number of rows with one of the three
    splits, which is at most the number of rows. *)
Theorem split_sizes (rows : DataFrame) (vz : SurnameVectorizer)
    (ds : SurnameDataset) :
  SurnameDataset_init rows vz = Ok ds ->
  train_size ds = len (where_split rows "train")
  /\ validation_size ds = len (where_split rows "val")
  /\ test_size ds = len (where_split rows "test")
  /\ train_size ds + validation_size ds + test_size ds
     = len (filter (fun row => split row ∈ ["train"; "val"; "test"]%string) rows)
  /\ train_size ds + validation_size ds + test_size ds <= len rows.
Proof.
  intros Hinit. apply SurnameDataset_init_Ok in Hinit as (sc & _ & ->). cbn.
  split; [done|]. split; [done|]. split; [done|].
  pose proof (split_sizes_sum rows) as Hsum.
  split; [exact Hsum|]. rewrite Hsum. unfold len.
  pose proof (length_filter
                (fun row => split row ∈ ["train"; "val"; "test"]%string) rows).
  lia.
Qed.

Lemma split_sizes_witness :
  exists ds : SurnameDataset,
    SurnameDataset_init (mkRow "c" "X" "dev" :: example_rows) example_vectorizer
    = Ok ds
    /\ train_size ds + validation_size ds + test_size ds = 5.
Proof.
  eexists. split; [vm_compute; reflexivity|].
  exact (proj1 (proj2 (proj2 (proj2
           (split_sizes (mkRow "c" "X" "dev" :: example_rows)
                        example_vectorizer _ eq_refl))))).
Defined.

Lemma load_dataset_facts (rows : DataFrame) (ds : SurnameDataset) :
  load_dataset_and_make_vectorizer rows = Ok ds ->
  dataset_inv ds /\ surname_df ds = rows
  /\ vocab_inv (surname_vocab (_vectorizer ds))
  /\ _add_unk (surname_vocab (_vectorizer ds)) = true
  /\ vocab_inv (nationality_vocab (_vectorizer ds))
  /\ forall n, n ∈ nationality <$> rows ->
       exists i, dict_get (_token_to_idx (nationality_vocab (_vectorizer ds))) n
                 = Some i.
Proof.
  unfold load_dataset_and_make_vectorizer. intros Hinit.
  destruct (SurnameDataset_init_inv _ _ _ Hinit) as (Hinv & Hdf & Hvz & _).
  destruct (from_dataframe_inv (where_split rows "train"))
    as (Hs & Hsunk & Hn & Hnunk & Hkeys).
  rewrite Hvz. split; [done|]. split; [done|]. split; [done|].
  split; [done|]. split; [done|]. intros n Hin.
  assert (Hsub : forall n, n ∈ (_token_to_idx (nationality_vocab
                     (from_dataframe (where_split rows "train")))).*1 ->
                   n ∈ nationality <$> rows).
  { intros m Hm. apply Hkeys in Hm.
    apply list_elem_of_fmap in Hm as (row & -> & Hrow).
    apply list_elem_of_filter in Hrow as [_ Hrow]. by apply list_elem_of_fmap_2. }
  destruct (class_weights_of_init rows _ ds Hn Hnunk Hsub Hinit) as [_ Hw].
  destruct (Hw n Hin) as (i & Hi & _). exists i.
  by apply lookup_token_no_unk.
Qed.

Lemma getitem_fetches_row (rows : DataFrame) (ds0 ds : SurnameDataset)
    (names : list (option string)) (i : Z) (row : Row) :
  load_dataset_and_make_vectorizer rows = Ok ds0 ->
  for_each set_split names ds0 = Ok ds ->
  0 <= i -> where_split rows (_target_split ds) !! Z.to_nat i = Some row ->
  exists (x : list float) (y : Z),
    SurnameDataset_getitem ds i = Ok (x, y)
    /\ vectorize (_vectorizer ds) (surname row) = Ok x
    /\ len x = Vocabulary_len (surname_vocab (_vectorizer ds))
    /\ lookup_index (nationality_vocab (_vectorizer ds)) y = Ok (nationality row).
Proof.
  intros Hload Hrun Hi Hrow.
  destruct (load_dataset_facts rows ds0 Hload)
    as (Hinv0 & Hdf0 & Hs & Hsunk & Hn & Hknown).
  destruct (set_splits_inv names ds0 ds Hinv0 Hrun) as (Hinv & Hdf & Hvz).
  assert (Htarget : _target_df ds = where_split rows (_target_split ds)).
  { rewrite (inv_target_df ds Hinv). by rewrite Hdf, Hdf0. }
  unfold SurnameDataset_getitem. rewrite Htarget, Hvz.
  set (vz := _vectorizer ds0) in *.
  rewrite (array_getitem_in_range _ i row Hi Hrow). cbn [bind].
  pose proof (inv_indices_in_range _ Hs) as Hrange.
  pose proof (inv_unk_in_range _ Hs Hsunk) as Hunk.
  rewrite (vectorize_mark_all vz (surname row) Hrange Hunk). cbn [bind].
  destruct (Hknown (nationality row)) as [y Hy].
  { apply list_elem_of_fmap_2. apply list_elem_of_lookup_2 in Hrow.
    by apply list_elem_of_filter in Hrow as [_ Hrow]. }
  rewrite (lookup_token_known _ _ _ Hy). cbn [bind].
  eexists _, y. split; [reflexivity|]. split; [reflexivity|]. split.
  - unfold len, Vocabulary_len, dict_len, np_zeros.
    by rewrite length_mark_all, length_replicate, Nat2Z.id.
  - rewrite lookup_index_get.
    by rewrite (proj2 (inv_inverse_get _ _ y Hn) Hy).
Qed.

(** X11. In a dataset made with [load_dataset_and_make_vectorizer] and
    moved between its splits, every row of the active split can be fetched:
    the item holds the vector of the surname, as long as the character
    vocabulary, and an index that [lookup_index] maps back to the
    nationality of the row.  An index at or beyond the size, or below minus
    the size, raises [IndexError]; a negative index counts from the end. *)
Theorem getitem_of_loaded_dataset (rows : DataFrame) (ds0 ds : SurnameDataset)
    (names : list (option string)) :
  load_dataset_and_make_vectorizer rows = Ok ds0 ->
  for_each set_split names ds0 = Ok ds ->
  let view := where_split rows (_target_split ds) in
  let vz := get_vectorizer ds in
  (forall (i : Z) (row : Row),
      0 <= i -> view !! Z.to_nat i = Some row ->
      exists (x : list float) (y : Z),
        SurnameDataset_getitem ds i = Ok (x, y)
        /\ vectorize vz (surname row) = Ok x
        /\ len x = Vocabulary_len (surname_vocab vz)
        /\ lookup_index (nationality_vocab vz) y = Ok (nationality row))
  /\ (forall i : Z, len view <= i \/ i < - len view ->
        SurnameDataset_getitem ds i = Raise IndexError)
  /\ (forall i : Z, - len view <= i < 0 ->
        SurnameDataset_getitem ds i = SurnameDataset_getitem ds (len view + i)).
Proof.
  intros Hload Hrun view vz.
  destruct (load_dataset_facts rows ds0 Hload) as (Hinv0 & Hdf0 & _).
  destruct (set_splits_inv names ds0 ds Hinv0 Hrun) as (Hinv & Hdf & Hvz).
  assert (Htarget : _target_df ds = view).
  { rewrite (inv_target_df ds Hinv). by rewrite Hdf, Hdf0. }
  split; [|unfold SurnameDataset_getitem; rewrite Htarget; split].
  - intros i row Hi Hrow.
    exact (getitem_fetches_row rows ds0 ds names i row Hload Hrun Hi Hrow).
  - intros i Hi. unfold array_getitem, normalize_index.
    destruct (Z.leb_spec 0 i), (Z.ltb_spec i (len view)),
      (Z.leb_spec (- len view) i), (Z.ltb_spec i 0); cbn; try done; lia.
  - intros i Hi. unfold array_getitem, normalize_index.
    assert (0 <= len view) by (unfold len; lia).
    destruct (Z.leb_spec 0 i); [lia|]. cbn.
    destruct (Z.leb_spec (- len view) i); [|lia].
    destruct (Z.ltb_spec i 0); [|lia]. cbn.
    destruct (Z.leb_spec 0 (len view + i)); [|lia].
    destruct (Z.ltb_spec (len view + i) (len view)); [|lia]. done.
Qed.

Lemma getitem_of_loaded_dataset_witness :
  exists ds0 : SurnameDataset,
    load_dataset_and_make_vectorizer example_rows = Ok ds0
    /\ SurnameDataset_getitem ds0 2 = Raise IndexError
    /\ SurnameDataset_getitem ds0 (-1) = SurnameDataset_getitem ds0 1.
Proof.
  eexists. split; [vm_compute; reflexivity|].
  destruct (getitem_of_loaded_dataset example_rows _ _ [] eq_refl eq_refl)
    as (_ & Hout & Hneg).
  split.
  - apply (Hout 2). left. vm_compute. discriminate.
  - apply (Hneg (-1)). vm_compute. split; [discriminate | reflexivity].
Defined.

(** ** Class weights of any dataset *)

Lemma reciprocal_in_unit_interval (c : Z) :
  1 <= c -> (0 < 1 / inject_Z c)%Q /\ (1 / inject_Z c <= 1)%Q.
Proof.
  intros Hc. destruct c as [|p|p]; try lia.
  unfold Qlt, Qle, Qdiv, Qmult, Qinv, inject_Z. cbn. lia.
Qed.

(** X12. Whenever [__init__] succeeds, whatever the vectorizer, there is
    one class weight for every distinct nationality of the rows, and every
    weight is positive and at most 1: no label is counted zero times. *)
Theorem class_weights_in_unit_interval (rows : DataFrame)
    (vz : SurnameVectorizer) (ds : SurnameDataset) :
  SurnameDataset_init rows vz = Ok ds ->
  Forall (fun w => (0 < w)%Q /\ (w <= 1)%Q) (class_weights ds)
  /\ length (class_weights ds) = length (remove_dups (nationality <$> rows)).
Proof.
  intros Hinit. apply SurnameDataset_init_Ok in Hinit as (sc & Hsorted & ->).
  cbn [class_weights].
  set (col := nationality <$> rows) in *.
  destruct (value_counts_spec col) as (Hnd & Hkeys & Hcount).
  unfold sorted, dict_items in Hsorted.
  apply bind_Ok in Hsorted as (keys & Hrun & [= <-]).
  apply map_each_Ok, Forall2_length in Hrun.
  assert (Hperm : (sort_by (fun a b : Z * (string * Z) => a.1 <=? b.1)
                     (zip keys (value_counts col))).*2 ≡ₚ value_counts col).
  { rewrite sort_by_Permutation. by rewrite snd_zip by lia. }
  split.
  - unfold reciprocals. apply Forall_fmap, Forall_fmap. rewrite Hperm.
    apply Forall_forall. intros [x c] Hin. cbn.
    apply reciprocal_in_unit_interval. rewrite (Hcount _ _ Hin).
    assert (0 < occurrences col x); [|lia].
    apply occurrences_pos, Hkeys. by apply (list_elem_of_fmap_2 fst) in Hin.
  - unfold reciprocals. rewrite 2!length_fmap, Hperm.
    rewrite <- (length_fmap fst). apply Permutation_length.
    apply NoDup_Permutation; [done | apply NoDup_remove_dups|].
    intros x. by rewrite Hkeys, elem_of_remove_dups.
Qed.

Lemma class_weights_in_unit_interval_witness :
  exists ds : SurnameDataset,
    SurnameDataset_init example_rows example_vectorizer = Ok ds
    /\ Forall (fun w => (0 < w)%Q /\ (w <= 1)%Q) (class_weights ds)
    /\ length (class_weights ds) = 2%nat.
Proof.
  eexists. split; [vm_compute; reflexivity|].
  exact (class_weights_in_unit_interval example_rows example_vectorizer _ eq_refl).
Defined.

(** ** Batches *)

Lemma batch_sampler_drop_last (batch_size : Z) (sampler batch : list Z) :
  0 < batch_size -> len batch < batch_size ->
  let groups := batch_sampler batch_size true sampler batch in
  len groups = (len batch + len sampler) / batch_size
  /\ Forall (fun g => len g = batch_size) groups
  /\ len (mjoin groups) = len groups * batch_size
  /\ exists rest, batch ++ sampler = mjoin groups ++ rest.
Proof.
  intros Hpos. revert batch.
  induction sampler as [|idx sampler IH]; intros batch Hlt; cbn [batch_sampler].
  { rewrite andb_false_r. unfold len in *. cbn.
    rewrite Z.add_0_r, Z.div_small by lia.
    split; [done|]. split; [constructor|]. split; [lia|]. by eexists. }
  assert (Hlen : len (batch ++ [idx]) = len batch + 1).
  { unfold len. rewrite length_app. cbn. lia. }
  destruct (Z.eqb_spec (len (batch ++ [idx])) batch_size) as [Heq|Hne].
  - destruct (IH []) as (Hn & Hall & Hjoin & rest & Hrest).
    { unfold len. cbn. lia. }
    set (groups := batch_sampler batch_size true sampler []) in *.
    split; [|split; [|split]].
    + unfold len in *. cbn [length] in *.
      replace (Z.of_nat (length batch) + Z.of_nat (S (length sampler)))
        with (Z.of_nat (length sampler) + 1 * batch_size) by lia.
      rewrite Z.div_add by lia.
      replace (Z.of_nat 0 + Z.of_nat (length sampler))
        with (Z.of_nat (length sampler)) in Hn by lia.
      lia.
    + by constructor.
    + change (mjoin ((batch ++ [idx]) :: groups))
        with ((batch ++ [idx]) ++ mjoin groups).
      unfold len in *. cbn [length].
      rewrite length_app, Nat2Z.inj_add, Nat2Z.inj_succ, Z.mul_succ_l.
      by rewrite Heq, Hjoin, Z.add_comm.
    + exists rest.
      change (mjoin ((batch ++ [idx]) :: groups))
        with ((batch ++ [idx]) ++ mjoin groups).
      rewrite <- !app_assoc. cbn in Hrest. by rewrite <- Hrest.
  - destruct (IH (batch ++ [idx])) as (Hn & Hall & Hjoin & rest & Hrest); [lia|].
    split; [|split; [done|split; [done|]]].
    + rewrite Hn, Hlen. unfold len. cbn [length]. f_equal. lia.
    + exists rest. by rewrite <- Hrest, <- app_assoc.
Qed.

Lemma yield_each_total {A B : Type} (f : A -> result B) (xs : list A) :
  Forall (fun x => exists y, f x = Ok y) xs ->
  exists ys, yield_each f xs = (ys, None) /\ Forall2 (fun x y => f x = Ok y) xs ys.
Proof.
  induction 1 as [|x xs [y Hy] _ (ys & Hys & Hall)]; cbn.
  { eexists. split; [done | constructor]. }
  rewrite Hy, Hys. cbn. eexists. split; [done|]. by constructor.
Qed.

Lemma map_each_app {A B : Type} (f : A -> result B) (l1 l2 : list A)
    (ys1 ys2 : list B) :
  map_each f l1 = Ok ys1 -> map_each f l2 = Ok ys2 ->
  map_each f (l1 ++ l2) = Ok (ys1 ++ ys2).
Proof.
  revert ys1. induction l1 as [|x l1 IH]; intros ys1; cbn.
  { by intros [= <-]. }
  intros H1 H2. apply bind_Ok in H1 as (y & Hy & H1).
  apply bind_Ok in H1 as (ys & Hys & [= <-]).
  rewrite Hy. cbn. by rewrite (IH ys Hys H2).
Qed.

Lemma mjoin_cons {A : Type} (x : list A) (l : list (list A)) :
  mjoin (x :: l) = x ++ mjoin l.
Proof. done. Qed.

Lemma fetched_batches_items (ds : SurnameDataset) (groups : list (list Z))
    (batches : list Batch) :
  Forall2 (fun g b => fetch_batch ds g = Ok b) groups batches ->
  exists items,
    map_each (SurnameDataset_getitem ds) (mjoin groups) = Ok items
    /\ mjoin (x_surname <$> batches) = items.*1
    /\ mjoin (y_nationality <$> batches) = items.*2.
Proof.
  induction 1 as [|g b groups batches Hb _ (items & Hitems & Hx & Hy)].
  { by exists []. }
  unfold fetch_batch in Hb. apply bind_Ok in Hb as (its & Hits & [= <-]).
  exists (its ++ items). rewrite !fmap_cons, !mjoin_cons.
  split; [by apply map_each_app|].
  cbn [x_surname y_nationality]. by rewrite Hx, Hy, !fmap_app.
Qed.

(** X13. For a dataset made with [load_dataset_and_make_vectorizer] whose
    active split has at least one row, a positive batch size and any order
    of the indices of the active split, [generate_batches] with
    [drop_last] ends without an exception, yields
    exactly [get_num_batches] batches, each with [batch_size] rows, and the
    batches hold, in order, the items at the first indices of the sampler:
    no item twice, and only the items of an incomplete last batch left
    out. *)
Theorem generate_batches_full_batches (rows : DataFrame)
    (ds0 ds : SurnameDataset) (names : list (option string))
    (batch_size : Z) (sampler : list Z) :
  load_dataset_and_make_vectorizer rows = Ok ds0 ->
  for_each set_split names ds0 = Ok ds ->
  0 < batch_size ->
  0 < SurnameDataset_len ds ->
  sampler ≡ₚ seqZ 0 (SurnameDataset_len ds) ->
  exists batches : list Batch,
    generate_batches ds batch_size sampler true = (batches, None)
    /\ get_num_batches ds batch_size = Ok (len batches)
    /\ Forall (fun b => len (x_surname b) = batch_size
                        /\ len (y_nationality b) = batch_size) batches
    /\ exists items,
         map_each (SurnameDataset_getitem ds)
                  (take (Z.to_nat (len batches * batch_size)) sampler) = Ok items
         /\ mjoin (x_surname <$> batches) = items.*1
         /\ mjoin (y_nationality <$> batches) = items.*2.
Proof.
  intros Hload Hrun Hpos _ Hperm.
  destruct (load_dataset_facts rows ds0 Hload) as (Hinv0 & Hdf0 & _).
  destruct (set_splits_inv names ds0 ds Hinv0 Hrun) as (Hinv & Hdf & _).
  pose proof (dataset_inv_len ds Hinv) as Hlen. rewrite Hdf, Hdf0 in Hlen.
  assert (Hsize : len sampler = SurnameDataset_len ds).
  { unfold len. rewrite Hperm, length_seqZ, Hlen. unfold len. lia. }
  destruct (batch_sampler_drop_last batch_size sampler [] Hpos)
    as (Hn & Hall & Hjoin & rest & Hrest).
  { unfold len. cbn. lia. }
  set (groups := batch_sampler batch_size true sampler []) in *.
  cbn in Hrest.
  assert (Hvalid : Forall (fun i => exists item, SurnameDataset_getitem ds i = Ok item)
                          sampler).
  { apply Forall_forall. intros i Hi. rewrite Hperm in Hi.
    apply elem_of_seqZ in Hi. rewrite Hlen in Hi.
    destruct (lookup_lt_is_Some_2 (where_split rows (_target_split ds))
                (Z.to_nat i)) as [row Hrow].
    { unfold len in Hi. lia. }
    destruct (getitem_fetches_row rows ds0 ds names i row Hload Hrun)
      as (x & y & Hitem & _); [lia | done |]. by eexists. }
  assert (Hfetch : Forall (fun g => exists b, fetch_batch ds g = Ok b) groups).
  { apply Forall_forall. intros g Hg.
    destruct (map_each_total (SurnameDataset_getitem ds) g) as [items Hitems].
    - apply Forall_forall. intros i Hi.
      apply (proj1 (Forall_forall _ _) Hvalid). rewrite Hrest.
      apply elem_of_app. left. apply list_elem_of_join. by exists g.
    - unfold fetch_batch. rewrite Hitems. cbn. by eexists. }
  destruct (yield_each_total _ _ Hfetch) as (batches & Hyield & Hbatches).
  exists batches. unfold generate_batches.
  destruct (Z.leb_spec batch_size 0); [lia|]. fold groups.
  split; [done|].
  assert (Hcount : len batches = len groups).
  { unfold len. by rewrite (Forall2_length _ _ _ Hbatches). }
  split; [|split].
  - unfold get_num_batches. rewrite floordiv_positive by done.
    rewrite Hcount, Hn, <- Hsize. unfold len. by cbn.
  - clear -Hbatches Hall. induction Hbatches as [|g b gs bs Hb _ IH];
      [constructor|].
    apply Forall_cons in Hall as [Hg Hall]. constructor; [|by apply IH].
    unfold fetch_batch in Hb. apply bind_Ok in Hb as (items & Hitems & [= <-]).
    apply map_each_Ok, Forall2_length in Hitems. cbn.
    unfold len in *. rewrite !length_fmap. lia.
  - destruct (fetched_batches_items ds groups batches Hbatches)
      as (items & Hitems & Hx & Hy).
    exists items. split; [|done].
    rewrite Hcount, <- Hjoin, Hrest. unfold len. rewrite Nat2Z.id.
    by rewrite take_app_length.
Qed.

Lemma generate_batches_full_batches_witness :
  exists (ds0 : SurnameDataset) (batches : list Batch),
    load_dataset_and_make_vectorizer example_rows = Ok ds0
    /\ generate_batches ds0 1 [1; 0] true = (batches, None)
    /\ get_num_batches ds0 1 = Ok (len batches).
Proof.
  eexists.
  destruct (generate_batches_full_batches example_rows _ _ [] 1 [1; 0]
              eq_refl eq_refl eq_refl eq_refl) as (batches & Hrun & Hcount & _).
  { vm_compute. apply Permutation_swap. }
  exists batches. split; [reflexivity|]. split; [exact Hrun | exact Hcount].
Defined.

(** ** The bookkeeping of one epoch *)

Lemma last_two_long {A : Type} (l : list A) :
  (2 <= length l)%nat -> exists a b, last_two l = [a; b].
Proof.
  intros Hlen. unfold last_two.
  assert (length (drop (length l - 2) l) = 2%nat) as Hdrop
    by (rewrite length_drop; lia).
  destruct (drop (length l - 2) l) as [|a [|b [|c k]]]; try done. by eexists _, _.
Qed.

Lemma last_two_short {A : Type} (l : list A) :
  (length l < 2)%nat -> unpack2 (last_two l) = Raise ValueError.
Proof.
  intros Hlen. unfold last_two.
  replace (length l - 2)%nat with 0%nat by lia. rewrite drop_0.
  by destruct l as [|a [|b k]]; [| |cbn in Hlen; lia].
Qed.

Lemma update_train_state_Ok {Params : Type} (args : Args) (model : Params)
    (st st' : TrainState) (disk disk' : Disk Params) :
  update_train_state args model st disk = Ok (st', disk') ->
  early_stopping_best_val st' = early_stopping_best_val st
  /\ learning_rate st' = learning_rate st
  /\ epoch_index st' = epoch_index st
  /\ train_loss st' = train_loss st /\ train_acc st' = train_acc st
  /\ val_loss st' = val_loss st /\ val_acc st' = val_acc st
  /\ test_loss st' = test_loss st /\ test_acc st' = test_acc st
  /\ model_filename st' = model_filename st
  /\ (disk' = disk \/ disk' = disk ++ [(model_filename st, model)])
  /\ (early_stopping_step st' = early_stopping_step st
      \/ early_stopping_step st' = early_stopping_step st + 1
      \/ early_stopping_step st' = 0).
Proof.
  unfold update_train_state, torch_save.
  destruct (epoch_index st =? 0).
  { intros [= <- <-]. cbn. repeat split; auto. }
  destruct (epoch_index st >=? 1).
  2: { intros [= <- <-]. repeat split; auto. }
  intros Hrun. apply bind_Ok in Hrun as (losses & _ & Hrun).
  destruct (float_ge losses.2 (early_stopping_best_val st)).
  { injection Hrun as <- <-. cbn. repeat split; auto. }
  destruct (float_lt losses.2 (early_stopping_best_val st));
    injection Hrun as <- <-; cbn; repeat split; auto.
Qed.

(** X14. A call of [update_train_state] that returns changes nothing of the
    train state but the stop flag and the counter: the best validation loss
    (never assigned), the learning rate, the epoch index, the four
    histories, the test metrics and the file name stay as they were; the
    counter stays, grows by one or becomes 0; and at most one file is
    written, the model given, under the file name of the state. *)
Theorem update_train_state_frame {Params : Type} (args : Args) (model : Params)
    (st st' : TrainState) (disk disk' : Disk Params) :
  update_train_state args model st disk = Ok (st', disk') ->
  early_stopping_best_val st' = early_stopping_best_val st
  /\ learning_rate st' = learning_rate st
  /\ epoch_index st' = epoch_index st
  /\ train_loss st' = train_loss st /\ train_acc st' = train_acc st
  /\ val_loss st' = val_loss st /\ val_acc st' = val_acc st
  /\ test_loss st' = test_loss st /\ test_acc st' = test_acc st
  /\ model_filename st' = model_filename st
  /\ (disk' = disk \/ disk' = disk ++ [(model_filename st, model)])
  /\ (early_stopping_step st' = early_stopping_step st
      \/ early_stopping_step st' = early_stopping_step st + 1
      \/ early_stopping_step st' = 0).
Proof. apply update_train_state_Ok. Qed.

Lemma update_train_state_frame_witness :
  exists (st' : TrainState) (disk' : Disk nat),
    update_train_state example_args 7%nat (make_train_state example_args) []
    = Ok (st', disk')
    /\ early_stopping_best_val st' = (100000000 # 1)%Q
    /\ disk' = [("model.pth"%string, 7%nat)].
Proof.
  eexists _, _. split; [reflexivity|].
  destruct (update_train_state_frame example_args 7%nat
              (make_train_state example_args) _ [] _ eq_refl)
    as (Hbest & _). split; [exact Hbest | reflexivity].
Defined.

(** X15. [update_train_state] raises exactly when the epoch index is at
    least 1 and the history of validation losses has fewer than two entries,
    and what it raises then is [ValueError] (the unpacking of the last two
    losses); with a negative epoch index it returns the state and the files
    untouched. *)
Theorem update_train_state_errors {Params : Type} (args : Args) (model : Params)
    (st : TrainState) (disk : Disk Params) :
  (1 <= epoch_index st /\ (length (val_loss st) < 2)%nat ->
     update_train_state args model st disk = Raise ValueError)
  /\ (~ (1 <= epoch_index st /\ (length (val_loss st) < 2)%nat) ->
        exists r, update_train_state args model st disk = Ok r)
  /\ (epoch_index st < 0 -> update_train_state args model st disk = Ok (st, disk)).
Proof.
  unfold update_train_state. split; [|split].
  - intros [Hepoch Hlen].
    destruct (Z.eqb_spec (epoch_index st) 0); [lia|].
    destruct (Z.geb_spec (epoch_index st) 1); [|lia].
    by rewrite last_two_short.
  - intros Hnot. destruct (Z.eqb_spec (epoch_index st) 0); [by eexists|].
    destruct (Z.geb_spec (epoch_index st) 1); [|by eexists].
    destruct (last_two_long (val_loss st)) as (a & b & ->); [lia|]. cbn.
    destruct (float_ge b (early_stopping_best_val st)); [by eexists|].
    destruct (float_lt b (early_stopping_best_val st)); by eexists.
  - intros Hneg. destruct (Z.eqb_spec (epoch_index st) 0); [lia|].
    by destruct (Z.geb_spec (epoch_index st) 1); [lia|].
Qed.

(** ** The epoch loop *)

Lemma update_train_state_epoch_0 {Params : Type} (args : Args) (model : Params)
    (st : TrainState) (disk : Disk Params) :
  epoch_index st = 0 ->
  update_train_state args model st disk
  = Ok (set_stop_early st false, disk ++ [(model_filename st, model)]).
Proof. intros He. unfold update_train_state. by rewrite He. Qed.

Lemma update_train_state_total {Params : Type} (args : Args) (model : Params)
    (st : TrainState) (disk : Disk Params) :
  epoch_index st = 0 \/ (2 <= length (val_loss st))%nat ->
  exists st' disk', update_train_state args model st disk = Ok (st', disk').
Proof.
  intros Hok. unfold update_train_state.
  destruct (Z.eqb_spec (epoch_index st) 0); [by eexists _, _|].
  destruct Hok as [?|Hlen]; [done|].
  destruct (epoch_index st >=? 1); [|by eexists _, _].
  destruct (last_two_long (val_loss st) Hlen) as (a & b & ->). cbn.
  destruct (float_ge b (early_stopping_best_val st)); [by eexists _, _|].
  destruct (float_lt b (early_stopping_best_val st)); by eexists _, _.
Qed.

Lemma epoch_loop_history {Params : Type} (args : Args)
    (os : list (EpochOutcome Params)) (e : nat) (st : TrainState)
    (disk : Disk Params) :
  length (val_loss st) = e -> stop_early st = false ->
  exists (st' : TrainState) (k : nat) (writes : Disk Params),
    epoch_loop args os (Z.of_nat e) st disk = Ok (st', disk ++ writes)
    /\ (k <= length os)%nat
    /\ train_loss st' = train_loss st ++ (o_train_loss <$> take k os)
    /\ train_acc st' = train_acc st ++ (o_train_acc <$> take k os)
    /\ val_loss st' = val_loss st ++ (o_val_loss <$> take k os)
    /\ val_acc st' = val_acc st ++ (o_val_acc <$> take k os)
    /\ model_filename st' = model_filename st
    /\ (k = 0%nat -> st' = st)
    /\ ((0 < k)%nat -> epoch_index st' = Z.of_nat (e + k) - 1)
    /\ (length writes <= k)%nat
    /\ Forall (fun w : string * Params => w.1 = model_filename st) writes
    /\ (e = 0%nat -> (0 < k)%nat ->
        exists o, head os = Some o
                  /\ head writes = Some (model_filename st, o_params o))
    /\ (stop_early st' = false -> k = length os).
Proof.
  revert e st disk. induction os as [|o os IH]; intros e st disk Hlen Hstop.
  { exists st, 0%nat, []. cbn. rewrite !app_nil_r.
    repeat split; try done; try lia. }
  cbn [epoch_loop].
  set (st1 := append_metrics (set_epoch_index st (Z.of_nat e)) _ _ _ _).
  assert (exists st2 disk2,
             update_train_state args (o_params o) st1 disk = Ok (st2, disk2))
    as (st2 & disk2 & Hrun).
  { apply update_train_state_total. destruct e as [|e]; [by left|]. right.
    cbn. rewrite length_app, Hlen. cbn. lia. }
  pose proof (update_train_state_Ok _ _ _ _ _ _ Hrun)
    as (_ & _ & He2 & Htl2 & Hta2 & Hvl2 & Hva2 & _ & _ & Hfile2 & Hdisk2 & _).
  cbn in He2, Htl2, Hta2, Hvl2, Hva2, Hfile2, Hdisk2.
  assert (Hfirst : e = 0%nat -> disk2 = disk ++ [(model_filename st, o_params o)]).
  { intros ->. rewrite (update_train_state_epoch_0 args _ st1 disk eq_refl) in Hrun.
    by injection Hrun as _ <-. }
  assert (exists w2, disk2 = disk ++ w2 /\ (length w2 <= 1)%nat
                     /\ Forall (fun w : string * Params => w.1 = model_filename st) w2
                     /\ (e = 0%nat -> w2 = [(model_filename st, o_params o)]))
    as (w2 & -> & Hw2len & Hw2file & Hw2first).
  { destruct Hdisk2 as [->| ->].
    - exists []. rewrite app_nil_r. repeat split; [cbn; lia | constructor|].
      intros He. specialize (Hfirst He).
      apply (f_equal length) in Hfirst. rewrite length_app in Hfirst.
      cbn in Hfirst. lia.
    - eexists. split; [done|]. split; [cbn; lia|]. split; [|done].
      by repeat constructor. }
  rewrite Hrun. cbn [bind fst snd].
  destruct (stop_early st2) eqn:Hstop2.
  - exists st2, 1%nat, w2. cbn [take fmap list_fmap length].
    rewrite Htl2, Hta2, Hvl2, Hva2, Hfile2, He2.
    split; [done|]. split; [lia|]. do 5 (split; [done|]).
    split; [intros; lia|]. split; [intros _; cbn; lia|].
    split; [done|]. split; [done|]. split; [|intros; congruence].
    intros He _. exists o. split; [done|]. by rewrite (Hw2first He).
  - destruct (IH (S e) st2 (disk ++ w2)) as (st' & k & writes & Hloop & Hk & Htl & Hta
      & Hvl & Hva & Hfile & Hk0 & Hkpos & Hwlen & Hwfile & _ & Hlast).
    { rewrite Hvl2, length_app, Hlen. cbn. lia. }
    { done. }
    exists st', (S k), (w2 ++ writes).
    replace (Z.of_nat e + 1) with (Z.of_nat (S e)) by lia.
    rewrite Hloop, app_assoc. cbn [take fmap list_fmap length].
    rewrite Htl, Hta, Hvl, Hva, Hfile, Htl2, Hta2, Hvl2, Hva2, Hfile2.
    rewrite <- !app_assoc. cbn [app].
    split; [done|]. split; [lia|]. do 5 (split; [done|]).
    split; [lia|]. split.
    { intros _. destruct k as [|k].
      - rewrite (Hk0 eq_refl), He2. lia.
      - rewrite Hkpos by lia. lia. }
    split; [rewrite length_app; lia|]. split.
    { apply Forall_app. split; [done|]. by rewrite <- Hfile2. }
    split.
    { intros He _. exists o. split; [done|]. by rewrite (Hw2first He). }
    intros Hfalse. by rewrite (Hlast Hfalse).
Qed.

(** X16. The training loop never raises.  It runs some number [k] of
    epochs, at most [num_epochs] and at most the epochs there are; the four
    histories then hold the metrics of these [k] epochs, in order, and the
    epoch index is [k - 1]; every file written has the name given in the
    arguments, at most one is written per epoch, and the first one holds the
    parameters of epoch 0; and if the stop flag is clear at the end, all
    epochs were run. *)
Theorem training_loop_history {Params : Type} (args : Args)
    (outcomes : list (EpochOutcome Params)) :
  exists (st : TrainState) (disk : Disk Params) (k : nat),
    training_loop args outcomes = Ok (st, disk)
    /\ (k <= length outcomes)%nat /\ (k <= Z.to_nat (num_epochs args))%nat
    /\ train_loss st = o_train_loss <$> take k outcomes
    /\ train_acc st = o_train_acc <$> take k outcomes
    /\ val_loss st = o_val_loss <$> take k outcomes
    /\ val_acc st = o_val_acc <$> take k outcomes
    /\ ((0 < k)%nat ->
        epoch_index st = Z.of_nat k - 1
        /\ exists o, head outcomes = Some o
                     /\ head disk = Some (model_state_file args, o_params o))
    /\ (length disk <= k)%nat
    /\ Forall (fun w : string * Params => w.1 = model_state_file args) disk
    /\ (stop_early st = false ->
        k = Nat.min (Z.to_nat (num_epochs args)) (length outcomes)).
Proof.
  unfold training_loop.
  set (n := Z.to_nat (num_epochs args)).
  destruct (epoch_loop_history args (take n outcomes) 0 (make_train_state args) [])
    as (st & k & writes & Hloop & Hk & Htl & Hta & Hvl & Hva & _ & _ & Hkpos
        & Hwlen & Hwfile & Hfirst & Hlast); [done | done |].
  rewrite length_take in Hk, Hlast.
  assert (Htake : take k (take n outcomes) = take k outcomes).
  { rewrite take_take. f_equal. lia. }
  rewrite Htake in *. cbn in *.
  exists st, writes, k. split; [done|]. split; [lia|]. split; [lia|].
  do 4 (split; [done|]). split.
  { intros Hpos. split; [rewrite Hkpos by done; lia|].
    destruct (Hfirst eq_refl Hpos) as (o & Ho & Hw). exists o. split; [|done].
    destruct n; [cbn in Hk; lia|]. by destruct outcomes. }
  split; [done|]. split; [done|]. done.
Qed.

(** X17. For every positive patience and validation losses that all stay
    below 1e8, the training loop runs every epoch it is given, saves the
    parameters after each one and ends with the stop flag clear and the
    counter at 0: the losses are compared with the initial value of the best
    loss, not with one another. *)
Theorem training_loop_below_initial_bound {Params : Type} (args : Args)
    (outcomes : list (EpochOutcome Params)) :
  0 < early_stopping_criteria args ->
  Forall (fun o => (o_val_loss o < 100000000 # 1)%Q) outcomes ->
  (length outcomes <= Z.to_nat (num_epochs args))%nat ->
  exists st : TrainState,
    training_loop args outcomes
    = Ok (st, (fun o => (model_state_file args, o_params o)) <$> outcomes)
    /\ stop_early st = false /\ early_stopping_step st = 0.
Proof.
  intros Hpatience Hall Hlen. unfold training_loop.
  rewrite take_ge by done.
  destruct (epoch_loop_saves_every_epoch args outcomes 0 (make_train_state args) [])
    as (st & Hloop & Hstop & Hstep); try done; [by left|].
  exists st. by rewrite Hloop.
Qed.

Lemma training_loop_below_initial_bound_witness :
  exists st : TrainState,
    training_loop example_args example_outcomes
    = Ok (st, (fun o => ("model.pth"%string, o_params o)) <$> example_outcomes)
    /\ stop_early st = false /\ early_stopping_step st = 0.
Proof.
  apply (training_loop_below_initial_bound example_args example_outcomes).
  - reflexivity.
  - vm_compute. repeat constructor.
  - vm_compute. lia.
Defined.

(** X18. With a patience of 0 or less the loop stops after its second
    epoch, whatever the losses are: epoch 0 always clears the flag, and at
    epoch 1 the counter, 0 or 1, is not below the patience. *)
Theorem training_loop_without_patience {Params : Type} (args : Args)
    (o0 o1 : EpochOutcome Params) (outcomes : list (EpochOutcome Params)) :
  early_stopping_criteria args <= 0 -> 2 <= num_epochs args ->
  exists (st : TrainState) (disk : Disk Params),
    training_loop args (o0 :: o1 :: outcomes) = Ok (st, disk)
    /\ stop_early st = true /\ epoch_index st = 1
    /\ val_loss st = [o_val_loss o0; o_val_loss o1].
Proof.
  intros Hpatience Hepochs. unfold training_loop.
  destruct (Z.to_nat (num_epochs args)) as [|[|n]] eqn:Hn; try lia.
  cbn [take epoch_loop]. rewrite update_train_state_epoch_0 by done.
  cbn [bind fst snd set_stop_early stop_early]. unfold update_train_state.
  cbn -[Z.geb Z.add float_ge float_lt].
  destruct (float_ge (o_val_loss o1) (100000000 # 1)%Q).
  - cbn -[Z.geb]. destruct (Z.geb_spec (0 + 1) (early_stopping_criteria args));
      [|lia]. by eexists _, _.
  - destruct (float_lt (o_val_loss o1) (100000000 # 1)%Q); cbn -[Z.geb];
      (destruct (Z.geb_spec 0 (early_stopping_criteria args)); [|lia]);
      by eexists _, _.
Qed.

Lemma training_loop_without_patience_witness :
  exists (st : TrainState) (disk : Disk nat),
    training_loop (mkArgs "model.pth" 100 0 (1 # 1000) 64) example_outcomes
    = Ok (st, disk)
    /\ stop_early st = true /\ epoch_index st = 1
    /\ val_loss st = [(10 # 10)%Q; (11 # 10)%Q].
Proof.
  apply (training_loop_without_patience (mkArgs "model.pth" 100 0 (1 # 1000) 64)).
  - vm_compute. discriminate.
  - vm_compute. discriminate.
Defined.

Lemma update_train_state_at_or_above {Params : Type} (args : Args)
    (model : Params) (st : TrainState) (disk : Disk Params)
    (losses : float * float) :
  1 <= epoch_index st ->
  unpack2 (last_two (val_loss st)) = Ok losses ->
  (early_stopping_best_val st <= losses.2)%Q ->
  update_train_state args model st disk =
  Ok (set_stop_early
        (set_early_stopping_step st (early_stopping_step st + 1))
        (early_stopping_step st + 1 >=? early_stopping_criteria args),
      disk).
Proof.
  intros Hepoch Hlosses Hle. unfold update_train_state.
  destruct (Z.eqb_spec (epoch_index st) 0); [lia|].
  destruct (Z.geb_spec (epoch_index st) 1); [|lia].
  rewrite Hlosses. cbn [bind]. unfold float_ge.
  by rewrite (proj2 (Qle_bool_iff _ _) Hle).
Qed.

Lemma epoch_loop_counts_up {Params : Type} (args : Args)
    (os : list (EpochOutcome Params)) (e c : Z) (st : TrainState)
    (disk : Disk Params) :
  1 <= e -> val_loss st <> [] ->
  early_stopping_step st = c -> 0 <= c < early_stopping_criteria args ->
  Forall (fun o => (early_stopping_best_val st <= o_val_loss o)%Q) os ->
  (Z.to_nat (early_stopping_criteria args - c) <= length os)%nat ->
  exists st',
    epoch_loop args os e st disk = Ok (st', disk)
    /\ stop_early st' = true
    /\ early_stopping_step st' = early_stopping_criteria args
    /\ epoch_index st' = e + (early_stopping_criteria args - c) - 1.
Proof.
  revert e c st. induction os as [|o os IH];
    intros e c st He Hlosses Hstep Hc Hall Hlen.
  { cbn in Hlen. lia. }
  apply Forall_cons in Hall as [Ho Hall]. cbn [epoch_loop].
  set (st1 := append_metrics (set_epoch_index st e) _ _ _ _).
  destruct (exists_last Hlosses) as (l & y & Hl).
  rewrite (update_train_state_at_or_above args _ st1 disk (y, o_val_loss o)).
  2: { exact He. }
  2: { change (val_loss st1) with (val_loss st ++ [o_val_loss o]).
       by rewrite Hl, last_two_snoc. }
  2: { exact Ho. }
  cbn [bind fst snd stop_early set_stop_early].
  change (early_stopping_step st1) with (early_stopping_step st). rewrite Hstep.
  destruct (Z.geb_spec (c + 1) (early_stopping_criteria args)) as [Hge|Hlt].
  - eexists. split; [reflexivity|]. cbn. repeat split; lia.
  - destruct (IH (e + 1) (c + 1)
                (set_stop_early (set_early_stopping_step st1 (c + 1)) false))
      as (st' & Hloop & Hstop & Hstep' & Hepoch'); try done; try lia.
    + cbn. by destruct (val_loss st).
    + cbn in Hlen. lia.
    + exists st'. split; [done|]. split; [done|]. split; [done|]. lia.
Qed.

(** X19. When the validation loss of every epoch after the first is 1e8 or
    more, the loop with patience [p] at least 1 stops with the flag set at
    epoch index [p], the counter being [p], and the only file written holds
    the parameters of epoch 0. *)
Theorem training_loop_stops_above_initial_bound {Params : Type} (args : Args)
    (o0 : EpochOutcome Params) (outcomes : list (EpochOutcome Params)) :
  0 < early_stopping_criteria args ->
  early_stopping_criteria args < num_epochs args ->
  Forall (fun o => (100000000 # 1 <= o_val_loss o)%Q) outcomes ->
  (Z.to_nat (early_stopping_criteria args) <= length outcomes)%nat ->
  exists st : TrainState,
    training_loop args (o0 :: outcomes)
    = Ok (st, [(model_state_file args, o_params o0)])
    /\ stop_early st = true
    /\ early_stopping_step st = early_stopping_criteria args
    /\ epoch_index st = early_stopping_criteria args.
Proof.
  intros Hpatience Hepochs Hall Hlen. unfold training_loop.
  destruct (Z.to_nat (num_epochs args)) as [|n] eqn:Hn; [lia|].
  cbn [take epoch_loop]. rewrite update_train_state_epoch_0 by done.
  cbn [bind fst snd set_stop_early stop_early].
  destruct (epoch_loop_counts_up args (take n outcomes) (0 + 1) 0
              (set_stop_early
                 (append_metrics (set_epoch_index (make_train_state args) 0)
                    (o_train_loss o0) (o_train_acc o0) (o_val_loss o0)
                    (o_val_acc o0)) false)
              ([] ++ [(model_state_file args, o_params o0)]))
    as (st & Hloop & Hstop & Hstep & Hepoch); try done; try lia.
  - by apply Forall_take.
  - rewrite length_take. lia.
  - exists st. split; [exact Hloop|]. split; [done|]. split; [done|].
    rewrite Hepoch. lia.
Qed.

Lemma training_loop_stops_above_initial_bound_witness :
  exists st : TrainState,
    training_loop (mkArgs "model.pth" 100 2 (1 # 1000) 64)
      (mkEpochOutcome 0%nat 0%Q 0%Q (1 # 1)%Q 0%Q
       :: [mkEpochOutcome 1%nat 0%Q 0%Q (200000000 # 1)%Q 0%Q;
           mkEpochOutcome 2%nat 0%Q 0%Q (300000000 # 1)%Q 0%Q;
           mkEpochOutcome 3%nat 0%Q 0%Q (100000000 # 1)%Q 0%Q])
    = Ok (st, [("model.pth"%string, 0%nat)])
    /\ stop_early st = true
    /\ early_stopping_step st = 2
    /\ epoch_index st = 2.
Proof.
  apply (training_loop_stops_above_initial_bound
           (mkArgs "model.pth" 100 2 (1 # 1000) 64)).
  - reflexivity.
  - reflexivity.
  - vm_compute. repeat constructor; discriminate.
  - vm_compute. lia.
Defined.

(** ** The k best guesses *)

Lemma sorted_by_value_strongly (indexed : list (float * Z)) :
  StronglySorted (fun a b : float * Z => (b.1 <= a.1)%Q)
    (sort_by (fun a b : float * Z => Qle_bool b.1 a.1) indexed).
Proof.
  apply Sorted.Sorted_StronglySorted.
  { intros a b c Hab Hbc. by apply (Qle_trans _ b.1). }
  rewrite <- (list_fmap_id (sort_by _ indexed)).
  apply (Sorted_fmap id (fun a b : float * Z => Qle_bool b.1 a.1 = true)).
  - intros a b Hab. by apply Qle_bool_iff.
  - apply sort_by_Sorted. intros a b Hab.
    apply Qle_bool_iff. destruct (Qlt_le_dec a.1 b.1) as [Hlt|Hle].
    + by apply Qlt_le_weak.
    + apply Qle_bool_iff in Hle. congruence.
Qed.

Lemma elem_of_indexed (v : list float) (x : float) (i : Z) :
  (x, i) ∈ zip v (Z.of_nat <$> seq 0 (length v)) <->
  0 <= i /\ v !! Z.to_nat i = Some x.
Proof.
  rewrite list_elem_of_lookup. split.
  - intros [j Hj]. apply lookup_zip_with_Some in Hj as (y & n & [= <- <-] & Hy & Hn).
    rewrite list_lookup_fmap in Hn.
    destruct (seq 0 (length v) !! j) as [m|] eqn:Hm; [|done].
    apply lookup_seq in Hm as [-> _]. cbn in Hn. injection Hn as <-.
    by rewrite Nat2Z.id; split; [lia|].
  - intros [Hi Hx]. exists (Z.to_nat i). apply lookup_zip_with_Some.
    exists x, i. split; [done|]. split; [done|].
    rewrite list_lookup_fmap, lookup_seq_lt by by eapply lookup_lt_Some.
    cbn. f_equal. lia.
Qed.

Lemma torch_topk_spec (v : list float) (k : Z) :
  0 <= k <= len v ->
  exists top : list (float * Z),
    torch_topk v k = Ok (top.*1, top.*2)
    /\ len top = k
    /\ Sorted (fun p q : float => (q <= p)%Q) top.*1
    /\ NoDup top.*2
    /\ Forall (fun pi : float * Z =>
                 0 <= pi.2 < len v /\ v !! Z.to_nat pi.2 = Some pi.1) top
    /\ forall (i : Z) (x : float),
         0 <= i -> v !! Z.to_nat i = Some x -> i ∉ top.*2 ->
         Forall (fun p : float => (x <= p)%Q) top.*1.
Proof.
  intros Hk.
  set (indexed := zip v (Z.of_nat <$> seq 0 (length v))).
  set (sd := sort_by (fun a b : float * Z => Qle_bool b.1 a.1) indexed).
  assert (Hperm : sd ≡ₚ indexed) by apply sort_by_Permutation.
  assert (Hlen : length sd = length v).
  { rewrite Hperm. unfold indexed.
    rewrite length_zip_with, length_fmap, length_seq. lia. }
  pose proof (sorted_by_value_strongly indexed) as Hsorted. fold sd in Hsorted.
  rewrite <- (take_drop (Z.to_nat k) sd) in Hsorted.
  assert (Hin : forall pi, pi ∈ take (Z.to_nat k) sd -> pi ∈ indexed).
  { intros pi Hpi. rewrite <- Hperm.
    by apply (subseteq_take (Z.to_nat k) sd). }
  exists (take (Z.to_nat k) sd). split; [|split; [|split; [|split; [|split]]]].
  - unfold torch_topk.
    destruct (Z.ltb_spec k 0); [lia|]. destruct (Z.ltb_spec (len v) k); [lia|].
    done.
  - unfold len in *. rewrite length_take. lia.
  - apply StronglySorted_app_1_l in Hsorted.
    apply Sorted.StronglySorted_Sorted.
    by apply (StronglySorted_fmap fst
                (fun a b : float * Z => (b.1 <= a.1)%Q) _).
  - rewrite fmap_take. eapply sublist_NoDup; [|apply sublist_take].
    rewrite Hperm. unfold indexed. rewrite snd_zip.
    + apply NoDup_fmap_2; [apply Nat2Z.inj'|apply NoDup_seq].
    + rewrite length_fmap, length_seq. lia.
  - apply Forall_forall. intros [x i] Hpi. apply Hin in Hpi.
    apply elem_of_indexed in Hpi as [Hi Hx]. cbn [fst snd].
    split; [|done]. apply lookup_lt_Some in Hx. unfold len. lia.
  - intros i x Hi Hx Hnot.
    assert (Hxi : (x, i) ∈ take (Z.to_nat k) sd ++ drop (Z.to_nat k) sd).
    { rewrite take_drop, Hperm. by apply elem_of_indexed. }
    apply elem_of_app in Hxi as [Htop|Hrest].
    { exfalso. apply Hnot. by apply (list_elem_of_fmap_2 snd) in Htop. }
    apply Forall_fmap, Forall_forall. intros a Ha.
    exact (StronglySorted_app_1_elem_of _ _ _ _ _ Hsorted Ha Hrest).
Qed.

Lemma topk_results_tokens (v : Vocabulary) (top : list (float * Z))
    (results : list (string * float)) :
  vocab_inv v ->
  Forall2 (fun (pi : float * Z) (r : string * float) =>
             (let! nationality := lookup_index v pi.2 in Ok (nationality, pi.1))
             = Ok r) top results ->
  Forall2 (fun (pi : float * Z) (r : string * float) =>
             dict_get (_token_to_idx v) r.1 = Some pi.2 /\ r.2 = pi.1)
          top results.
Proof.
  intros Hinv Hall. apply (Forall2_impl _ _ _ _ Hall). intros pi r Hr.
  apply bind_Ok in Hr as (t & Ht & [= <-]). cbn [fst snd]. split; [|done].
  pose proof (lookup_index_exact v pi.2 Hinv) as Hexact.
  by rewrite Ht in Hexact.
Qed.

Lemma topk_results_indices (v : Vocabulary) (top : list (float * Z))
    (results : list (string * float)) :
  Forall2 (fun (pi : float * Z) (r : string * float) =>
             dict_get (_token_to_idx v) r.1 = Some pi.2 /\ r.2 = pi.1)
          top results ->
  dict_get (_token_to_idx v) <$> results.*1 = Some <$> top.*2.
Proof.
  induction 1 as [|pi r top results [Hr _] _ IH]; cbn; [done|].
  by rewrite Hr, IH.
Qed.

(** X20. For a vectorizer built from rows, a classifier with one output per
    nationality and [0 <= k <= len(nationality_vocab)],
    [predict_topk_nationality] returns [k] results: distinct nationalities
    of the vocabulary, each with the probability the classifier gives to
    its index, in descending order of probability, and no nationality left
    out has a higher probability than one returned. *)
Theorem predict_topk_nationality_in_range
    (classifier : list float -> list float) (rows : DataFrame)
    (name : string) (k : Z) :
  let vectorizer := from_dataframe rows in
  (forall x, len (classifier x) = Vocabulary_len (nationality_vocab vectorizer)) ->
  0 <= k <= Vocabulary_len (nationality_vocab vectorizer) ->
  exists (x : list float) (results : list (string * float)),
    vectorize vectorizer name = Ok x
    /\ predict_topk_nationality classifier name vectorizer k = Ok results
    /\ len results = k
    /\ Sorted (fun p q : float => (q <= p)%Q) results.*2
    /\ NoDup results.*1
    /\ Forall (fun r : string * float =>
                 exists i, lookup_token (nationality_vocab vectorizer) r.1 = Ok i
                           /\ classifier x !! Z.to_nat i = Some r.2) results
    /\ forall (t : string) (i : Z) (p : float),
         lookup_token (nationality_vocab vectorizer) t = Ok i ->
         classifier x !! Z.to_nat i = Some p ->
         t ∉ results.*1 ->
         Forall (fun q : float => (p <= q)%Q) results.*2.
Proof.
  intros vectorizer Hdim Hk.
  destruct (from_dataframe_inv rows) as (Hsv & Hsunk & Hnv & Hnunk & _).
  fold vectorizer in Hsv, Hsunk, Hnv, Hnunk.
  pose proof (inv_indices_in_range _ Hsv) as Hsrange.
  pose proof (inv_unk_in_range _ Hsv Hsunk) as Hsunk'.
  eexists. unfold predict_topk_nationality.
  rewrite vectorize_mark_all by done. cbn [bind].
  set (x := mark_all _ _). set (pv := classifier x).
  destruct (torch_topk_spec pv k)
    as (top & -> & Hlen & Hsorted & Hnodup & Hrange & Hmax).
  { unfold pv. by rewrite Hdim. }
  cbn [bind fst snd]. rewrite zip_fst_snd.
  destruct (map_each_total
              (fun pi : float * Z =>
                 let! nationality := lookup_index (nationality_vocab vectorizer) pi.2 in
                 Ok (nationality, pi.1)) top) as [results Hresults].
  { apply (Forall_impl _ _ _ Hrange). intros [p i] [Hi _]. cbn in Hi.
    unfold pv in Hi. rewrite Hdim in Hi.
    destruct (lookup_index_assigned _ i Hnv Hi) as [t Ht].
    exists (t, p). cbn [fst snd]. by rewrite Ht. }
  exists results. split; [reflexivity|]. split; [done|].
  pose proof (map_each_Ok _ _ _ Hresults) as Hall.
  pose proof (topk_results_tokens _ _ _ Hnv Hall) as Htokens.
  pose proof (topk_results_indices _ _ _ Htokens) as Hindices.
  rewrite (topk_results_probabilities _ _ _ Hall).
  split; [|split; [done|split; [|split]]].
  - unfold len in *. by rewrite <- (Forall2_length _ _ _ Hall).
  - apply (NoDup_fmap_1 (dict_get (_token_to_idx (nationality_vocab vectorizer)))).
    rewrite Hindices. by apply (NoDup_fmap_2 Some).
  - clear Hindices Hall Hresults Hmax Hnodup Hsorted Hlen.
    induction Htokens as [|pi r top results [Hr Hp] _ IH]; [constructor|].
    apply Forall_cons in Hrange as [[_ Hpi] Hrange].
    constructor; [|by apply IH].
    exists pi.2. split; [by apply lookup_token_known|]. by rewrite Hp.
  - intros t i p Ht Hp Hnot.
    apply (lookup_token_no_unk _ _ _ Hnunk) in Ht.
    pose proof (inv_forward_range _ _ _ Hnv Ht) as Hi.
    apply (Hmax i p); [lia|done|]. intros Hin.
    apply (list_elem_of_fmap_2 Some) in Hin. rewrite <- Hindices in Hin.
    apply list_elem_of_fmap in Hin as (t' & Ht' & Hin').
    assert (t' = t) as -> by by eapply inv_forward_inj.
    done.
Qed.

Lemma predict_topk_nationality_in_range_witness :
  exists (x : list float) (results : list (string * float)),
    vectorize example_vectorizer "ab" = Ok x
    /\ predict_topk_nationality (fun _ => [(1 # 10)%Q; (7 # 10)%Q]) "ab"
         example_vectorizer 1 = Ok results
    /\ len results = 1
    /\ Sorted (fun p q : float => (q <= p)%Q) results.*2
    /\ NoDup results.*1
    /\ Forall (fun r : string * float =>
                 exists i, lookup_token (nationality_vocab example_vectorizer) r.1
                           = Ok i
                           /\ [(1 # 10)%Q; (7 # 10)%Q] !! Z.to_nat i = Some r.2)
              results
    /\ forall (t : string) (i : Z) (p : float),
         lookup_token (nationality_vocab example_vectorizer) t = Ok i ->
         [(1 # 10)%Q; (7 # 10)%Q] !! Z.to_nat i = Some p ->
         t ∉ results.*1 ->
         Forall (fun q : float => (p <= q)%Q) results.*2.
Proof.
  apply (predict_topk_nationality_in_range
           (fun _ => [(1 # 10)%Q; (7 # 10)%Q]) example_rows "ab" 1).
  - intros _. reflexivity.
  - vm_compute. split; discriminate.
Defined.

(** ** The best guess *)

Lemma float_lt_false (a b : float) : float_lt a b = false -> (b <= a)%Q.
Proof.
  unfold float_lt. destruct (Qle_bool b a) eqn:Hle; [|done].
  intros _. by apply Qle_bool_iff.
Qed.

Lemma float_lt_lt (a b : float) : float_lt a b = true -> (a < b)%Q.
Proof.
  unfold float_lt. destruct (Qle_bool b a) eqn:Hle; [done|]. intros _.
  apply Qnot_le_lt. intros Hba. apply Qle_bool_iff in Hba. congruence.
Qed.

(** The scan of a row keeps the largest value seen and a position that
    holds it. *)
Lemma torch_max_from_spec (v seen : list float) (best : float)
    (best_index index : Z) :
  index = len seen -> 0 <= best_index ->
  seen !! Z.to_nat best_index = Some best ->
  Forall (fun x : float => (x <= best)%Q) seen ->
  let m := torch_max_from best best_index index v in
  0 <= m.2 < len (seen ++ v)
  /\ (seen ++ v) !! Z.to_nat m.2 = Some m.1
  /\ Forall (fun x : float => (x <= m.1)%Q) (seen ++ v).
Proof.
  revert seen best best_index index.
  induction v as [|x v IH]; intros seen best best_index index Hindex Hpos Hbest Hall.
  - cbn. rewrite app_nil_r. split; [|done].
    apply lookup_lt_Some in Hbest. unfold len. lia.
  - cbn [torch_max_from].
    replace (seen ++ x :: v) with ((seen ++ [x]) ++ v) by by rewrite <- app_assoc.
    destruct (float_lt best x) eqn:Hlt.
    + apply IH.
      * unfold len in *. rewrite length_app. cbn. lia.
      * unfold len in *. lia.
      * subst index. unfold len. rewrite Nat2Z.id.
        by rewrite lookup_app_r, Nat.sub_diag.
      * apply float_lt_lt in Hlt. apply Forall_app. split.
        -- apply (Forall_impl _ _ _ Hall). intros y Hy.
           apply Qlt_le_weak. by apply (Qle_lt_trans _ best).
        -- repeat constructor. apply Qle_refl.
    + apply IH.
      * unfold len in *. rewrite length_app. cbn. lia.
      * done.
      * by apply lookup_app_l_Some.
      * apply float_lt_false in Hlt. apply Forall_app. split; [done|].
        by repeat constructor.
Qed.

Lemma torch_max_spec (v : list float) :
  0 < len v ->
  exists m : float * Z,
    torch_max v = Ok m
    /\ 0 <= m.2 < len v
    /\ v !! Z.to_nat m.2 = Some m.1
    /\ Forall (fun x : float => (x <= m.1)%Q) v.
Proof.
  destruct v as [|x v]; [intros Hlen; unfold len in Hlen; cbn in Hlen; lia|].
  intros _. eexists. split; [reflexivity|].
  apply (torch_max_from_spec v [x] x 0 1); try done.
  repeat constructor. apply Qle_refl.
Qed.

(** X21. For a vectorizer built from at least one row and a classifier
    with one output per nationality, [predict_nationality] returns a
    nationality of the vocabulary together with the probability the
    classifier gives to its index, and no output of the classifier is
    larger than that probability. *)
Theorem predict_nationality_is_a_maximum
    (classifier : list float -> list float) (rows : DataFrame)
    (surname : string) :
  let vectorizer := from_dataframe rows in
  rows <> [] ->
  (forall x, len (classifier x) = Vocabulary_len (nationality_vocab vectorizer)) ->
  exists (x : list float) (t : string) (p : float) (i : Z),
    vectorize vectorizer surname = Ok x
    /\ predict_nationality classifier surname vectorizer = Ok (t, p)
    /\ lookup_token (nationality_vocab vectorizer) t = Ok i
    /\ classifier x !! Z.to_nat i = Some p
    /\ Forall (fun q : float => (q <= p)%Q) (classifier x).
Proof.
  intros vectorizer Hrows Hdim.
  destruct (from_dataframe_inv rows) as (Hsv & Hsunk & Hnv & Hnunk & Hlabels).
  fold vectorizer in Hsv, Hsunk, Hnv, Hnunk, Hlabels.
  pose proof (inv_indices_in_range _ Hsv) as Hsrange.
  pose proof (inv_unk_in_range _ Hsv Hsunk) as Hsunk'.
  assert (Hsome : 0 < Vocabulary_len (nationality_vocab vectorizer)).
  { destruct rows as [|r rows]; [done|].
    assert (Hin : nationality r ∈ (_token_to_idx (nationality_vocab vectorizer)).*1).
    { apply Hlabels. cbn. apply elem_of_cons. by left. }
    unfold Vocabulary_len, dict_len, len.
    destruct (_token_to_idx (nationality_vocab vectorizer)); [|cbn; lia].
    by apply elem_of_nil in Hin. }
  eexists. unfold predict_nationality.
  rewrite vectorize_mark_all by done. cbn [bind].
  set (x := mark_all _ _).
  destruct (torch_max_spec (classifier x))
    as ([p i] & -> & Hi & Hp & Hmax); [by rewrite Hdim|].
  cbn [bind fst snd] in *. rewrite Hdim in Hi.
  destruct (lookup_index_assigned _ i Hnv Hi) as [t Ht].
  pose proof (lookup_index_exact _ i Hnv) as Hexact.
  rewrite Ht in *. cbn [bind].
  exists t, p, i. split; [reflexivity|]. split; [done|].
  split; [by apply lookup_token_known|]. by split.
Qed.

Lemma predict_nationality_is_a_maximum_witness :
  exists (x : list float) (t : string) (p : float) (i : Z),
    vectorize example_vectorizer "ab" = Ok x
    /\ predict_nationality (fun _ => [(1 # 10)%Q; (7 # 10)%Q]) "ab"
         example_vectorizer = Ok (t, p)
    /\ lookup_token (nationality_vocab example_vectorizer) t = Ok i
    /\ [(1 # 10)%Q; (7 # 10)%Q] !! Z.to_nat i = Some p
    /\ Forall (fun q : float => (q <= p)%Q) [(1 # 10)%Q; (7 # 10)%Q].
Proof.
  apply (predict_nationality_is_a_maximum
           (fun _ => [(1 # 10)%Q; (7 # 10)%Q]) example_rows "ab").
  - discriminate.
  - intros _. reflexivity.
Defined.

(** ** Accuracy *)

Lemma count_equal_bounds (a b : list Z) : 0 <= count_equal a b <= len a.
Proof.
  unfold count_equal, len. split; [lia|].
  pose proof (length_filter (fun p : Z * Z => p.1 = p.2) (zip a b)) as Hfilter.
  rewrite length_zip_with in Hfilter. lia.
Qed.

Lemma count_equal_full (a b : list Z) :
  length a = length b -> count_equal a b = len a -> a = b.
Proof.
  revert b. induction a as [|x a IH]; intros [|y b] Hlen Hcount; try done.
  injection Hlen as Hlen. unfold count_equal in Hcount. cbn [zip_with] in Hcount.
  rewrite filter_cons in Hcount. cbn [fst snd] in Hcount.
  destruct (decide (x = y)) as [->|Hne].
  - f_equal. apply IH; [done|]. unfold count_equal, len in *.
    cbn [length] in Hcount. lia.
  - pose proof (count_equal_bounds a b) as Hbound.
    unfold count_equal, len in *. cbn [length] in Hcount. lia.
Qed.

Lemma percentage_bounds (n total : Z) :
  0 <= n <= total -> 0 < total ->
  (0 <= inject_Z n / inject_Z total * 100 <= 100)%Q
  /\ ((inject_Z n / inject_Z total * 100 == 100)%Q -> n = total).
Proof.
  intros Hn Htotal.
  assert (Hpos : (0 < inject_Z total)%Q) by (rewrite <- (Zlt_Qlt 0); lia).
  assert (Hq0 : (0 <= inject_Z n / inject_Z total)%Q).
  { apply Qle_shift_div_l; [done|]. rewrite Qmult_0_l, <- (Zle_Qle 0). lia. }
  assert (Hq1 : (inject_Z n / inject_Z total <= 1)%Q).
  { apply Qle_shift_div_r; [done|]. rewrite Qmult_1_l, <- Zle_Qle. lia. }
  split; [split; lra|]. intros Heq.
  assert (Hone : (inject_Z n / inject_Z total == 1)%Q) by lra.
  apply inject_Z_injective.
  rewrite <- (Qmult_div_r (inject_Z n) (inject_Z total)) by lra.
  rewrite Hone. ring.
Qed.

(** X22. On a batch of rows with at least one column each and as many
    targets as rows, [compute_accuracy] raises only for the batch without
    rows ([ZeroDivisionError]); otherwise it returns a value between 0 and
    100, and the value 100 only if every target is a position of its row
    that holds a largest value of the row. *)
Theorem compute_accuracy_percentage (y_pred : list (list float))
    (y_target : list Z) :
  Forall (fun row : list float => row <> []) y_pred ->
  length y_pred = length y_target ->
  match compute_accuracy y_pred y_target with
  | Ok accuracy =>
      y_pred <> []
      /\ (0 <= accuracy <= 100)%Q
      /\ ((accuracy == 100)%Q ->
          Forall2 (fun (row : list float) (target : Z) =>
                     exists p : float,
                       0 <= target < len row
                       /\ row !! Z.to_nat target = Some p
                       /\ Forall (fun q : float => (q <= p)%Q) row)
                  y_pred y_target)
  | Raise e => y_pred = [] /\ e = ZeroDivisionError
  end.
Proof.
  intros Hrows Hlen.
  destruct (map_each_total torch_max y_pred) as [maxima Hmaxima].
  { apply (Forall_impl _ _ _ Hrows). intros [|x row] Hrow; [done|].
    eexists. reflexivity. }
  pose proof (map_each_Ok _ _ _ Hmaxima) as Hall.
  pose proof (Forall2_length _ _ _ Hall) as Hlength.
  unfold compute_accuracy. rewrite Hmaxima. cbn [bind]. unfold torch_eq_sum.
  destruct (Z.eqb_spec (len maxima.*2) (len y_target)) as [_|Hne].
  2: { unfold len in Hne. rewrite length_fmap in Hne. lia. }
  cbn [bind].
  destruct (Z.eqb_spec (len maxima.*2) 0) as [Hzero|Hsome].
  - split; [|done]. apply nil_length_inv.
    unfold len in Hzero. rewrite length_fmap in Hzero. lia.
  - pose proof (count_equal_bounds maxima.*2 y_target) as Hbound.
    destruct (percentage_bounds (count_equal maxima.*2 y_target)
                (len maxima.*2)) as [Hrange Hfull]; [done|unfold len in *; lia|].
    split; [|split; [done|]].
    { intros ->. apply Forall2_nil_inv_l in Hall as ->. by apply Hsome. }
    intros Heq. apply Hfull in Heq.
    apply count_equal_full in Heq; [|rewrite length_fmap; lia].
    rewrite <- Heq. apply Forall2_fmap_r.
    apply (Forall2_impl _ _ _ _ Hall). intros row m Hm.
    destruct (torch_max_spec row) as (m' & Hm' & Hpos & Hvalue & Hmax).
    { destruct row; [discriminate|]. unfold len. cbn [length]. lia. }
    rewrite Hm in Hm'. injection Hm' as <-. by exists m.1.
Qed.

Lemma compute_accuracy_percentage_witness :
  match compute_accuracy [[(1 # 10)%Q; (9 # 10)%Q]; [(8 # 10)%Q; (2 # 10)%Q]]
                         [1; 1] with
  | Ok accuracy =>
      [[(1 # 10)%Q; (9 # 10)%Q]; [(8 # 10)%Q; (2 # 10)%Q]] <> []
      /\ (0 <= accuracy <= 100)%Q
      /\ ((accuracy == 100)%Q ->
          Forall2 (fun (row : list float) (target : Z) =>
                     exists p : float,
                       0 <= target < len row
                       /\ row !! Z.to_nat target = Some p
                       /\ Forall (fun q : float => (q <= p)%Q) row)
                  [[(1 # 10)%Q; (9 # 10)%Q]; [(8 # 10)%Q; (2 # 10)%Q]] [1; 1])
  | Raise e =>
      [[(1 # 10)%Q; (9 # 10)%Q]; [(8 # 10)%Q; (2 # 10)%Q]] = []
      /\ e = ZeroDivisionError
  end.
Proof.
  apply (compute_accuracy_percentage
           [[(1 # 10)%Q; (9 # 10)%Q]; [(8 # 10)%Q; (2 # 10)%Q]] [1; 1]).
  - repeat constructor; discriminate.
  - reflexivity.
Defined.

(** ** Running means *)

Lemma running_from_spec (values : list float) (running : float)
    (batch_index : Z) :
  0 <= batch_index ->
  (running_from running batch_index values
   * inject_Z (batch_index + len values)
   == running * inject_Z batch_index + float_sum values)%Q.
Proof.
  revert running batch_index.
  induction values as [|value values IH]; intros running batch_index Hindex.
  - unfold len. cbn. rewrite Z.add_0_r. ring.
  - cbn [running_from]. unfold float_sum. cbn [foldr]. fold (float_sum values).
    replace (batch_index + len (value :: values))
      with (batch_index + 1 + len values)
      by (unfold len; cbn [length]; lia).
    rewrite IH by lia.
    assert (Hpos : (0 < inject_Z (batch_index + 1))%Q)
      by (rewrite <- (Zlt_Qlt 0); lia).
    rewrite (inject_Z_plus batch_index 1) in *.
    change (inject_Z 1) with 1%Q in *. field. lra.
Qed.

(** X23. The running loss (or accuracy) of a phase, updated batch by batch
    with [running += (value - running) / (batch_index + 1)] from 0, is the
    arithmetic mean of the values of the batches: times the number of
    batches it is their sum (in exact arithmetic). *)
Theorem running_mean_is_the_mean (values : list float) :
  (running_mean values * inject_Z (len values) == float_sum values)%Q.
Proof.
  unfold running_mean.
  rewrite <- (Z.add_0_l (len values)), running_from_spec by done.
  change (inject_Z 0) with 0%Q. ring.
Qed.

(** ** Batches with the incomplete last one *)

Lemma batch_sampler_keep_last (batch_size : Z) (sampler batch : list Z) :
  0 < batch_size -> len batch < batch_size ->
  let groups := batch_sampler batch_size false sampler batch in
  mjoin groups = batch ++ sampler
  /\ Forall (fun g => 0 < len g <= batch_size) groups.
Proof.
  intros Hpos. revert batch.
  induction sampler as [|idx sampler IH]; intros batch Hlt; cbn [batch_sampler].
  { rewrite andb_true_r, app_nil_r. destruct (Z.ltb_spec 0 (len batch)).
    - rewrite mjoin_cons, app_nil_r. split; [done|].
      repeat constructor; lia.
    - destruct batch; [by split|]. unfold len in *. cbn [length] in *. lia. }
  assert (Hlen : len (batch ++ [idx]) = len batch + 1).
  { unfold len. rewrite length_app. cbn. lia. }
  destruct (Z.eqb_spec (len (batch ++ [idx])) batch_size) as [Heq|Hne].
  - destruct (IH []) as (Hjoin & Hall); [unfold len; cbn; lia|].
    rewrite mjoin_cons, Hjoin, <- app_assoc. split; [done|].
    constructor; [|done]. unfold len in *. lia.
  - destruct (IH (batch ++ [idx])) as (Hjoin & Hall); [lia|].
    by rewrite Hjoin, <- app_assoc.
Qed.

(** X24. For a dataset made with [load_dataset_and_make_vectorizer] whose
    active split has at least one row, a positive batch size and any order
    of the indices of the active split, [generate_batches] without
    [drop_last] ends without an exception and its batches hold, in the
    order of the sampler, the item of every index, each once; no batch is
    empty or longer than the batch size, and a batch has as many labels as
    vectors. *)
Theorem generate_batches_keeps_every_item (rows : DataFrame)
    (ds0 ds : SurnameDataset) (names : list (option string))
    (batch_size : Z) (sampler : list Z) :
  load_dataset_and_make_vectorizer rows = Ok ds0 ->
  for_each set_split names ds0 = Ok ds ->
  0 < batch_size ->
  0 < SurnameDataset_len ds ->
  sampler ≡ₚ seqZ 0 (SurnameDataset_len ds) ->
  exists (batches : list Batch) (items : list (list float * Z)),
    generate_batches ds batch_size sampler false = (batches, None)
    /\ map_each (SurnameDataset_getitem ds) sampler = Ok items
    /\ mjoin (x_surname <$> batches) = items.*1
    /\ mjoin (y_nationality <$> batches) = items.*2
    /\ Forall (fun b => 0 < len (x_surname b) <= batch_size
                        /\ len (y_nationality b) = len (x_surname b)) batches.
Proof.
  intros Hload Hrun Hpos _ Hperm.
  destruct (load_dataset_facts rows ds0 Hload) as (Hinv0 & Hdf0 & _).
  destruct (set_splits_inv names ds0 ds Hinv0 Hrun) as (Hinv & Hdf & _).
  pose proof (dataset_inv_len ds Hinv) as Hlen. rewrite Hdf, Hdf0 in Hlen.
  destruct (batch_sampler_keep_last batch_size sampler [] Hpos)
    as (Hjoin & Hall).
  { unfold len. cbn. lia. }
  set (groups := batch_sampler batch_size false sampler []) in *.
  cbn in Hjoin.
  assert (Hvalid : Forall (fun i => exists item, SurnameDataset_getitem ds i = Ok item)
                          sampler).
  { apply Forall_forall. intros i Hi. rewrite Hperm in Hi.
    apply elem_of_seqZ in Hi. rewrite Hlen in Hi.
    destruct (lookup_lt_is_Some_2 (where_split rows (_target_split ds))
                (Z.to_nat i)) as [row Hrow].
    { unfold len in Hi. lia. }
    destruct (getitem_fetches_row rows ds0 ds names i row Hload Hrun)
      as (x & y & Hitem & _); [lia | done |]. by eexists. }
  assert (Hfetch : Forall (fun g => exists b, fetch_batch ds g = Ok b) groups).
  { apply Forall_forall. intros g Hg.
    destruct (map_each_total (SurnameDataset_getitem ds) g) as [items Hitems].
    - apply Forall_forall. intros i Hi.
      apply (proj1 (Forall_forall _ _) Hvalid). rewrite <- Hjoin.
      apply list_elem_of_join. by exists g.
    - unfold fetch_batch. rewrite Hitems. cbn. by eexists. }
  destruct (yield_each_total _ _ Hfetch) as (batches & Hyield & Hbatches).
  destruct (fetched_batches_items ds groups batches Hbatches)
    as (items & Hitems & Hx & Hy).
  exists batches, items. unfold generate_batches.
  destruct (Z.leb_spec batch_size 0); [lia|]. fold groups.
  split; [done|]. split; [by rewrite <- Hjoin|]. split; [done|]. split; [done|].
  clear -Hbatches Hall. induction Hbatches as [|g b gs bs Hb _ IH];
    [constructor|].
  apply Forall_cons in Hall as [Hg Hall]. constructor; [|by apply IH].
  unfold fetch_batch in Hb. apply bind_Ok in Hb as (items & Hitems & [= <-]).
  apply map_each_Ok, Forall2_length in Hitems. cbn.
  unfold len in *. rewrite !length_fmap. lia.
Qed.

Lemma generate_batches_keeps_every_item_witness :
  exists (ds0 : SurnameDataset) (batches : list Batch)
         (items : list (list float * Z)),
    load_dataset_and_make_vectorizer example_rows = Ok ds0
    /\ generate_batches ds0 3 [1; 0] false = (batches, None)
    /\ map_each (SurnameDataset_getitem ds0) [1; 0] = Ok items
    /\ mjoin (x_surname <$> batches) = items.*1.
Proof.
  eexists.
  destruct (generate_batches_keeps_every_item example_rows _ _ [] 3 [1; 0]
              eq_refl eq_refl eq_refl eq_refl)
    as (batches & items & Hrun & Hitems & Hx & _).
  { vm_compute. apply Permutation_swap. }
  exists batches, items. split; [reflexivity|].
  split; [exact Hrun|]. split; [exact Hitems | exact Hx].
Defined.
